(** * Aurora sectorfile link installer: a shallow embedding of [installer.py]

    The development follows the source file top to bottom.

    - [PyStr]: the string operations the installer uses ([str.lower],
      [str.endswith], [os.path.splitext] on a directory entry name).
    - [Fs]: the file system the installer runs against, a tree of directory
      entries kept in listing order, with the [os.path] queries, [os.listdir],
      [os.walk] and the effect of each mutating call.
    - the installer itself, one definition per Python function, in a state
      and exception monad over the [world]; every mutating call the code
      issues is appended, with its outcome, to the world's [trace].

    Modelling conventions.
    - A path is the list of its components below the file system root;
      [os.path.join p n] is [p ++ [n]], [os.path.dirname] drops the last
      component and [os.path.abspath] is the identity (paths are absolute and
      normalised).  Entry names are compared exactly (case-sensitive lookup).
    - Links are leaves of the tree and are not dereferenced: a link answers
      the [os.path] queries by its kind, and a path that passes through a
      link does not resolve.  The operating system does follow links, so a
      statement that depends on what lies behind a link is made for the
      trees where this cannot matter: it assumes [plain] (no link on the
      way to a path or beneath it) or [alive] (what is at a path is not a
      dangling link).
    - A hard link is a second entry with the same node; that two entries
      share storage is not recorded in the tree.  Which call made an entry
      (a link or a copy) is read off the [trace].
    - Whether the host lets a mutating call through (permissions, a file
      system without hard links, no [mklink] command, ...) is decided by the
      world's [host] function, which sees the calls made so far; a call the
      host refuses, or that the tree makes impossible, fails and changes
      nothing.
    - Log lines are kept as structured messages; the text of caught
      exceptions and of [mklink]'s console output is not modelled. *)

From Stdlib Require Import List String Ascii Bool Arith ZArith NArith Lia.
Import ListNotations.

Local Open Scope string_scope.
Local Open Scope list_scope.

(* ------------------------------------------------------------------ *)
(** ** Python string operations *)

Module PyStr.

(** [str.lower] on one ASCII character. *)
Definition lower_ascii (c : ascii) : ascii :=
  let n := N_of_ascii c in
  if (65 <=? n)%N && (n <=? 90)%N then ascii_of_N (n + 32) else c.

(** [s.lower()] *)
Fixpoint lower (s : string) : string :=
  match s with
  | EmptyString => EmptyString
  | String c r => String (lower_ascii c) (lower r)
  end.

(** [s.endswith(suf)]: some tail of [s] is [suf]. *)
Fixpoint endswith (s suf : string) : bool :=
  String.eqb s suf ||
  match s with
  | EmptyString => false
  | String _ r => endswith r suf
  end.

(** The tail of [s] that starts at its last dot, [s.rfind('.')]. *)
Fixpoint last_dot_suffix (s : string) : option string :=
  match s with
  | EmptyString => None
  | String c r =>
      match last_dot_suffix r with
      | Some e => Some e
      | None => if Ascii.eqb c "." then Some s else None
      end
  end.

Fixpoint all_dots (s : string) : bool :=
  match s with
  | EmptyString => true
  | String c r => Ascii.eqb c "." && all_dots r
  end.

(** [os.path.splitext(name)] for a directory entry name (no separator in
    it): split at the last dot, unless only dots come before it. *)
Definition splitext (name : string) : string * string :=
  match last_dot_suffix name with
  | None => (name, EmptyString)
  | Some e =>
      let stem := substring 0 (String.length name - String.length e) name in
      if all_dots stem then (name, EmptyString) else (stem, e)
  end.

End PyStr.

(* ------------------------------------------------------------------ *)
(** ** The file system *)

Definition path := list string.

Module Fs.

(** What a link is: a symbolic link to a file, a symbolic link to a
    directory, or a directory junction ([mklink /J]). *)
Inductive link_kind := SymFile | SymDir | Junction.

#[warnings="-register-all"] Inductive node :=
| File (data : string)
| Dir (entries : list (string * node))
| Link (kind : link_kind) (target : path).

Definition entries := list (string * node).

Fixpoint find_entry (n : string) (es : entries) : option node :=
  match es with
  | [] => None
  | (m, c) :: r => if String.eqb n m then Some c else find_entry n r
  end.

(** Replace the entry called [n] (the first one), or add it at the end. *)
Fixpoint put_entry (n : string) (v : node) (es : entries) : entries :=
  match es with
  | [] => [(n, v)]
  | (m, c) :: r =>
      if String.eqb n m then (m, v) :: r else (m, c) :: put_entry n v r
  end.

Fixpoint del_entry (n : string) (es : entries) : entries :=
  match es with
  | [] => []
  | (m, c) :: r =>
      if String.eqb n m then r else (m, c) :: del_entry n r
  end.

(** The node a path names, if it resolves. *)
Fixpoint lookup (t : node) (p : path) : option node :=
  match p with
  | [] => Some t
  | n :: rest =>
      match t with
      | Dir es =>
          match find_entry n es with
          | Some c => lookup c rest
          | None => None
          end
      | _ => None
      end
  end.

(** Write ([Some v]) or delete ([None]) the entry at [p]; the parent of
    [p] has to be a directory, and the root itself is never replaced. *)
Fixpoint update (t : node) (p : path) (v : option node) : option node :=
  match p, t with
  | [], _ => None
  | [n], Dir es =>
      match v with
      | Some c => Some (Dir (put_entry n c es))
      | None =>
          match find_entry n es with
          | Some _ => Some (Dir (del_entry n es))
          | None => None
          end
      end
  | n :: rest, Dir es =>
      match find_entry n es with
      | Some c =>
          match update c rest v with
          | Some c' => Some (Dir (put_entry n c' es))
          | None => None
          end
      | None => None
      end
  | _ :: _, _ => None
  end.

(** [mkdir -p]: create the directories of [p] that are missing. *)
Fixpoint mkdirs (t : node) (p : path) : option node :=
  match p with
  | [] => match t with Dir _ => Some t | _ => None end
  | n :: rest =>
      match t with
      | Dir es =>
          match mkdirs
                  (match find_entry n es with Some c => c | None => Dir [] end)
                  rest with
          | Some c' => Some (Dir (put_entry n c' es))
          | None => None
          end
      | _ => None
      end
  end.

(** *** [os.path] queries *)

Definition node_isdir (c : node) : bool :=
  match c with
  | Dir _ | Link SymDir _ | Link Junction _ => true
  | _ => false
  end.

Definition node_isfile (c : node) : bool :=
  match c with
  | File _ | Link SymFile _ => true
  | _ => false
  end.

Definition node_islink (c : node) : bool :=
  match c with
  | Link SymFile _ | Link SymDir _ => true
  | _ => false
  end.

Definition test (f : node -> bool) (t : node) (p : path) : bool :=
  match lookup t p with
  | Some c => f c
  | None => false
  end.

Definition exists_ := test (fun _ => true).
Definition isdir := test node_isdir.
Definition isfile := test node_isfile.
Definition islink := test node_islink.

(** *** Listing *)

Definition names (es : entries) : list string := map fst es.

Definition dirnames (es : entries) : list string :=
  names (filter (fun e => node_isdir (snd e)) es).

Definition filenames (es : entries) : list string :=
  names (filter (fun e => negb (node_isdir (snd e))) es).

(** [os.listdir(p)]; [None] when [p] is not a directory. *)
Definition listdir (t : node) (p : path) : option (list string) :=
  match lookup t p with
  | Some (Dir es) => Some (names es)
  | _ => None
  end.

(** [os.walk], top-down: the triple of a directory, then the walks of its
    sub-directories in listing order.  Links are listed but not entered. *)
Fixpoint walk_node (p : path) (t : node)
  : list (path * list string * list string) :=
  match t with
  | Dir es =>
      (p, dirnames es, filenames es)
      :: (fix sub (l : entries) :=
            match l with
            | [] => []
            | (n, c) :: r => walk_node (p ++ [n]) c ++ sub r
            end) es
  | _ => []
  end.

(** [os.walk(top)]: nothing when [top] cannot be listed. *)
Definition walk (t : node) (top : path) :=
  match lookup t top with
  | Some c => walk_node top c
  | None => []
  end.

End Fs.

(* ------------------------------------------------------------------ *)
(** ** Mutating calls, the world, and the monad the installer runs in *)

Import Fs.

(** The calls through which the installer changes the file system. *)
Inductive syscall :=
| os_remove (p : path)
| shutil_rmtree (p : path)
| os_link (src dst : path)
| os_symlink (src dst : path)
| mklink_H (dst src : path)          (* subprocess: mklink /H dst src *)
| mklink_J (link target : path)      (* subprocess: mklink /J link target *)
| os_makedirs (p : path)             (* exist_ok=True *)
| shutil_copy2 (src dst : path).

(** The path a call creates, removes or overwrites. *)
Definition written (c : syscall) : path :=
  match c with
  | os_remove p | shutil_rmtree p | os_makedirs p => p
  | os_link _ dst | os_symlink _ dst | mklink_H dst _ | shutil_copy2 _ dst => dst
  | mklink_J link _ => link
  end.

(** A call together with whether it succeeded. *)
Definition event := (syscall * bool)%type.

Inductive exn :=
| FileNotFoundError (root : path)    (* raised by find_sectorfile_dir *)
| FileExistsError (p : path)         (* raised by create_conew_junctions *)
| OSError (c : syscall)              (* a failed os / shutil call *)
| NotADirectoryError (p : path).     (* os.listdir on something else *)

Inductive msg :=
| Warn_couldnt_remove_existing (dst : path)
| Hard_link (dst src : path)
| Symlink (dst src : path)
| Mklink_H (dst src : path)
| Accepting_folder_by_name (cand : path)
| Warn_couldnt_remove_existing_alias (link_path : path) (e : exn)
| Directory_junction_created (link_path src : path)
| ERROR_creating_junction (link_path src : path)
| Warn_couldnt_remove (dst : path) (e : exn)
| Skipping_existing (dst : path)
| Copied_fallback (dst : path)
| ERROR_copying (src dst : path) (e : exn)
| Detecting_under (root : path)
| Sectorfile_root (d : path)
| ERROR_repository_not_found (repo : path)
| ERROR_expected_source (p : path)
| Target_include_dir (p : path)
| DRY_RUN
| Would_create_junctions (target_include src : path)
| Would_link (src_main sectorfile_dir : path)
| Linked_or_copied (n : nat)
| Done
| Unhandled_error (e : exn).

Record world := World {
  fs : node;                              (* the file system *)
  host : list event -> syscall -> bool;   (* does the host let the call through *)
  trace : list event;                     (* mutating calls made so far *)
  logged : list msg;                      (* lines given to the log callback *)
  shown : list Z                          (* values given to the progress callback *)
}.

(** What a call does to the tree when the host lets it through; [None] when
    the tree makes it fail. *)
Definition effect (t : node) (c : syscall) : option node :=
  match c with
  | os_remove p =>
      match lookup t p with
      | Some (File _) | Some (Link _ _) => update t p None
      | _ => None
      end
  | shutil_rmtree p =>
      match lookup t p with
      | Some (Dir _) => update t p None
      | _ => None
      end
  | os_link src dst | mklink_H dst src =>
      match lookup t src, lookup t dst with
      | Some (File d), None => update t dst (Some (File d))
      | Some (Link k tg), None => update t dst (Some (Link k tg))
      | _, _ => None
      end
  | os_symlink src dst =>
      match lookup t dst with
      | None => update t dst (Some (Link (if isdir t src then SymDir else SymFile) src))
      | Some _ => None
      end
  | mklink_J link target =>
      match lookup t link with
      | None => update t link (Some (Link Junction target))
      | Some _ => None
      end
  | os_makedirs p => mkdirs t p
  | shutil_copy2 src dst =>
      match lookup t src with
      | Some (File d) =>
          match lookup t dst with
          | None => update t dst (Some (File d))
          | Some (File _) =>
              if list_eq_dec string_dec src dst then None
              else update t dst (Some (File d))
          | Some (Dir _) =>
              let inside := dst ++ [last src EmptyString] in
              match lookup t inside with
              | None => update t inside (Some (File d))
              | Some (File _) =>
                  if list_eq_dec string_dec src inside then None
                  else update t inside (Some (File d))
              | Some _ => None
              end
          | Some (Link _ _) => None
          end
      | _ => None
      end
  end.

Inductive result (A : Type) :=
| Ok (a : A)
| Raise (e : exn).
Arguments Ok {A} a.
Arguments Raise {A} e.

Definition M (A : Type) := world -> result A * world.

Definition ret {A} (a : A) : M A := fun w => (Ok a, w).

Definition raise {A} (e : exn) : M A := fun w => (Raise e, w).

Definition bind {A B} (m : M A) (k : A -> M B) : M B :=
  fun w =>
    match m w with
    | (Ok a, w') => k a w'
    | (Raise e, w') => (Raise e, w')
    end.

(** [try: m except Exception as e: h e] *)
Definition try_except {A} (m : M A) (h : exn -> M A) : M A :=
  fun w =>
    match m w with
    | (Ok a, w') => (Ok a, w')
    | (Raise e, w') => h e w'
    end.

Notation "x <- m ;; k" := (bind m (fun x => k))
  (at level 61, m at next level, right associativity).
Notation "m ;; k" := (bind m (fun _ => k))
  (at level 61, right associativity).

(** A query that reads the file system. *)
Definition ask {A} (q : node -> A) : M A := fun w => (Ok (q (fs w)), w).

Definition record (ev : event) (t : node) (w : world) : world :=
  World t (host w) (trace w ++ [ev]) (logged w) (shown w).

(** Issue a mutating call: it succeeds when the host lets it through and the
    tree allows it; otherwise it raises and the tree is unchanged. *)
Definition sys (c : syscall) : M unit :=
  fun w =>
    match (if host w (trace w) c then effect (fs w) c else None) with
    | Some t => (Ok tt, record (c, true) t w)
    | None => (Raise (OSError c), record (c, false) (fs w) w)
    end.

(** [os.makedirs(p, exist_ok=True)]: nothing to do, and no failure, when [p]
    is a directory already. *)
Definition makedirs_exist_ok (p : path) : M unit :=
  fun w =>
    if isdir (fs w) p then (Ok tt, record (os_makedirs p, true) (fs w) w)
    else sys (os_makedirs p) w.

Fixpoint foldM {A B} (f : A -> B -> M B) (l : list A) (b : B) : M B :=
  match l with
  | [] => ret b
  | a :: r => b' <- f a b ;; foldM f r b'
  end.

(* ------------------------------------------------------------------ *)
(** ** installer.py *)

Import PyStr.

Definition FILES_EXTS_TO_LINK_ONCE : list string := [".isc"; ".clr"].

Definition COnew_REL : path := ["Include"; "COnew"].

Definition str_in (s : string) (l : list string) : bool :=
  existsb (String.eqb s) l.

Definition _log (m : msg) : M unit :=
  fun w => (Ok tt, World (fs w) (host w) (trace w) (logged w ++ [m]) (shown w)).

Definition call_progress (progress : bool) (pct : Z) : M unit :=
  fun w =>
    if progress
    then (Ok tt, World (fs w) (host w) (trace w) (logged w) (shown w ++ [pct]))
    else (Ok tt, w).

Definition _try_hardlink (src dst : path) : M bool :=
  try_except (sys (os_link src dst) ;; ret true) (fun _ => ret false).

Definition _try_symlink (src dst : path) : M bool :=
  try_except (sys (os_symlink src dst) ;; ret true) (fun _ => ret false).

(** [subprocess.run] does not raise on a failing command; the result is
    whether the return code is 0. *)
Definition _try_mklink_hard (src dst : path) : M bool :=
  try_except (sys (mklink_H dst src) ;; ret true) (fun _ => ret false).

Definition _make_dir_junction (link_path target_path : path) : M bool :=
  try_except (sys (mklink_J link_path target_path) ;; ret true)
             (fun _ => ret false).

Definition _create_file_link (src dst : path) : M bool :=
  ex <- ask (fun t => exists_ t dst) ;;
  (if ex
   then try_except (sys (os_remove dst))
                   (fun _ => _log (Warn_couldnt_remove_existing dst))
   else ret tt) ;;
  h <- _try_hardlink src dst ;;
  if h then _log (Hard_link dst src) ;; ret true
  else
    s <- _try_symlink src dst ;;
    if s then _log (Symlink dst src) ;; ret true
    else
      m <- _try_mklink_hard src dst ;;
      if m then _log (Mklink_H dst src) ;; ret true
      else ret false.

Definition is_isc (f : string) : bool := endswith (lower f) ".isc".

(** [any(f.lower().endswith('.isc') for _,_,files in os.walk(d) for f in files)] *)
Definition any_isc (t : node) (d : path) : bool :=
  existsb (fun tr => existsb is_isc (snd tr)) (walk t d).

Definition conventional_names : list string :=
  ["SectorFiles"; "Sectorfile"; "SectorFile"; "SectorFile-MAIN"].

(** The loop over the conventional names; [None] when it falls through. *)
Fixpoint try_names (root : path) (accept_empty_named : bool)
         (ns : list string) : M (option path) :=
  match ns with
  | [] => ret None
  | n :: r =>
      let cand := root ++ [n] in
      d <- ask (fun t => isdir t cand) ;;
      if d then
        c <- ask (fun t => isdir t (cand ++ ["Include"]) || any_isc t cand) ;;
        if c then ret (Some cand)
        else if accept_empty_named
             then _log (Accepting_folder_by_name cand) ;; ret (Some cand)
             else try_names root accept_empty_named r
      else try_names root accept_empty_named r
  end.

(** The final loop over [os.walk(root)]. *)
Fixpoint first_match (ws : list (path * list string * list string))
  : option path :=
  match ws with
  | [] => None
  | (dirpath, dirnames, filenames) :: r =>
      if str_in "Include" dirnames then Some dirpath
      else if existsb is_isc filenames then Some dirpath
      else first_match r
  end.

Definition find_sectorfile_dir (root : path) (accept_empty_named : bool)
  : M path :=
  c <- ask (fun t => isdir t root
                     && (isdir t (root ++ ["Include"]) || any_isc t root)) ;;
  if c then ret root
  else
    r <- try_names root accept_empty_named conventional_names ;;
    match r with
    | Some cand => ret cand
    | None =>
        ws <- ask (fun t => walk t root) ;;
        match first_match ws with
        | Some d => ret d
        | None => raise (FileNotFoundError root)
        end
    end.

(** One round of the loop of [create_conew_junctions]. *)
Definition junction_step (src_include_conew target_include_dir : path)
           (force : bool) (name : string) (created : list path)
  : M (list path) :=
  let link_path := target_include_dir ++ [name] in
  ex <- ask (fun t => exists_ t link_path) ;;
  (if ex then
     if force then
       try_except
         (d <- ask (fun t => isdir t link_path && negb (islink t link_path)) ;;
          if d then sys (shutil_rmtree link_path)
          else sys (os_remove link_path))
         (fun e => _log (Warn_couldnt_remove_existing_alias link_path e))
     else raise (FileExistsError link_path)
   else ret tt) ;;
  ok <- _make_dir_junction link_path src_include_conew ;;
  if ok
  then _log (Directory_junction_created link_path src_include_conew) ;;
       ret (created ++ [link_path])
  else _log (ERROR_creating_junction link_path src_include_conew) ;;
       ret created.

Definition create_conew_junctions (src_include_conew target_include_dir : path)
           (force : bool) : M (list path) :=
  makedirs_exist_ok target_include_dir ;;
  foldM (junction_step src_include_conew target_include_dir force)
        ["COnew"; "COnew_2"] [].

(** [_, ext = os.path.splitext(name)] and
    [ext.lower() in FILES_EXTS_TO_LINK_ONCE]. *)
Definition ext_to_link (name : string) : bool :=
  let ext := snd (splitext name) in
  str_in (lower ext) FILES_EXTS_TO_LINK_ONCE.

(** One round of the loop of [link_top_level_files_once]. *)
Definition link_step (src_main sectorfile_dir : path) (force : bool)
           (name : string) (count : nat) : M nat :=
  let src_path := src_main ++ [name] in
  f <- ask (fun t => isfile t src_path) ;;
  if negb f then ret count
  else
    if ext_to_link name then
      let dst := sectorfile_dir ++ [name] in
      let attempt :=
        ok <- _create_file_link src_path dst ;;
        (if negb ok
         then try_except (sys (shutil_copy2 src_path dst) ;;
                          _log (Copied_fallback dst))
                         (fun e => _log (ERROR_copying src_path dst e))
         else ret tt) ;;
        ret (count + 1) in
      ex <- ask (fun t => exists_ t dst) ;;
      if ex then
        if force
        then try_except (sys (os_remove dst))
                        (fun e => _log (Warn_couldnt_remove dst e)) ;;
             attempt
        else _log (Skipping_existing dst) ;; ret count
      else attempt
    else ret count.

Definition os_listdir (p : path) : M (list string) :=
  fun w =>
    match listdir (fs w) p with
    | Some l => (Ok l, w)
    | None => (Raise (NotADirectoryError p), w)
    end.

Definition link_top_level_files_once (src_main sectorfile_dir : path)
           (force : bool) : M nat :=
  l <- os_listdir src_main ;;
  foldM (link_step src_main sectorfile_dir force) l 0.

(** [aurora.lower().endswith('.exe')]: the suffix has no separator in it, so
    it is looked for in the last component. *)
Definition ends_with_exe (aurora : path) : bool :=
  match rev aurora with
  | [] => false
  | n :: _ => endswith (lower n) ".exe"
  end.

(** The [if] / [elif] chain of [run] that determines [src_main]; [None] is
    its [else] branch. *)
Definition src_main_of (t : node) (repo : path) : option path :=
  let repo_candidate1 := repo in
  let repo_candidate2 := repo ++ ["SectorFile-MAIN"] in
  if isdir t repo_candidate1 && isdir t (repo_candidate1 ++ ["Include"])
  then Some repo_candidate1
  else if isdir t repo_candidate2 then Some repo_candidate2
  else None.

(** The root discovery starts from. *)
Definition aurora_root_of (aurora : path) : path :=
  if ends_with_exe aurora then removelast aurora else aurora.

(** The body of the [try] block of [run]. *)
Definition run_body (aurora repo : path) (force dry_run debug progress : bool)
  : M Z :=
  let aurora_root := aurora_root_of aurora in
  _log (Detecting_under aurora_root) ;;
  sectorfile_dir <- find_sectorfile_dir aurora_root true ;;
  _log (Sectorfile_root sectorfile_dir) ;;
  let continue_with (src_main : path) : M Z :=
    let src_include_conew := src_main ++ COnew_REL in
    ok <- ask (fun t => isdir t src_include_conew) ;;
    if negb ok then _log (ERROR_expected_source src_include_conew) ;; ret 3%Z
    else
      let target_include_dir := sectorfile_dir ++ ["Include"] in
      _log (Target_include_dir target_include_dir) ;;
      if dry_run then
        _log DRY_RUN ;;
        _log (Would_create_junctions target_include_dir src_include_conew) ;;
        _log (Would_link src_main sectorfile_dir) ;;
        ret 0%Z
      else
        makedirs_exist_ok target_include_dir ;;
        call_progress progress (-1) ;;
        create_conew_junctions src_include_conew target_include_dir force ;;
        linked <- link_top_level_files_once src_main sectorfile_dir force ;;
        _log (Linked_or_copied linked) ;;
        call_progress progress 100 ;;
        _log Done ;;
        ret 0%Z in
  found <- ask (fun t => src_main_of t repo) ;;
  match found with
  | Some src_main => continue_with src_main
  | None => _log (ERROR_repository_not_found repo) ;; ret 2%Z
  end.

(** [run]: the [try] block, and the handler that turns any exception into
    the code 10. *)
Definition run (aurora repo : path) (force dry_run debug progress : bool)
           (w : world) : Z * world :=
  match run_body aurora repo force dry_run debug progress w with
  | (Ok code, w') => (code, w')
  | (Raise e, w') =>
      match _log (Unhandled_error e) w' with
      | (_, w'') => (10%Z, w'')
      end
  end.

(* ------------------------------------------------------------------ *)
(** ** Vocabulary of the properties *)

(** [beneath P d]: the directory [d] has, at any depth below it (links are
    not entered), an entry whose name and node satisfy [P]. *)
Inductive beneath (P : string -> node -> Prop) : node -> Prop :=
| beneath_here es n c :
    In (n, c) es -> P n c -> beneath P (Dir es)
| beneath_below es n c :
    In (n, c) es -> beneath P c -> beneath P (Dir es).

(** A file (anything [os.walk] lists among the file names) whose name
    satisfies [good] lies beneath [d]. *)
Definition file_beneath (good : string -> bool) : node -> Prop :=
  beneath (fun n c => node_isdir c = false /\ good n = true).


(** The name ends, in any letter case, with the extension [e]. *)
Definition has_ext (e : string) (f : string) : bool := endswith (lower f) e.


(** [p] lies at or below [d]. *)
Definition under (d p : path) : Prop := exists rest, p = d ++ rest.




(** [os.path.exists] is true of [p] whether or not links are followed:
    [p] names a file or a directory, or a link whose target is a file or a
    directory of the tree.  A dangling link is not alive. *)
Definition alive (t : node) (p : path) : bool :=
  match lookup t p with
  | Some (Link _ target) =>
      match lookup t target with
      | Some (File _) | Some (Dir _) => true
      | _ => false
      end
  | Some _ => true
  | None => false
  end.

(** What the host and the tree [t] answer to the call [c] after the calls
    [tr]: the new tree, or [None] for a failure. *)
Definition granted (w : world) (tr : list event) (t : node) (c : syscall)
  : option node :=
  if host w tr c then effect t c else None.

(** The two paths part ways at some component: neither lies at or below
    the other. *)
Fixpoint diverge (p q : path) : bool :=
  match p, q with
  | a :: p', b :: q' => if String.eqb a b then diverge p' q' else true
  | _, _ => false
  end.

(** The calls of the file-linking pass. *)
Definition file_link_call (c : syscall) : bool :=
  match c with
  | os_link _ _ | os_symlink _ _ | mklink_H _ _ | shutil_copy2 _ _
  | os_remove _ => true
  | _ => false
  end.

Definition is_copy (c : syscall) : bool :=
  match c with shutil_copy2 _ _ => true | _ => false end.

(** *** Devices of the proofs *)

Section NodeInduction.
Variable P : node -> Prop.
Hypothesis on_file : forall d, P (File d).
Hypothesis on_link : forall k t, P (Link k t).
Hypothesis on_dir :
  forall es, Forall (fun e => P (snd e)) es -> P (Dir es).

(** Induction on a tree, with the hypothesis for every entry of a
    directory. *)
Fixpoint node_rect' (t : node) : P t :=
  match t with
  | File d => on_file d
  | Link k tg => on_link k tg
  | Dir es =>
      on_dir es
        ((fix all (l : entries) : Forall (fun e => P (snd e)) l :=
            match l with
            | [] => Forall_nil _
            | e :: r => Forall_cons e (node_rect' (snd e)) (all r)
            end) es)
  end.
End NodeInduction.

(** The walks of the entries of a directory, one after the other. *)
Definition walk_entries (p : path) (es : entries) :=
  flat_map (fun e => walk_node (p ++ [fst e]) (snd e)) es.


(** The clean-up that [_create_file_link] starts with. *)
Definition cleanup (dst : path) : M unit :=
  ex <- ask (fun t => exists_ t dst) ;;
  if ex
  then try_except (sys (os_remove dst))
                  (fun _ => _log (Warn_couldnt_remove_existing dst))
  else ret tt.

(** The three link mechanisms of [_create_file_link], after its clean-up. *)
Definition link_attempts (src dst : path) : M bool :=
  h <- _try_hardlink src dst ;;
  if h then _log (Hard_link dst src) ;; ret true
  else
    s <- _try_symlink src dst ;;
    if s then _log (Symlink dst src) ;; ret true
    else
      m <- _try_mklink_hard src dst ;;
      if m then _log (Mklink_H dst src) ;; ret true
      else ret false.

(** [stays P R m]: whatever the world, [m] leaves the host alone, adds to
    the trace only calls that satisfy [P], and takes the file system to one
    related to it by [R]. *)
Definition stays {A} (P : syscall -> Prop) (R : node -> node -> Prop)
           (m : M A) : Prop :=
  forall w,
    host (snd (m w)) = host w
    /\ (exists new, trace (snd (m w)) = trace w ++ new
                    /\ Forall (fun ev => P (fst ev)) new)
    /\ R (fs w) (fs (snd (m w))).

(** Nothing changes at the paths that part ways with [d]. *)
Definition same_outside (d : path) (t t' : node) : Prop :=
  forall q, diverge d q = true -> lookup t' q = lookup t q.

(** The world after one more log line. *)
Definition say (m : msg) (w : world) : world :=
  World (fs w) (host w) (trace w) (logged w ++ [m]) (shown w).

(** The last stage of [run], once the folders are known and the run is not
    a dry run. *)
Definition execute (sectorfile_dir src_main : path) (force progress : bool)
  : M Z :=
  let src_include_conew := src_main ++ COnew_REL in
  let target_include_dir := sectorfile_dir ++ ["Include"] in
  makedirs_exist_ok target_include_dir ;;
  call_progress progress (-1) ;;
  create_conew_junctions src_include_conew target_include_dir force ;;
  linked <- link_top_level_files_once src_main sectorfile_dir force ;;
  _log (Linked_or_copied linked) ;;
  call_progress progress 100 ;;
  _log Done ;;
  ret 0%Z.

(** The call writes at or below [d]. *)
Definition writes_under (d : path) (c : syscall) : Prop := under d (written c).

(** [m] writes only at or below [d], and changes nothing outside [d]. *)
Definition confined (d : path) {A} (m : M A) : Prop :=
  stays (writes_under d) (same_outside d) m.

(** *** Worlds used in the examples *)

Definition willing : list event -> syscall -> bool := fun _ _ => true.

Definition unwilling : list event -> syscall -> bool := fun _ _ => false.

Definition fresh (t : node) (h : list event -> syscall -> bool) : world :=
  World t h [] [] [].

(** A repository with its main folder, the shared directory and one file of
    each recognized extension. *)
Definition repo_tree : node :=
  Dir [("SectorFile-MAIN",
        Dir [("Include", Dir [("COnew", Dir [("airports.txt", File "SKBO")])]);
             ("colombia.isc", File "isc");
             ("Colours.CLR", File "clr");
             ("README.md", File "readme")])].

(** An installation whose only reference file is a colour file. *)
Definition clr_only : node :=
  Dir [("aurora", Dir [("data", Dir [("colours.clr", File "clr")])])].

Definition isc_only : node :=
  Dir [("aurora", Dir [("data", Dir [("COLOMBIA.ISC", File "isc")])])].


(** An installation with an empty [SectorFiles/Include]. *)
Definition installed_empty : node :=
  Dir [("aurora", Dir [("SectorFiles", Dir [("Include", Dir [])])]);
       ("repo", repo_tree)].


(** An installation where the first, or only the second, alias is there
    already. *)
Definition first_alias_present : node :=
  Dir [("aurora",
        Dir [("SectorFiles", Dir [("Include", Dir [("COnew", Dir [])])])]);
       ("repo", repo_tree)].

Definition second_alias_present : node :=
  Dir [("aurora",
        Dir [("SectorFiles", Dir [("Include", Dir [("COnew_2", Dir [])])])]);
       ("repo", repo_tree)].



(** *** Further vocabulary *)

Fixpoint distinct (l : list string) : bool :=
  match l with
  | [] => true
  | n :: r => negb (str_in n r) && distinct r
  end.

(** The entries of every directory of the tree have distinct names, as in
    any file system. *)
Fixpoint well_formed (t : node) : bool :=
  match t with
  | Dir es =>
      distinct (names es)
      && (fix all (l : entries) : bool :=
            match l with
            | [] => true
            | (_, c) :: r => well_formed c && all r
            end) es
  | _ => true
  end.

(** A triple of the walk that the final loop of discovery stops at. *)
Definition remarkable (tr : path * list string * list string) : bool :=
  str_in "Include" (snd (fst tr)) || existsb is_isc (snd tr).

(** The folder has [Include] in it or an [.isc] file beneath it: the test
    of the first two steps of discovery. *)
Definition looks_like_sectorfile (t : node) (d : path) : bool :=
  isdir t (d ++ ["Include"]) || any_isc t d.


(** An installation whose sectorfile folder has an unconventional name. *)
Definition unconventional : node :=
  Dir [("aurora",
        Dir [("bin", Dir [("Aurora.exe", File "exe")]);
             ("Data", Dir [("Include", Dir []); ("notes.txt", File "n")])])].

(** [keeps t t']: every file and link of [t] is in [t'], unchanged and at
    the same path, and every directory of [t] is still a directory. *)
Definition keeps (t t' : node) : Prop :=
  forall q n,
    lookup t q = Some n ->
    match n with
    | Dir _ => exists es, lookup t' q = Some (Dir es)
    | _ => lookup t' q = Some n
    end.

(** The calls that take something away: removals, and the copy, which may
    overwrite. *)
Definition destructive (c : syscall) : bool :=
  match c with
  | os_remove _ | shutil_rmtree _ | shutil_copy2 _ _ => true
  | _ => false
  end.

Definition is_removal (c : syscall) : bool :=
  match c with
  | os_remove _ | shutil_rmtree _ => true
  | _ => false
  end.

(** The attempt of [link_step]: link, else copy, and count. *)
Definition attempt_link (src_path dst : path) (count : nat) : M nat :=
  ok <- _create_file_link src_path dst ;;
  (if negb ok
   then try_except (sys (shutil_copy2 src_path dst) ;;
                    _log (Copied_fallback dst))
                   (fun e => _log (ERROR_copying src_path dst e))
   else ret tt) ;;
  ret (count + 1).

(** [gentle d names w w']: from [w] to [w'] nothing was removed or
    overwritten, and what was written is at [d/n] for an [n] among
    [names]. *)
Definition gentle (d : path) (names : list string) (w w' : world) : Prop :=
  host w' = host w
  /\ shown w' = shown w
  /\ keeps (fs w) (fs w')
  /\ (forall q, (forall n, In n names -> diverge (d ++ [n]) q = true) ->
                lookup (fs w') q = lookup (fs w) q)
  /\ exists new,
       trace w' = trace w ++ new
       /\ Forall (fun ev => is_removal (fst ev) = false
                            /\ exists n, In n names
                                         /\ written (fst ev) = d ++ [n]) new.

(** [m] removes nothing and overwrites nothing, whatever the world. *)
Definition harmless {A} (m : M A) : Prop :=
  stays (fun c => is_removal c = false) keeps m.

(** The call writes at [d/n] for a listed name [n] with a recognized
    extension. *)
Definition writes_listed (d : path) (l : list string) (c : syscall) : Prop :=
  exists n, In n l /\ ext_to_link n = true /\ written c = d ++ [n].

(** An installation where the files of the repository are in place
    already. *)
Definition files_in_place : node :=
  Dir [("aurora",
        Dir [("SectorFiles",
              Dir [("colombia.isc", File "mine"); ("Colours.CLR", File "mine")])]);
       ("repo", repo_tree)].

(** [m] does not call the progress callback. *)
Definition silent {A} (m : M A) : Prop :=
  forall w, shown (snd (m w)) = shown w.

(** The host lets every call through. *)
Definition obliging (w : world) : Prop := forall tr c, host w tr c = true.

(** From [w] to [w'] the host is the same, nothing was removed or
    overwritten, and nothing changed away from [d]. *)
Definition calm (d : path) (w w' : world) : Prop :=
  host w' = host w /\ keeps (fs w) (fs w') /\ same_outside d (fs w) (fs w').

(* ------------------------------------------------------------------ *)
(** ** Facts about the string operations *)

Module PyStrFacts.
Import PyStr.
Local Open Scope string_scope.

Lemma lower_app (a b : string) : lower (a ++ b) = lower a ++ lower b.
Proof. induction a as [|c a IH]; simpl; [reflexivity | now rewrite IH]. Qed.

Lemma endswith_refl (s : string) : endswith s s = true.
Proof. destruct s; simpl; rewrite ?String.eqb_refl, ?Ascii.eqb_refl; reflexivity. Qed.

Lemma endswith_app (a b : string) : endswith (a ++ b) b = true.
Proof.
  induction a as [|c a IH]; simpl.
  - apply endswith_refl.
  - rewrite IH. apply orb_true_r.
Qed.

Lemma lower_ascii_dot (c : ascii) :
  Ascii.eqb (lower_ascii c) "." = Ascii.eqb c ".".
Proof. destruct c as [[] [] [] [] [] [] [] []]; reflexivity. Qed.

Lemma last_dot_suffix_app (a e : string) :
  last_dot_suffix e = Some e -> last_dot_suffix (a ++ e) = Some e.
Proof.
  intros He. induction a as [|c a IH]; simpl; [exact He | now rewrite IH].
Qed.

Lemma substring_stem (a e : string) :
  substring 0 (String.length (a ++ e) - String.length e) (a ++ e) = a.
Proof.
  assert (L : forall x y, String.length (x ++ y) = String.length x + String.length y).
  { induction x; simpl; intros; [reflexivity | now rewrite IHx]. }
  rewrite L. replace (String.length a + String.length e - String.length e)
    with (String.length a) by lia.
  induction a as [|c a IH]; simpl.
  - destruct e; reflexivity.
  - now rewrite IH.
Qed.

(** A name made of a stem that is not only dots and of an extension with
    its single dot in front splits into the two. *)
Lemma splitext_app (a e : string) :
  last_dot_suffix e = Some e -> all_dots a = false ->
  splitext (a ++ e) = (a, e).
Proof.
  intros He Ha. unfold splitext.
  rewrite (last_dot_suffix_app a e He), substring_stem, Ha. reflexivity.
Qed.

(** An extension that lower-cases to [.isc] or [.clr] has one dot, in
    front. *)
Lemma recognized_ext_shape (e : string) :
  In (lower e) [".isc"; ".clr"] -> last_dot_suffix e = Some e.
Proof.
  intros [H | [H | []]];
    destruct e as [|c0 [|c1 [|c2 [|c3 [|c4 e]]]]]; try discriminate H;
    cbn [lower] in H; injection H as H0 H1 H2 H3; cbn [last_dot_suffix];
    rewrite <- (lower_ascii_dot c3), <- (lower_ascii_dot c2),
            <- (lower_ascii_dot c1), <- (lower_ascii_dot c0),
            <- H0, <- H1, <- H2, <- H3; reflexivity.
Qed.
End PyStrFacts.

(* ------------------------------------------------------------------ *)
(** ** Facts about the file system *)

Module FsFacts.

Lemma find_put_same n v es : find_entry n (put_entry n v es) = Some v.
Proof.
  induction es as [|[m c] r IH]; simpl.
  - now rewrite String.eqb_refl.
  - destruct (String.eqb n m) eqn:E; simpl; rewrite E; [reflexivity | exact IH].
Qed.

Lemma find_put_other n b v es :
  String.eqb b n = false -> find_entry b (put_entry n v es) = find_entry b es.
Proof.
  intros Hb. induction es as [|[m c] r IH]; simpl.
  - now rewrite Hb.
  - destruct (String.eqb n m) eqn:E; simpl.
    + apply String.eqb_eq in E. subst m. now rewrite Hb.
    + now rewrite IH.
Qed.

Lemma find_del_other n b es :
  String.eqb b n = false -> find_entry b (del_entry n es) = find_entry b es.
Proof.
  intros Hb. induction es as [|[m c] r IH]; simpl; [reflexivity|].
  destruct (String.eqb n m) eqn:E; simpl.
  - apply String.eqb_eq in E. subst m. now rewrite Hb.
  - now rewrite IH.
Qed.

Lemma lookup_app t p q :
  lookup t (p ++ q) =
  match lookup t p with Some c => lookup c q | None => None end.
Proof.
  revert t. induction p as [|n p IH]; intros t; simpl; [reflexivity|].
  destruct t as [ | es | ]; try reflexivity.
  destruct (find_entry n es); [apply IH | reflexivity].
Qed.

Lemma diverge_nil_r p : diverge p [] = false.
Proof. destruct p; reflexivity. Qed.

Lemma diverge_siblings d a b r1 r2 :
  a <> b -> diverge (d ++ a :: r1) (d ++ b :: r2) = true.
Proof.
  intros Hab. induction d as [|n d IH]; simpl.
  - destruct (String.eqb a b) eqn:E; [apply String.eqb_eq in E; contradiction | reflexivity].
  - now rewrite String.eqb_refl.
Qed.

Lemma diverge_app_l p q x : diverge p q = true -> diverge (p ++ x) q = true.
Proof.
  revert q. induction p as [|a p IH]; intros [|b q]; simpl; try discriminate.
  destruct (String.eqb a b); [apply IH | reflexivity].
Qed.

Lemma diverge_app_r p q x : diverge p q = true -> diverge p (q ++ x) = true.
Proof.
  revert q. induction p as [|a p IH]; intros [|b q]; simpl; try discriminate.
  destruct (String.eqb a b); [apply IH | reflexivity].
Qed.

Lemma update_deep es n n' rest v :
  update (Dir es) (n :: n' :: rest) v =
  match find_entry n es with
  | Some c =>
      match update c (n' :: rest) v with
      | Some c' => Some (Dir (put_entry n c' es))
      | None => None
      end
  | None => None
  end.
Proof. reflexivity. Qed.

Lemma update_last es n v :
  update (Dir es) [n] v =
  match v with
  | Some c => Some (Dir (put_entry n c es))
  | None =>
      match find_entry n es with
      | Some _ => Some (Dir (del_entry n es))
      | None => None
      end
  end.
Proof. reflexivity. Qed.

(** Writing or deleting at [p] leaves every path that parts ways with [p]
    as it was. *)
Lemma update_frame p : forall t v t' q,
  update t p v = Some t' -> diverge p q = true -> lookup t' q = lookup t q.
Proof.
  induction p as [|n rest IH]; intros t v t' [|b q] Hu Hd;
    simpl in Hd; try discriminate.
  destruct t as [ | es | ]; try (destruct rest; discriminate Hu).
  destruct (String.eqb n b) eqn:E.
  - apply String.eqb_eq in E. subst b.
    destruct rest as [|n' rest']; [discriminate Hd|].
    rewrite update_deep in Hu.
    destruct (find_entry n es) as [c|] eqn:Ef; [|discriminate].
    destruct (update c (n' :: rest') v) as [c'|] eqn:Ec; [|discriminate].
    injection Hu as <-. simpl. rewrite find_put_same, Ef.
    eapply IH; eassumption.
  - assert (Eb : String.eqb b n = false) by (now rewrite String.eqb_sym).
    assert (K : forall es', find_entry b es' = find_entry b es ->
                lookup (Dir es') (b :: q) = lookup (Dir es) (b :: q)).
    { intros es' H. simpl. now rewrite H. }
    destruct rest as [|n' rest'];
      [rewrite update_last in Hu | rewrite update_deep in Hu].
    + destruct v as [c|].
      * injection Hu as <-. apply K, find_put_other, Eb.
      * destruct (find_entry n es); [|discriminate].
        injection Hu as <-. apply K, find_del_other, Eb.
    + destruct (find_entry n es) as [c|]; [|discriminate].
      destruct (update c (n' :: rest') v) as [c'|]; [|discriminate].
      injection Hu as <-. apply K, find_put_other, Eb.
Qed.

Lemma mkdirs_frame p : forall t t' q,
  mkdirs t p = Some t' -> diverge p q = true -> lookup t' q = lookup t q.
Proof.
  induction p as [|n rest IH]; intros t t' [|b q] Hu Hd;
    simpl in Hd; try discriminate.
  destruct t as [ | es | ]; try discriminate Hu. cbn [mkdirs] in Hu.
  destruct (mkdirs _ rest) as [c'|] eqn:Ec; [|discriminate].
  injection Hu as <-. simpl.
  destruct (String.eqb n b) eqn:E.
  - apply String.eqb_eq in E. subst b. rewrite find_put_same.
    rewrite (IH _ _ _ Ec Hd).
    destruct (find_entry n es); [reflexivity|].
    destruct q; [now rewrite diverge_nil_r in Hd | reflexivity].
  - rewrite find_put_other; [reflexivity | now rewrite String.eqb_sym].
Qed.

(** A mutating call changes nothing at a path that parts ways with the
    path it writes. *)
Lemma effect_frame t c t' q :
  effect t c = Some t' -> diverge (written c) q = true ->
  lookup t' q = lookup t q.
Proof.
  destruct c; simpl; intros He Hd;
    repeat match type of He with
           | match ?x with _ => _ end = Some _ => destruct x; try discriminate He
           end;
    try (eapply update_frame; [exact He | assumption]);
    try (eapply mkdirs_frame; eassumption);
    try (eapply update_frame; [exact He | apply diverge_app_l; assumption]).
Qed.

(** What is alive is there. *)
Lemma alive_exists t p : alive t p = true -> exists_ t p = true.
Proof.
  unfold alive, exists_, test. now destruct (lookup t p).
Qed.

End FsFacts.

(* ------------------------------------------------------------------ *)
(** ** Facts about discovery *)

Module DiscoveryFacts.
Import FsFacts.

Lemma walk_node_dir p es :
  walk_node p (Dir es) = (p, dirnames es, filenames es) :: walk_entries p es.
Proof.
  simpl. f_equal. unfold walk_entries.
  induction es as [|[n c] r IH]; simpl; [reflexivity | now rewrite IH].
Qed.

Lemma in_filenames n c es :
  In (n, c) es -> node_isdir c = false -> In n (filenames es).
Proof.
  intros Hin Hc. unfold filenames, names.
  apply (in_map fst _ (n, c)), filter_In. simpl. now rewrite Hc.
Qed.


Lemma dirnames_in n es :
  In n (dirnames es) -> exists c, In (n, c) es /\ node_isdir c = true.
Proof.
  unfold dirnames, names. intros H. apply in_map_iff in H.
  destruct H as [[m c] [<- H]]. apply filter_In in H. destruct H as [H1 H2].
  exists c. split; [exact H1 | exact H2].
Qed.

Lemma str_in_true s l : str_in s l = true <-> In s l.
Proof.
  unfold str_in. rewrite existsb_exists. split.
  - intros [x [Hx E]]. apply String.eqb_eq in E. now subst.
  - intros H. exists s. split; [exact H | apply String.eqb_refl].
Qed.

(** A file with a good name beneath [d] is met by the walk of [d]. *)
Lemma walk_meets_file (good : string -> bool) d :
  file_beneath good d ->
  forall p, existsb (fun tr => existsb good (snd tr)) (walk_node p d) = true.
Proof.
  induction 1 as [es n c Hin [Hc Hg] | es n c Hin _ IH]; intros p;
    rewrite walk_node_dir; cbn [existsb snd].
  - apply orb_true_iff. left. apply existsb_exists. exists n.
    split; [eapply in_filenames; eassumption | exact Hg].
  - apply orb_true_iff. right. apply existsb_exists.
    specialize (IH (p ++ [n])). apply existsb_exists in IH.
    destruct IH as [tr [Htr Hgood]]. exists tr. split; [|exact Hgood].
    unfold walk_entries. apply in_flat_map. exists (n, c). split; assumption.
Qed.



Lemma find_entry_in n c es : find_entry n es = Some c -> In (n, c) es.
Proof.
  induction es as [|[m c'] r IH]; simpl; [discriminate|].
  destruct (String.eqb n m) eqn:E.
  - apply String.eqb_eq in E. intros [= ->]. subst. now left.
  - intros H. right. now apply IH.
Qed.


(** [any_isc] says that an [.isc] file lies beneath the directory. *)
Lemma any_isc_true t root d :
  lookup t root = Some d -> file_beneath is_isc d -> any_isc t root = true.
Proof.
  intros Hl Hb. unfold any_isc, walk. rewrite Hl. now apply walk_meets_file.
Qed.



Lemma beneath_is_dir P d : beneath P d -> node_isdir d = true.
Proof. now destruct 1. Qed.



(** *** The three steps of [find_sectorfile_dir] *)

Lemma find_step1 root a w :
  isdir (fs w) root = true ->
  isdir (fs w) (root ++ ["Include"]) || any_isc (fs w) root = true ->
  find_sectorfile_dir root a w = (Ok root, w).
Proof.
  intros H1 H2. unfold find_sectorfile_dir, bind, ask, ret. now rewrite H1, H2.
Qed.




(** Discovery only reads the file system; it may add log lines. *)
Lemma try_names_reads root a ns w :
  let w' := snd (try_names root a ns w) in
  fs w' = fs w /\ host w' = host w /\ trace w' = trace w /\ shown w' = shown w.
Proof.
  cbv zeta. induction ns as [|m ns IH]; simpl; [now repeat split|].
  unfold bind, ask, ret, _log.
  destruct (isdir (fs w) (root ++ [m])); [|exact IH].
  destruct (_ || _); [now repeat split|].
  destruct a; [now repeat split | exact IH].
Qed.

Lemma find_reads root a w :
  let w' := snd (find_sectorfile_dir root a w) in
  fs w' = fs w /\ host w' = host w /\ trace w' = trace w /\ shown w' = shown w.
Proof.
  cbv zeta. unfold find_sectorfile_dir, bind, ask, ret, raise.
  destruct (_ && _); [now repeat split|].
  pose proof (try_names_reads root a conventional_names w) as H.
  destruct (try_names root a conventional_names w) as [[[c|]|e] w1];
    cbv zeta in H; cbn [snd] in H |- *; try exact H.
  destruct (first_match _); exact H.
Qed.

End DiscoveryFacts.

(* ------------------------------------------------------------------ *)
(** ** Facts about the mutating calls *)

Module CallFacts.
Import FsFacts.

(** A call either succeeds, with the effect the tree gives it, or raises
    and leaves the tree alone; either way it is added to the trace. *)
Lemma sys_cases c w :
  (exists t, effect (fs w) c = Some t /\ sys c w = (Ok tt, record (c, true) t w))
  \/ sys c w = (Raise (OSError c), record (c, false) (fs w) w).
Proof.
  unfold sys. destruct (host w (trace w) c); [|now right].
  destruct (effect (fs w) c) as [t|]; [left; now exists t | now right].
Qed.

Lemma attempt_cases c w :
  (exists t, effect (fs w) c = Some t
             /\ try_except (sys c ;; ret true) (fun _ => ret false) w
                = (Ok true, record (c, true) t w))
  \/ try_except (sys c ;; ret true) (fun _ => ret false) w
     = (Ok false, record (c, false) (fs w) w).
Proof.
  unfold try_except, bind, ret.
  destruct (sys_cases c w) as [[t [Ht E]] | E]; rewrite E;
    [left; now exists t | now right].
Qed.

(** The order of the mechanisms: hard link, symbolic link, [mklink /H]; the
    first success ends the attempts. *)
Lemma link_attempts_order src dst w :
  let r := link_attempts src dst w in
  host (snd r) = host w /\
  exists attempts,
    trace (snd r) = trace w ++ attempts
    /\ ((fst r = Ok true /\ attempts = [(os_link src dst, true)])
        \/ (fst r = Ok true
            /\ attempts = [(os_link src dst, false); (os_symlink src dst, true)])
        \/ (fst r = Ok true
            /\ attempts = [(os_link src dst, false); (os_symlink src dst, false);
                           (mklink_H dst src, true)])
        \/ (fst r = Ok false
            /\ attempts = [(os_link src dst, false); (os_symlink src dst, false);
                           (mklink_H dst src, false)])).
Proof.
  cbv zeta. unfold link_attempts, bind, _try_hardlink, _try_symlink, _try_mklink_hard.
  destruct (attempt_cases (os_link src dst) w) as [[t [_ E]] | E]; rewrite E.
  { split; [reflexivity|]. eexists. split; [reflexivity | now left]. }
  set (w1 := record (os_link src dst, false) (fs w) w).
  destruct (attempt_cases (os_symlink src dst) w1) as [[t [_ E1]] | E1]; rewrite E1.
  { split; [reflexivity|]. eexists. split.
    - simpl. rewrite <- app_assoc. reflexivity.
    - right. now left. }
  set (w2 := record (os_symlink src dst, false) (fs w1) w1).
  destruct (attempt_cases (mklink_H dst src) w2) as [[t [_ E2]] | E2]; rewrite E2.
  { split; [reflexivity|]. eexists. split.
    - simpl. rewrite <- !app_assoc. reflexivity.
    - right. right. now left. }
  split; [reflexivity|]. eexists. split.
  - simpl. rewrite <- !app_assoc. reflexivity.
  - right. right. now right.
Qed.

Lemma create_file_link_unfold src dst w :
  _create_file_link src dst w = (cleanup dst ;; link_attempts src dst) w.
Proof. reflexivity. Qed.

(** The clean-up of [_create_file_link] makes at most one call, the removal
    of the destination, and never raises. *)
Lemma cleanup_cases dst w :
  fst (cleanup dst w) = Ok tt /\ host (snd (cleanup dst w)) = host w /\
  exists pre, trace (snd (cleanup dst w)) = trace w ++ pre
              /\ (pre = [] \/ exists b, pre = [(os_remove dst, b)]).
Proof.
  unfold cleanup, bind, ask, try_except, ret, _log.
  destruct (exists_ (fs w) dst).
  - destruct (sys_cases (os_remove dst) w) as [[t [_ E]] | E]; rewrite E;
      (repeat split; eexists; split; [reflexivity | right; eexists; reflexivity]).
  - repeat split. exists []. split; [now rewrite app_nil_r | now left].
Qed.

(** An attempt answers what the host and the tree answer. *)
Lemma attempt_granted c w :
  try_except (sys c ;; ret true) (fun _ => ret false) w
  = match granted w (trace w) (fs w) c with
    | Some t => (Ok true, record (c, true) t w)
    | None => (Ok false, record (c, false) (fs w) w)
    end.
Proof.
  unfold try_except, bind, ret, sys, granted.
  destruct (host w (trace w) c); [|reflexivity].
  now destruct (effect (fs w) c).
Qed.

(** The clean-up removes the destination when there is one, as far as the
    host and the tree let it. *)
Lemma cleanup_granted dst w :
  cleanup dst w
  = if exists_ (fs w) dst
    then match granted w (trace w) (fs w) (os_remove dst) with
         | Some t => (Ok tt, record (os_remove dst, true) t w)
         | None => (Ok tt, say (Warn_couldnt_remove_existing dst)
                               (record (os_remove dst, false) (fs w) w))
         end
    else (Ok tt, w).
Proof.
  unfold cleanup, bind, ask, ret, try_except, sys, granted, _log, say.
  destruct (exists_ (fs w) dst); [|reflexivity].
  destruct (host w (trace w) (os_remove dst)); [|reflexivity].
  now destruct (effect (fs w) (os_remove dst)).
Qed.

(** The three mechanisms, each answered by the host and the tree: the
    first that is granted ends the attempts and gives the new tree. *)
Lemma link_attempts_granted src dst w :
  let r := link_attempts src dst w in
  let a1 := os_link src dst in
  let a2 := os_symlink src dst in
  let a3 := mklink_H dst src in
  exists attempts,
    trace (snd r) = trace w ++ attempts
    /\ ((fst r = Ok true /\ attempts = [(a1, true)]
         /\ granted w (trace w) (fs w) a1 = Some (fs (snd r)))
        \/ (fst r = Ok true /\ attempts = [(a1, false); (a2, true)]
            /\ granted w (trace w) (fs w) a1 = None
            /\ granted w (trace w ++ [(a1, false)]) (fs w) a2
               = Some (fs (snd r)))
        \/ (fst r = Ok true
            /\ attempts = [(a1, false); (a2, false); (a3, true)]
            /\ granted w (trace w) (fs w) a1 = None
            /\ granted w (trace w ++ [(a1, false)]) (fs w) a2 = None
            /\ granted w (trace w ++ [(a1, false); (a2, false)]) (fs w) a3
               = Some (fs (snd r)))
        \/ (fst r = Ok false
            /\ attempts = [(a1, false); (a2, false); (a3, false)]
            /\ granted w (trace w) (fs w) a1 = None
            /\ granted w (trace w ++ [(a1, false)]) (fs w) a2 = None
            /\ granted w (trace w ++ [(a1, false); (a2, false)]) (fs w) a3
               = None
            /\ fs (snd r) = fs w)).
Proof.
  cbv zeta.
  unfold link_attempts, bind, _try_hardlink, _try_symlink, _try_mklink_hard.
  rewrite attempt_granted.
  destruct (granted w (trace w) (fs w) (os_link src dst)) as [t|] eqn:G1.
  { eexists. split; [reflexivity|]. left. now repeat split. }
  set (w1 := record (os_link src dst, false) (fs w) w).
  rewrite (attempt_granted (os_symlink src dst) w1).
  change (granted w1 (trace w1) (fs w1) (os_symlink src dst))
    with (granted w (trace w ++ [(os_link src dst, false)]) (fs w)
                  (os_symlink src dst)).
  destruct (granted w (trace w ++ [(os_link src dst, false)]) (fs w)
                    (os_symlink src dst)) as [t|] eqn:G2.
  { eexists. split; [cbn; rewrite <- app_assoc; reflexivity|].
    right. left. now repeat split. }
  set (w2 := record (os_symlink src dst, false) (fs w1) w1).
  rewrite (attempt_granted (mklink_H dst src) w2).
  assert (T2 : trace w2 = trace w ++ [(os_link src dst, false);
                                      (os_symlink src dst, false)])
    by (cbn; now rewrite <- app_assoc).
  assert (G : granted w2 (trace w2) (fs w2) (mklink_H dst src)
              = granted w (trace w ++ [(os_link src dst, false);
                                       (os_symlink src dst, false)]) (fs w)
                        (mklink_H dst src))
    by (now rewrite T2).
  rewrite G.
  destruct (granted w (trace w ++ [(os_link src dst, false);
                                   (os_symlink src dst, false)]) (fs w)
                    (mklink_H dst src)) as [t|] eqn:G3.
  { eexists. split; [cbn; rewrite <- !app_assoc; reflexivity|].
    right. right. left. now repeat split. }
  eexists. split; [cbn; rewrite <- !app_assoc; reflexivity|].
  right. right. right. now repeat split.
Qed.

Lemma granted_effect w tr t c t' :
  granted w tr t c = Some t' -> effect t c = Some t'.
Proof. unfold granted. now destruct (host w tr c). Qed.

End CallFacts.

(* ------------------------------------------------------------------ *)
(** ** Where the installer writes *)

Module Confinement.
Import FsFacts CallFacts.

Section Stays.
Variable P : syscall -> Prop.
Variable R : node -> node -> Prop.
Hypothesis R_refl : forall t, R t t.
Hypothesis R_trans : forall t1 t2 t3, R t1 t2 -> R t2 t3 -> R t1 t3.

Lemma stays_idle {A} (m : M A) :
  (forall w, fs (snd (m w)) = fs w /\ host (snd (m w)) = host w
             /\ trace (snd (m w)) = trace w) ->
  stays P R m.
Proof.
  intros H w. destruct (H w) as [Hf [Hh Ht]]. split; [exact Hh|]. split.
  - exists []. rewrite app_nil_r. split; [exact Ht | constructor].
  - rewrite Hf. apply R_refl.
Qed.

Lemma stays_ret {A} (a : A) : stays P R (ret a).
Proof. apply stays_idle. now intros w. Qed.

Lemma stays_raise {A} e : stays P R (@raise A e).
Proof. apply stays_idle. now intros w. Qed.

Lemma stays_ask {A} (q : node -> A) : stays P R (ask q).
Proof. apply stays_idle. now intros w. Qed.

Lemma stays_log m : stays P R (_log m).
Proof. apply stays_idle. now intros w. Qed.

Lemma stays_progress b z : stays P R (call_progress b z).
Proof. apply stays_idle. intros w. unfold call_progress. now destruct b. Qed.

Lemma stays_listdir p : stays P R (os_listdir p).
Proof.
  apply stays_idle. intros w. unfold os_listdir. now destruct (listdir (fs w) p).
Qed.

Lemma stays_bind {A B} (m : M A) (k : A -> M B) :
  stays P R m -> (forall a, stays P R (k a)) -> stays P R (bind m k).
Proof.
  intros Hm Hk w. unfold bind. specialize (Hm w).
  destruct (m w) as [[a|e] w1]; cbn [snd] in Hm |- *; [|exact Hm].
  destruct Hm as [Hh [[n1 [Ht1 Hp1]] Hr1]].
  destruct (Hk a w1) as [Hh2 [[n2 [Ht2 Hp2]] Hr2]].
  split; [congruence|]. split.
  - exists (n1 ++ n2). split.
    + now rewrite Ht2, Ht1, app_assoc.
    + apply Forall_app. now split.
  - eapply R_trans; eassumption.
Qed.

Lemma stays_try {A} (m : M A) (h : exn -> M A) :
  stays P R m -> (forall e, stays P R (h e)) -> stays P R (try_except m h).
Proof.
  intros Hm Hh w. unfold try_except. specialize (Hm w).
  destruct (m w) as [[a|e] w1]; cbn [snd] in Hm |- *; [exact Hm|].
  destruct Hm as [Hh1 [[n1 [Ht1 Hp1]] Hr1]].
  destruct (Hh e w1) as [Hh2 [[n2 [Ht2 Hp2]] Hr2]].
  split; [congruence|]. split.
  - exists (n1 ++ n2). split.
    + now rewrite Ht2, Ht1, app_assoc.
    + apply Forall_app. now split.
  - eapply R_trans; eassumption.
Qed.

Lemma stays_sys c :
  P c -> (forall t t', effect t c = Some t' -> R t t') -> stays P R (sys c).
Proof.
  intros Hc He w.
  destruct (sys_cases c w) as [[t [Ht E]] | E]; rewrite E; cbn [snd record];
    (split; [reflexivity|]); split;
    try (eexists; split; [reflexivity | now repeat constructor]).
  - simpl. eapply He. exact Ht.
  - simpl. apply R_refl.
Qed.

Lemma stays_makedirs p :
  P (os_makedirs p) -> (forall t t', effect t (os_makedirs p) = Some t' -> R t t') ->
  stays P R (makedirs_exist_ok p).
Proof.
  intros Hc He w. unfold makedirs_exist_ok.
  destruct (isdir (fs w) p); [|now apply stays_sys].
  cbn [snd record]. split; [reflexivity|]. split.
  - eexists. split; [reflexivity | now repeat constructor].
  - simpl. apply R_refl.
Qed.

Lemma stays_foldM {A B} (f : A -> B -> M B) (l : list A) :
  (forall a b, stays P R (f a b)) -> forall b, stays P R (foldM f l b).
Proof.
  intros Hf. induction l as [|a l IH]; intros b; simpl.
  - apply stays_ret.
  - apply stays_bind; [apply Hf | exact IH].
Qed.

End Stays.

(** Calls that write at or below [d] change nothing outside [d]. *)
Section Under.
Variable d : path.

Lemma same_outside_refl t : same_outside d t t.
Proof. now intros q _. Qed.

Lemma same_outside_trans t1 t2 t3 :
  same_outside d t1 t2 -> same_outside d t2 t3 -> same_outside d t1 t3.
Proof. intros H1 H2 q Hq. now rewrite (H2 q Hq), (H1 q Hq). Qed.

Lemma effect_same_outside c t t' :
  writes_under d c -> effect t c = Some t' -> same_outside d t t'.
Proof.
  intros [rest Hw] He q Hq. eapply effect_frame; [exact He|].
  rewrite Hw. now apply diverge_app_l.
Qed.

Lemma under_app rest : under d (d ++ rest).
Proof. now exists rest. Qed.

Lemma under_app2 a rest : under d ((d ++ a) ++ rest).
Proof. exists (a ++ rest). now rewrite app_assoc. Qed.

Lemma confined_ret {A} (a : A) : confined d (ret a).
Proof. apply stays_ret, same_outside_refl. Qed.

Lemma confined_raise {A} e : confined d (@raise A e).
Proof. apply stays_raise, same_outside_refl. Qed.

Lemma confined_ask {A} (q : node -> A) : confined d (ask q).
Proof. apply stays_ask, same_outside_refl. Qed.

Lemma confined_log m : confined d (_log m).
Proof. apply stays_log, same_outside_refl. Qed.

Lemma confined_progress b z : confined d (call_progress b z).
Proof. apply stays_progress, same_outside_refl. Qed.

Lemma confined_listdir p : confined d (os_listdir p).
Proof. apply stays_listdir, same_outside_refl. Qed.

Lemma confined_bind {A B} (m : M A) (k : A -> M B) :
  confined d m -> (forall a, confined d (k a)) -> confined d (bind m k).
Proof. apply stays_bind, same_outside_trans. Qed.

Lemma confined_try {A} (m : M A) (h : exn -> M A) :
  confined d m -> (forall e, confined d (h e)) -> confined d (try_except m h).
Proof. apply stays_try, same_outside_trans. Qed.

Lemma confined_foldM {A B} (f : A -> B -> M B) (l : list A) :
  (forall a b, confined d (f a b)) -> forall b, confined d (foldM f l b).
Proof. apply stays_foldM; [apply same_outside_refl | apply same_outside_trans]. Qed.

Lemma confined_sys c : writes_under d c -> confined d (sys c).
Proof.
  intros Hc. apply stays_sys; [apply same_outside_refl | exact Hc |].
  intros t t'. now apply effect_same_outside.
Qed.

Lemma confined_makedirs p : under d p -> confined d (makedirs_exist_ok p).
Proof.
  intros Hp. apply stays_makedirs; [apply same_outside_refl | exact Hp |].
  intros t t'. now apply effect_same_outside.
Qed.

Ltac confine :=
  repeat first
    [ apply confined_ret | apply confined_raise | apply confined_ask
    | apply confined_log | apply confined_progress | apply confined_listdir
    | apply confined_bind; [ | intros ? ]
    | apply confined_try; [ | intros ? ]
    | apply confined_foldM; intros ? ?
    | apply confined_sys; unfold writes_under; cbn [written]
    | apply confined_makedirs
    | apply under_app2 | apply under_app
    | match goal with
      | |- confined _ (if ?b then _ else _) => destruct b
      end ].

Lemma confined_create_file_link src name :
  confined d (_create_file_link src (d ++ [name])).
Proof.
  unfold _create_file_link, _try_hardlink, _try_symlink, _try_mklink_hard.
  confine.
Qed.

Lemma confined_link_step src_main force name count :
  confined d (link_step src_main d force name count).
Proof.
  unfold link_step. confine.
Qed.

Lemma confined_link_top_level_files_once src_main force :
  confined d (link_top_level_files_once src_main d force).
Proof.
  unfold link_top_level_files_once. confine.
Qed.

Lemma confined_junction_step src force name created :
  confined d (junction_step src (d ++ ["Include"]) force name created).
Proof. unfold junction_step, _make_dir_junction. confine. Qed.

Lemma confined_create_conew_junctions src force :
  confined d (create_conew_junctions src (d ++ ["Include"]) force).
Proof.
  unfold create_conew_junctions. confine.
Qed.

Lemma confined_execute m force progress :
  confined d (execute d m force progress).
Proof. unfold execute. confine. Qed.

End Under.

End Confinement.

(* ------------------------------------------------------------------ *)
(** ** Facts about [run] *)

Module RunFacts.
Import FsFacts DiscoveryFacts CallFacts Confinement.

Lemma try_names_fs root a ns w w' :
  fs w = fs w' ->
  fst (try_names root a ns w) = fst (try_names root a ns w').
Proof.
  intros E. induction ns as [|n ns IH]; simpl; [reflexivity|].
  unfold bind, ask, ret, _log. cbv beta iota. rewrite <- E.
  destruct (isdir (fs w) (root ++ [n])); [|exact IH].
  cbv beta iota. rewrite <- E.
  destruct (_ || _); [reflexivity|]. destruct a; [reflexivity | exact IH].
Qed.

(** The result of discovery is a function of the file system. *)
Lemma find_fs root a w w' :
  fs w = fs w' ->
  fst (find_sectorfile_dir root a w) = fst (find_sectorfile_dir root a w').
Proof.
  intros E. unfold find_sectorfile_dir, bind, ask, ret, raise. cbv beta iota.
  rewrite <- E.
  destruct (_ && _); [reflexivity|].
  pose proof (try_names_fs root a conventional_names w w' E) as H.
  pose proof (try_names_reads root a conventional_names w) as [F _].
  pose proof (try_names_reads root a conventional_names w') as [F' _].
  destruct (try_names root a conventional_names w) as [[[c|]|e] w1];
    destruct (try_names root a conventional_names w') as [[[c'|]|e'] w1'];
    cbn [fst snd] in *; try discriminate H; try congruence.
  rewrite F, F', <- E. destruct (first_match _); reflexivity.
Qed.

(** The stages of [run_body], one by one. *)
Lemma run_body_cases (aurora repo : path) (force dry_run debug progress : bool)
      (w : world) :
  let root := aurora_root_of aurora in
  let r := find_sectorfile_dir root true (say (Detecting_under root) w) in
  let w1 := snd r in
  match fst r return Prop with
  | Raise e =>
      run_body aurora repo force dry_run debug progress w = (Raise e, w1)
  | Ok sd =>
      let w2 := say (Sectorfile_root sd) w1 in
      match src_main_of (fs w) repo return Prop with
      | None =>
          run_body aurora repo force dry_run debug progress w
          = (Ok 2%Z, say (ERROR_repository_not_found repo) w2)
      | Some m =>
          if isdir (fs w) (m ++ COnew_REL) return Prop then
            let w3 := say (Target_include_dir (sd ++ ["Include"])) w2 in
            if dry_run return Prop then
              run_body aurora repo force dry_run debug progress w
              = (Ok 0%Z,
                 say (Would_link m sd)
                   (say (Would_create_junctions (sd ++ ["Include"])
                                                (m ++ COnew_REL))
                      (say DRY_RUN w3)))
            else
              run_body aurora repo force dry_run debug progress w
              = execute sd m force progress w3
          else
            run_body aurora repo force dry_run debug progress w
            = (Ok 3%Z, say (ERROR_expected_source (m ++ COnew_REL)) w2)
      end
  end.
Proof.
  cbv zeta.
  pose proof (find_reads (aurora_root_of aurora) true
                (say (Detecting_under (aurora_root_of aurora)) w)) as [F _].
  change (fs (say (Detecting_under (aurora_root_of aurora)) w)) with (fs w) in F.
  assert (U : run_body aurora repo force dry_run debug progress w
              = (sectorfile_dir <- find_sectorfile_dir (aurora_root_of aurora) true ;;
                 _log (Sectorfile_root sectorfile_dir) ;;
                 found <- ask (fun t => src_main_of t repo) ;;
                 match found with
                 | Some m =>
                     ok <- ask (fun t => isdir t (m ++ COnew_REL)) ;;
                     if negb ok
                     then _log (ERROR_expected_source (m ++ COnew_REL)) ;; ret 3%Z
                     else
                       _log (Target_include_dir (sectorfile_dir ++ ["Include"])) ;;
                       if dry_run then
                         _log DRY_RUN ;;
                         _log (Would_create_junctions
                                 (sectorfile_dir ++ ["Include"]) (m ++ COnew_REL)) ;;
                         _log (Would_link m sectorfile_dir) ;;
                         ret 0%Z
                       else execute sectorfile_dir m force progress
                 | None => _log (ERROR_repository_not_found repo) ;; ret 2%Z
                 end)
                (say (Detecting_under (aurora_root_of aurora)) w))
    by reflexivity.
  remember (run_body aurora repo force dry_run debug progress w) as rb eqn:Hrb.
  clear Hrb. unfold bind at 1 in U.
  destruct (find_sectorfile_dir _ true _) as [[sd|e] w1]; cbn [fst snd] in *;
    [|exact U].
  rewrite <- F. clear F.
  unfold bind, _log, ask, ret in U. cbv beta iota in U. cbn [fs] in U.
  destruct (src_main_of (fs w1) repo) as [m|]; [|exact U].
  cbv beta iota in U. cbn [fs] in U.
  destruct (isdir (fs w1) (m ++ COnew_REL)); [|exact U].
  cbn [negb] in U. destruct dry_run; exact U.
Qed.

(** Discovery sees the same tree after the first log line of [run]. *)
Lemma find_after_say root m w :
  fst (find_sectorfile_dir root true (say m w))
  = fst (find_sectorfile_dir root true w).
Proof. now apply find_fs. Qed.

Lemma bind_ends {A B} (m : M A) (k : A -> M B) (Q : result B -> Prop) w :
  (forall e, Q (Raise e)) -> (forall a w1, Q (fst (k a w1))) ->
  Q (fst (bind m k w)).
Proof.
  intros He Hk. unfold bind.
  destruct (m w) as [[a|e] w1]; [apply Hk | apply He].
Qed.

(** The last stage ends with the code 0 or with an exception. *)
Lemma execute_result sd m force progress w :
  fst (execute sd m force progress w) = Ok 0%Z
  \/ exists e, fst (execute sd m force progress w) = Raise e.
Proof.
  unfold execute. revert w.
  repeat (intro;
          apply (bind_ends _ _ (fun r => r = Ok 0%Z \/ exists e, r = Raise e));
          cbv beta; [intros e; right; now exists e | intros ?]).
  intro. cbv beta. now left.
Qed.

(** What [run] does and returns, stage by stage. *)
Lemma run_cases (aurora repo : path) (force dry_run debug progress : bool)
      (w : world) :
  let root := aurora_root_of aurora in
  let r := run aurora repo force dry_run debug progress w in
  (exists e, fst (find_sectorfile_dir root true w) = Raise e
             /\ fst (run_body aurora repo force dry_run debug progress w) = Raise e
             /\ fst r = 10%Z /\ fs (snd r) = fs w /\ trace (snd r) = trace w)
  \/ (exists sd, fst (find_sectorfile_dir root true w) = Ok sd
      /\ ((src_main_of (fs w) repo = None
           /\ fst (run_body aurora repo force dry_run debug progress w) = Ok 2%Z
           /\ fst r = 2%Z /\ fs (snd r) = fs w /\ trace (snd r) = trace w)
          \/ exists m, src_main_of (fs w) repo = Some m
             /\ ((isdir (fs w) (m ++ COnew_REL) = false
                  /\ fst (run_body aurora repo force dry_run debug progress w)
                     = Ok 3%Z
                  /\ fst r = 3%Z /\ fs (snd r) = fs w /\ trace (snd r) = trace w)
                 \/ (isdir (fs w) (m ++ COnew_REL) = true /\ dry_run = true
                     /\ fst (run_body aurora repo force dry_run debug progress w)
                        = Ok 0%Z
                     /\ fst r = 0%Z /\ fs (snd r) = fs w
                     /\ trace (snd r) = trace w)
                 \/ (isdir (fs w) (m ++ COnew_REL) = true /\ dry_run = false
                     /\ exists w3, fs w3 = fs w /\ trace w3 = trace w
                        /\ host w3 = host w
                        /\ run_body aurora repo force dry_run debug progress w
                           = execute sd m force progress w3)))).
Proof.
  cbv zeta.
  pose proof (run_body_cases aurora repo force dry_run debug progress w) as C.
  cbv zeta in C.
  pose proof (find_reads (aurora_root_of aurora) true
                (say (Detecting_under (aurora_root_of aurora)) w))
    as [F [H [T _]]].
  rewrite <- (find_after_say (aurora_root_of aurora)
                (Detecting_under (aurora_root_of aurora)) w).
  change (fs (say (Detecting_under (aurora_root_of aurora)) w)) with (fs w) in F.
  change (trace (say (Detecting_under (aurora_root_of aurora)) w))
    with (trace w) in T.
  change (host (say (Detecting_under (aurora_root_of aurora)) w))
    with (host w) in H.
  unfold run.
  destruct (find_sectorfile_dir _ true _) as [[sd|e] w1]; cbn [fst snd] in *.
  2: { left. exists e. rewrite C. cbn. now repeat split. }
  right. exists sd. split; [reflexivity|].
  destruct (src_main_of (fs w) repo) as [m|].
  2: { left. rewrite C. cbn. now repeat split. }
  right. exists m. split; [reflexivity|].
  destruct (isdir (fs w) (m ++ COnew_REL)).
  2: { left. rewrite C. cbn. now repeat split. }
  right. destruct dry_run.
  - left. rewrite C. cbn. now repeat split.
  - right. split; [reflexivity|]. split; [reflexivity|]. eexists.
    split; [|split; [|split; [|exact C]]]; assumption.
Qed.

Ltac run_stages aurora repo force dry_run debug progress w :=
  destruct (run_cases aurora repo force dry_run debug progress w)
    as [[e [Hf [Hb [Hc [F T]]]]] | [sd [Hf [[Hm [Hb [Hc [F T]]]] | [m [Hm [[Hi [Hb [Hc [F T]]]] | [[Hi [Hd [Hb [Hc [F T]]]]] | [Hi [Hd [w3 [F3 [T3 [H3 Hb]]]]]]]]]]]]]].

End RunFacts.

(* ------------------------------------------------------------------ *)
(** ** Facts about the two aliases *)

Module AliasFacts.
Import FsFacts CallFacts.

Lemma bind_ok {A B} (m : M A) (k : A -> M B) w a w' :
  m w = (Ok a, w') -> bind m k w = k a w'.
Proof. intros E. unfold bind. now rewrite E. Qed.

Lemma bind_raise {A B} (m : M A) (k : A -> M B) w e w' :
  m w = (Raise e, w') -> bind m k w = (Raise e, w').
Proof. intros E. unfold bind. now rewrite E. Qed.

Lemma makedirs_present p w :
  isdir (fs w) p = true ->
  makedirs_exist_ok p w = (Ok tt, record (os_makedirs p, true) (fs w) w).
Proof. intros E. unfold makedirs_exist_ok. now rewrite E. Qed.

(** A path with something below it is a directory. *)
Lemma exists_below_isdir t p n :
  exists_ t (p ++ [n]) = true -> isdir t p = true.
Proof.
  unfold exists_, isdir, test. rewrite lookup_app.
  destruct (lookup t p) as [[ | es | ]|]; simpl; try discriminate; reflexivity.
Qed.

(** Without [force], an alias that exists stops the loop with
    [FileExistsError], before any call. *)
Lemma junction_step_exists src tdir name created w :
  exists_ (fs w) (tdir ++ [name]) = true ->
  junction_step src tdir false name created w
  = (Raise (FileExistsError (tdir ++ [name])), w).
Proof.
  intros E. unfold junction_step, bind, ask, raise. cbv beta iota.
  now rewrite E.
Qed.

(** An alias that does not exist is attempted with one [mklink /J]; the
    step does not raise, and changes nothing beside the alias. *)
Lemma junction_step_absent src tdir force name created w :
  exists_ (fs w) (tdir ++ [name]) = false ->
  exists b created' w',
    junction_step src tdir force name created w = (Ok created', w')
    /\ trace w' = trace w ++ [(mklink_J (tdir ++ [name]) src, b)]
    /\ host w' = host w
    /\ forall q, diverge (tdir ++ [name]) q = true ->
                 lookup (fs w') q = lookup (fs w) q.
Proof.
  intros E. unfold junction_step, bind, ask, ret, _make_dir_junction.
  cbv beta iota. rewrite E. cbv beta iota.
  destruct (attempt_cases (mklink_J (tdir ++ [name]) src) w)
    as [[t [Ht Ea]] | Ea]; rewrite Ea; cbv beta iota; unfold _log;
    do 3 eexists; (split; [reflexivity|]); (split; [reflexivity|]);
    (split; [reflexivity|]); intros q Hq; cbn [fs record].
  - eapply effect_frame; [exact Ht | exact Hq].
  - reflexivity.
Qed.

Lemma call_progress_ok p z w :
  call_progress p z w = (Ok tt, snd (call_progress p z w))
  /\ fs (snd (call_progress p z w)) = fs w
  /\ trace (snd (call_progress p z w)) = trace w
  /\ host (snd (call_progress p z w)) = host w.
Proof. unfold call_progress. destruct p; now repeat split. Qed.

(** The directory-link step when the first alias exists. *)
Lemma create_conew_junctions_first_exists src tdir w :
  exists_ (fs w) (tdir ++ ["COnew"]) = true ->
  create_conew_junctions src tdir false w
  = (Raise (FileExistsError (tdir ++ ["COnew"])),
     record (os_makedirs tdir, true) (fs w) w).
Proof.
  intros E. unfold create_conew_junctions.
  rewrite (bind_ok _ _ _ _ _
             (makedirs_present tdir w (exists_below_isdir _ _ _ E))).
  cbn [foldM]. apply bind_raise. now apply junction_step_exists.
Qed.

(** The directory-link step when only the second alias exists. *)
Lemma create_conew_junctions_second_exists src tdir w :
  exists_ (fs w) (tdir ++ ["COnew"]) = false ->
  exists_ (fs w) (tdir ++ ["COnew_2"]) = true ->
  exists b w',
    create_conew_junctions src tdir false w
    = (Raise (FileExistsError (tdir ++ ["COnew_2"])), w')
    /\ trace w' = trace w ++ [(os_makedirs tdir, true);
                              (mklink_J (tdir ++ ["COnew"]) src, b)].
Proof.
  intros E1 E2. unfold create_conew_junctions.
  rewrite (bind_ok _ _ _ _ _
             (makedirs_present tdir w (exists_below_isdir _ _ _ E2))).
  cbn [foldM].
  set (w1 := record (os_makedirs tdir, true) (fs w) w).
  destruct (junction_step_absent src tdir false "COnew" [] w1 E1)
    as [b [created' [w2 [Ej [Ht [_ Hq]]]]]].
  rewrite (bind_ok _ _ _ _ _ Ej).
  exists b, w2. split.
  - apply bind_raise. apply junction_step_exists.
    unfold exists_, test. rewrite Hq; [exact E2|].
    apply diverge_siblings. discriminate.
  - rewrite Ht. unfold w1. cbn [trace record]. now rewrite <- app_assoc.
Qed.

End AliasFacts.

(* ------------------------------------------------------------------ *)
(** ** Folder discovery *)

Section Discovery.
Import FsFacts DiscoveryFacts PyStrFacts.

(** C3, as amended.  Whenever a file whose name ends in [.isc], in any
    letter case, lies anywhere beneath the directory [root],
    [find_sectorfile_dir] returns [root] itself, logs nothing and changes
    nothing.  ([.clr] files play no part in discovery.) *)
Theorem find_sectorfile_dir_isc_beneath
  (w : world) (root : path) (d : node) (accept_empty_named : bool) :
  lookup (fs w) root = Some d ->
  file_beneath (has_ext ".isc") d ->
  find_sectorfile_dir root accept_empty_named w = (Ok root, w).
Proof.
  intros Hl Hb. apply find_step1.
  - unfold isdir, test. rewrite Hl. eapply beneath_is_dir. exact Hb.
  - rewrite (any_isc_true _ _ _ Hl Hb). apply orb_true_r.
Qed.

(** The theorem above, at a concrete installation. *)
Lemma find_sectorfile_dir_isc_beneath_witness :
  find_sectorfile_dir ["aurora"] true (fresh isc_only willing)
  = (Ok ["aurora"], fresh isc_only willing).
Proof.
  apply (find_sectorfile_dir_isc_beneath (fresh isc_only willing) ["aurora"]
           (Dir [("data", Dir [("COLOMBIA.ISC", File "isc")])]) true).
  - reflexivity.
  - eapply beneath_below; [left; reflexivity|].
    eapply beneath_here; [left; reflexivity|]. split; reflexivity.
Defined.

(** C3, as stated, fails: a [.clr] file beneath the root is a file with a
    recognized extension, and discovery does not return the root; it
    finds nothing at all. *)
Lemma clr_file_does_not_mark_the_root :
  lookup clr_only ["aurora"]
    = Some (Dir [("data", Dir [("colours.clr", File "clr")])])
  /\ file_beneath (has_ext ".clr")
       (Dir [("data", Dir [("colours.clr", File "clr")])])
  /\ ext_to_link "colours.clr" = true
  /\ find_sectorfile_dir ["aurora"] true (fresh clr_only willing)
     = (Raise (FileNotFoundError ["aurora"]), fresh clr_only willing).
Proof.
  repeat split.
  eapply beneath_below; [left; reflexivity|].
  eapply beneath_here; [left; reflexivity|]. split; reflexivity.
Qed.






(** C9, as amended.  A file name made of a stem (not only dots) and of any
    letter-case variant of [.isc] or [.clr] is selected by
    [link_top_level_files_once]; discovery recognizes the variants of
    [.isc] only: such a file directly in [root] makes
    [find_sectorfile_dir] return [root]. *)
Theorem extension_case_insensitive (stem ext : string) :
  all_dots stem = false ->
  In (lower ext) FILES_EXTS_TO_LINK_ONCE ->
  ext_to_link (stem ++ ext) = true
  /\ (lower ext = ".isc" ->
      is_isc (stem ++ ext) = true
      /\ forall (w : world) (root : path) (es : entries) (c : node)
                (accept_empty_named : bool),
           lookup (fs w) root = Some (Dir es) ->
           In ((stem ++ ext)%string, c) es -> node_isdir c = false ->
           find_sectorfile_dir root accept_empty_named w = (Ok root, w)).
Proof.
  intros Hstem Hext. split.
  - unfold ext_to_link.
    rewrite (splitext_app stem ext (recognized_ext_shape ext Hext) Hstem).
    cbn [snd]. apply DiscoveryFacts.str_in_true. exact Hext.
  - intros Hisc.
    assert (I : is_isc (stem ++ ext) = true).
    { unfold is_isc. rewrite lower_app, Hisc. apply endswith_app. }
    split; [exact I|].
    intros w root es c a Hl Hin Hc. apply find_step1.
    + unfold isdir, test. now rewrite Hl.
    + rewrite (any_isc_true _ _ _ Hl); [apply orb_true_r|].
      eapply beneath_here; [exact Hin | now split].
Qed.

(** The theorem above, at a concrete installation. *)
Lemma extension_case_insensitive_witness :
  ext_to_link ("Colombia" ++ ".Isc") = true
  /\ (lower ".Isc" = ".isc" ->
      is_isc ("Colombia" ++ ".Isc") = true
      /\ forall (w : world) (root : path) (es : entries) (c : node)
                (accept_empty_named : bool),
           lookup (fs w) root = Some (Dir es) ->
           In (("Colombia" ++ ".Isc")%string, c) es -> node_isdir c = false ->
           find_sectorfile_dir root accept_empty_named w = (Ok root, w)).
Proof.
  apply (extension_case_insensitive "Colombia" ".Isc").
  - reflexivity.
  - simpl. left. reflexivity.
Defined.

(** C9, as stated, fails: [colours.Clr] is selected for linking, but a
    root that holds only this file is not recognized by discovery. *)
Lemma clr_variant_unknown_to_discovery :
  ext_to_link "colours.Clr" = true
  /\ is_isc "colours.Clr" = false
  /\ find_sectorfile_dir ["aurora"] true
       (fresh (Dir [("aurora", Dir [("colours.Clr", File "clr")])]) willing)
     = (Raise (FileNotFoundError ["aurora"]),
        fresh (Dir [("aurora", Dir [("colours.Clr", File "clr")])]) willing).
Proof. repeat split. Qed.

End Discovery.

(* ------------------------------------------------------------------ *)
(** ** The link primitive *)

Section LinkPrimitive.
Import FsFacts CallFacts.

(** C7.  [_create_file_link] first removes the destination: one call,
    which may fail, when the destination exists, and no call when nothing
    is there.  It then makes its attempts in the order hard link, symbolic
    link, [mklink /H].  Each attempt is answered by the host and the tree:
    the first one they grant succeeds, ends the attempts, gives the new
    tree and makes the result [True]; an attempt is made only when every
    one before it was refused.  When all three are refused the result is
    [False] and the tree is as the removal left it.  No call it makes is a
    copy. *)
Theorem create_file_link_order (src dst : path) (w : world) :
  let r := _create_file_link src dst w in
  let a1 := os_link src dst in
  let a2 := os_symlink src dst in
  let a3 := mklink_H dst src in
  exists pre attempts t0,
    trace (snd r) = trace w ++ pre ++ attempts
    /\ (pre = [] \/ exists b, pre = [(os_remove dst, b)])
    /\ (exists_ (fs w) dst = false -> pre = [])
    /\ (alive (fs w) dst = true -> exists b, pre = [(os_remove dst, b)])
    /\ ((pre = [] /\ t0 = fs w)
        \/ (pre = [(os_remove dst, true)]
            /\ granted w (trace w) (fs w) (os_remove dst) = Some t0)
        \/ (pre = [(os_remove dst, false)]
            /\ granted w (trace w) (fs w) (os_remove dst) = None
            /\ t0 = fs w))
    /\ ((fst r = Ok true /\ attempts = [(a1, true)]
         /\ granted w (trace w ++ pre) t0 a1 = Some (fs (snd r)))
        \/ (fst r = Ok true /\ attempts = [(a1, false); (a2, true)]
            /\ granted w (trace w ++ pre) t0 a1 = None
            /\ granted w ((trace w ++ pre) ++ [(a1, false)]) t0 a2
               = Some (fs (snd r)))
        \/ (fst r = Ok true
            /\ attempts = [(a1, false); (a2, false); (a3, true)]
            /\ granted w (trace w ++ pre) t0 a1 = None
            /\ granted w ((trace w ++ pre) ++ [(a1, false)]) t0 a2 = None
            /\ granted w ((trace w ++ pre) ++ [(a1, false); (a2, false)]) t0 a3
               = Some (fs (snd r)))
        \/ (fst r = Ok false
            /\ attempts = [(a1, false); (a2, false); (a3, false)]
            /\ granted w (trace w ++ pre) t0 a1 = None
            /\ granted w ((trace w ++ pre) ++ [(a1, false)]) t0 a2 = None
            /\ granted w ((trace w ++ pre) ++ [(a1, false); (a2, false)]) t0 a3
               = None
            /\ fs (snd r) = t0))
    /\ forallb (fun ev => negb (is_copy (fst ev))) (pre ++ attempts) = true.
Proof.
  cbv zeta. rewrite create_file_link_unfold.
  (* the clean-up *)
  assert (C : exists w1 pre,
             cleanup dst w = (Ok tt, w1)
             /\ host w1 = host w /\ trace w1 = trace w ++ pre
             /\ (pre = [] \/ exists b, pre = [(os_remove dst, b)])
             /\ (exists_ (fs w) dst = false -> pre = [])
             /\ (alive (fs w) dst = true -> exists b, pre = [(os_remove dst, b)])
             /\ ((pre = [] /\ fs w1 = fs w)
                 \/ (pre = [(os_remove dst, true)]
                     /\ granted w (trace w) (fs w) (os_remove dst)
                        = Some (fs w1))
                 \/ (pre = [(os_remove dst, false)]
                     /\ granted w (trace w) (fs w) (os_remove dst) = None
                     /\ fs w1 = fs w))).
  { rewrite cleanup_granted. destruct (exists_ (fs w) dst) eqn:Ex.
    - destruct (granted w (trace w) (fs w) (os_remove dst)) as [t|] eqn:Gr.
      + exists (record (os_remove dst, true) t w), [(os_remove dst, true)].
        split; [reflexivity|]. split; [reflexivity|]. split; [reflexivity|].
        split; [right; now exists true|]. split; [discriminate|].
        split; [intros _; now exists true|]. right. left. now split.
      + exists (say (Warn_couldnt_remove_existing dst)
                    (record (os_remove dst, false) (fs w) w)),
               [(os_remove dst, false)].
        split; [reflexivity|]. split; [reflexivity|]. split; [reflexivity|].
        split; [right; now exists false|]. split; [discriminate|].
        split; [intros _; now exists false|]. right. right. now repeat split.
    - exists w, []. split; [reflexivity|]. split; [reflexivity|].
      split; [now rewrite app_nil_r|]. split; [now left|].
      split; [reflexivity|]. split.
      + intros A. apply alive_exists in A. congruence.
      + left. now split. }
  destruct C as [w1 [pre [E [Hh [Ht [Hpre [Hno [Hal Hrm]]]]]]]].
  unfold bind. rewrite E.
  pose proof (link_attempts_granted src dst w1) as L. cbv zeta in L.
  destruct L as [attempts [Ha Hcases]].
  assert (G : forall tr c, granted w1 tr (fs w1) c = granted w tr (fs w1) c)
    by (intros tr c; unfold granted; now rewrite Hh).
  rewrite !G, Ht in Hcases.
  exists pre, attempts, (fs w1).
  split; [rewrite Ha, Ht; now rewrite app_assoc|].
  split; [exact Hpre|]. split; [exact Hno|]. split; [exact Hal|].
  split; [exact Hrm|]. split; [exact Hcases|].
  destruct Hpre as [-> | [b ->]];
    destruct Hcases as [[_ [-> _]] | [[_ [-> _]] | [[_ [-> _]] | [_ [-> _]]]]];
    reflexivity.
Qed.

End LinkPrimitive.

(* ------------------------------------------------------------------ *)
(** ** The run *)

Section Run.
Import FsFacts DiscoveryFacts CallFacts Confinement RunFacts.

Ltac settle :=
  repeat match goal with
         | |- _ /\ _ => split
         | |- _ <-> _ => split
         | |- _ -> _ => intro
         | H : _ /\ _ |- _ => destruct H
         | H : exists _, _ |- _ => destruct H
         | H : Some _ = Some _ |- _ => injection H as H; subst
         end;
  try discriminate; try congruence; auto;
  try (eexists; reflexivity);
  try (eexists; split; [reflexivity | assumption]).

(** C5, as amended.  [run] always returns, and its code is one of 0, 2, 3
    and 10.  It is 2 exactly when discovery succeeds and the repository main
    folder cannot be resolved; 3 exactly when discovery succeeds, the main
    folder is resolved and its [Include/COnew] is not a directory; 10 exactly
    when an exception leaves the body of [run], a failed discovery included;
    and 0 only when discovery and both checks succeed. *)
Theorem run_exit_codes (aurora repo : path)
        (force dry_run debug progress : bool) (w : world) :
  let code := fst (run aurora repo force dry_run debug progress w) in
  let found :=
    exists sd, fst (find_sectorfile_dir (aurora_root_of aurora) true w) = Ok sd in
  (code = 0 \/ code = 2 \/ code = 3 \/ code = 10)%Z
  /\ (code = 2%Z <-> found /\ src_main_of (fs w) repo = None)
  /\ (code = 3%Z <->
      found /\ exists m, src_main_of (fs w) repo = Some m
                         /\ isdir (fs w) (m ++ COnew_REL) = false)
  /\ (code = 10%Z <->
      exists e, fst (run_body aurora repo force dry_run debug progress w)
                = Raise e)
  /\ (code = 0%Z ->
      found /\ exists m, src_main_of (fs w) repo = Some m
                         /\ isdir (fs w) (m ++ COnew_REL) = true).
Proof.
  cbv zeta.
  run_stages aurora repo force dry_run debug progress w;
    try rewrite Hc; rewrite ?Hf, ?Hm, ?Hb; try solve [settle].
  unfold run. rewrite Hb.
  destruct (execute_result sd m force progress w3) as [E | [e' E]];
    destruct (execute sd m force progress w3) as [r w4];
    cbn [fst] in E; subst r; cbn [fst]; settle.
Qed.

(** C5, as stated, fails: with nothing to discover, the repository main
    folder cannot be resolved either, and the code is 10, not 2. *)
Lemma run_unresolved_repo_without_code_2 :
  src_main_of (Dir []) ["repo"] = None
  /\ fst (run ["aurora"] ["repo"] false false false true (fresh (Dir []) willing))
     = 10%Z.
Proof. split; reflexivity. Qed.

(** C8, as amended.  A dry run makes no mutating call and leaves the file
    system as it is, whatever [force] is; it returns 0 exactly when
    discovery succeeds, the repository main folder is resolved and its
    [Include/COnew] is a directory. *)
Theorem run_dry_run (aurora repo : path) (force debug progress : bool)
        (w : world) :
  let r := run aurora repo force true debug progress w in
  fs (snd r) = fs w
  /\ trace (snd r) = trace w
  /\ (fst r = 0%Z <->
      (exists sd, fst (find_sectorfile_dir (aurora_root_of aurora) true w) = Ok sd)
      /\ exists m, src_main_of (fs w) repo = Some m
                   /\ isdir (fs w) (m ++ COnew_REL) = true).
Proof.
  cbv zeta.
  run_stages aurora repo force true debug progress w; try discriminate Hd;
    (split; [exact F|]); (split; [exact T|]); rewrite Hc, Hf; split;
    try discriminate.
  - intros [[sd Hs] _]. discriminate.
  - intros [_ [m [Hs _]]]. congruence.
  - intros [_ [m' [Hs Hi']]]. congruence.
  - intros _. split; [now exists sd | now exists m].
  - reflexivity.
Qed.

(** C8, as stated, fails: a dry run against a repository without a main
    folder returns 2. *)
Lemma dry_run_without_repository :
  fst (run ["aurora"] ["elsewhere"] true true false true
         (fresh installed_empty willing)) = 2%Z.
Proof. reflexivity. Qed.



End Run.

(* ------------------------------------------------------------------ *)
(** ** The linking policy *)

Section Policy.
Import FsFacts DiscoveryFacts CallFacts Confinement RunFacts AliasFacts.

(** C1, as amended.  Let discovery and both structural checks succeed, and
    let the run be neither forced nor dry.  If the alias [COnew] exists (a
    file, a directory, or a link whose target exists: a dangling link is
    not counted as existing), [create_conew_junctions] raises
    [FileExistsError] for it before any junction is attempted; if there is
    nothing at [COnew] and [COnew_2] exists, [COnew] is attempted first and
    the error is raised for [COnew_2].  Either way the error leaves [run]'s
    body: it is logged as unhandled, no call of the file-linking pass is
    made and the code is 10. *)
Theorem run_alias_exists (w : world) (aurora repo : path)
        (debug progress : bool) (sd0 m0 : path) :
  fst (find_sectorfile_dir (aurora_root_of aurora) true w) = Ok sd0 ->
  src_main_of (fs w) repo = Some m0 ->
  isdir (fs w) (m0 ++ COnew_REL) = true ->
  let tinc := sd0 ++ ["Include"] in
  let r := run aurora repo false false debug progress w in
  (alive (fs w) (tinc ++ ["COnew"]) = true ->
   fst r = 10%Z
   /\ trace (snd r)
      = trace w ++ [(os_makedirs tinc, true); (os_makedirs tinc, true)]
   /\ last (logged (snd r)) Done
      = Unhandled_error (FileExistsError (tinc ++ ["COnew"])))
  /\ (exists_ (fs w) (tinc ++ ["COnew"]) = false ->
      alive (fs w) (tinc ++ ["COnew_2"]) = true ->
      fst r = 10%Z
      /\ (exists b,
             trace (snd r)
             = trace w ++ [(os_makedirs tinc, true); (os_makedirs tinc, true);
                           (mklink_J (tinc ++ ["COnew"]) (m0 ++ COnew_REL), b)])
      /\ last (logged (snd r)) Done
         = Unhandled_error (FileExistsError (tinc ++ ["COnew_2"]))).
Proof.
  intros Hfind Hmain Hconew. cbv zeta.
  run_stages aurora repo false false debug progress w;
    try congruence.
  assert (sd0 = sd) by congruence. assert (m0 = m) by congruence. subst sd0 m0.
  unfold run. rewrite Hb. unfold execute. rewrite <- F3, <- T3.
  set (tinc := sd ++ ["Include"]).
  assert (S1 : forall n, exists_ (fs w3) (tinc ++ [n]) = true ->
                makedirs_exist_ok tinc w3
                = (Ok tt, record (os_makedirs tinc, true) (fs w3) w3)).
  { intros n E. apply makedirs_present. eapply exists_below_isdir. exact E. }
  set (w4 := record (os_makedirs tinc, true) (fs w3) w3) in *.
  destruct (call_progress_ok progress (-1) w4) as [Ep [Fp [Tp _]]].
  set (w5 := snd (call_progress progress (-1) w4)) in *.
  split.
  - intros A1. pose proof (alive_exists _ _ A1) as E1.
    rewrite (bind_ok _ _ _ _ _ (S1 _ E1)), (bind_ok _ _ _ _ _ Ep).
    assert (E5 : exists_ (fs w5) (tinc ++ ["COnew"]) = true)
      by (now rewrite Fp).
    rewrite (bind_raise _ _ _ _ _
               (create_conew_junctions_first_exists (m ++ COnew_REL) tinc w5 E5)).
    cbn [fst snd _log logged trace record]. rewrite Tp.
    split; [reflexivity|]. split.
    + unfold w4. cbn [trace record]. now rewrite <- app_assoc.
    + apply last_last.
  - intros E1 A2. pose proof (alive_exists _ _ A2) as E2.
    rewrite (bind_ok _ _ _ _ _ (S1 _ E2)), (bind_ok _ _ _ _ _ Ep).
    assert (E5 : exists_ (fs w5) (tinc ++ ["COnew"]) = false)
      by (now rewrite Fp).
    assert (E6 : exists_ (fs w5) (tinc ++ ["COnew_2"]) = true)
      by (now rewrite Fp).
    destruct (create_conew_junctions_second_exists (m ++ COnew_REL) tinc w5 E5 E6)
      as [b [w6 [Ec Ht]]].
    rewrite (bind_raise _ _ _ _ _ Ec).
    cbn [fst snd _log logged trace]. split; [reflexivity|]. split.
    + exists b. rewrite Ht, Tp. unfold w4. cbn [trace record].
      now rewrite <- app_assoc.
    + apply last_last.
Qed.

(** The theorem above, at a concrete installation. *)
Lemma run_alias_exists_witness :
  let w := fresh second_alias_present willing in
  let tinc := ["aurora"; "SectorFiles"] ++ ["Include"] in
  let r := run ["aurora"] ["repo"] false false false true w in
  (alive (fs w) (tinc ++ ["COnew"]) = true ->
   fst r = 10%Z
   /\ trace (snd r)
      = trace w ++ [(os_makedirs tinc, true); (os_makedirs tinc, true)]
   /\ last (logged (snd r)) Done
      = Unhandled_error (FileExistsError (tinc ++ ["COnew"])))
  /\ (exists_ (fs w) (tinc ++ ["COnew"]) = false ->
      alive (fs w) (tinc ++ ["COnew_2"]) = true ->
      fst r = 10%Z
      /\ (exists b,
             trace (snd r)
             = trace w ++ [(os_makedirs tinc, true); (os_makedirs tinc, true);
                           (mklink_J (tinc ++ ["COnew"])
                                     (["repo"; "SectorFile-MAIN"] ++ COnew_REL), b)])
      /\ last (logged (snd r)) Done
         = Unhandled_error (FileExistsError (tinc ++ ["COnew_2"]))).
Proof.
  apply (run_alias_exists (fresh second_alias_present willing)
           ["aurora"] ["repo"] false true
           ["aurora"; "SectorFiles"] ["repo"; "SectorFile-MAIN"]);
    reflexivity.
Defined.

(** C1, as stated, fails: with the alias [COnew] in place and no [force],
    the error is not caught in the directory-link step; the other alias is
    not attempted, no file is linked, and the code is 10. *)
Lemma existing_alias_stops_the_run :
  let w := fresh first_alias_present willing in
  let r := run ["aurora"] ["repo"] false false false true w in
  exists_ (fs w) ["aurora"; "SectorFiles"; "Include"; "COnew"] = true
  /\ fst r = 10%Z
  /\ trace (snd r)
     = [(os_makedirs ["aurora"; "SectorFiles"; "Include"], true);
        (os_makedirs ["aurora"; "SectorFiles"; "Include"], true)]
  /\ existsb (fun ev => file_link_call (fst ev)) (trace (snd r)) = false
  /\ fs (snd r) = fs w.
Proof. repeat split. Qed.

(** C2, as amended.  A file of the source main folder with a recognized
    extension whose destination does not exist, or is to be overwritten, is
    counted: [link_step] returns the count plus one and never raises,
    whatever the host lets through -- also when the three link mechanisms and
    the fallback copy all fail. *)
Theorem link_step_counts (w : world) (src_main sectorfile_dir : path)
        (force : bool) (name : string) (count : nat) :
  isfile (fs w) (src_main ++ [name]) = true ->
  ext_to_link name = true ->
  exists_ (fs w) (sectorfile_dir ++ [name]) = false \/ force = true ->
  fst (link_step src_main sectorfile_dir force name count w) = Ok (count + 1).
Proof.
  intros Hfile Hext Hdst.
  assert (A : forall w0,
             fst ((ok <- _create_file_link (src_main ++ [name])
                                           (sectorfile_dir ++ [name]) ;;
                   (if negb ok
                    then try_except
                           (sys (shutil_copy2 (src_main ++ [name])
                                              (sectorfile_dir ++ [name])) ;;
                            _log (Copied_fallback (sectorfile_dir ++ [name])))
                           (fun e => _log (ERROR_copying
                                             (src_main ++ [name])
                                             (sectorfile_dir ++ [name]) e))
                    else ret tt) ;;
                   ret (count + 1)) w0) = Ok (count + 1)).
  { intros w0. unfold bind at 1.
    pose proof (create_file_link_unfold (src_main ++ [name])
                  (sectorfile_dir ++ [name]) w0) as U.
    pose proof (cleanup_cases (sectorfile_dir ++ [name]) w0) as [C _].
    unfold bind in U. destruct (cleanup _ w0) as [r1 w1]. cbn [fst] in C.
    subst r1.
    destruct (link_attempts_order (src_main ++ [name])
                (sectorfile_dir ++ [name]) w1)
      as [_ [att [_ L]]].
    rewrite U. destruct (link_attempts _ _ w1) as [r2 w2]. cbn [fst] in L.
    assert (B : exists ok, r2 = Ok ok).
    { destruct L as [[-> _] | [[-> _] | [[-> _] | [-> _]]]]; eexists; reflexivity. }
    destruct B as [ok ->]. destruct ok; cbn [negb].
    - reflexivity.
    - unfold bind, try_except, ret, _log.
      destruct (sys_cases (shutil_copy2 (src_main ++ [name])
                             (sectorfile_dir ++ [name])) w2)
        as [[t [_ E]] | E]; rewrite E; reflexivity. }
  unfold link_step. unfold bind at 1. unfold ask at 1. rewrite Hfile.
  cbn [negb]. rewrite Hext. unfold bind at 1. unfold ask at 1.
  destruct (exists_ (fs w) (sectorfile_dir ++ [name])) eqn:Ex.
  - destruct Hdst as [Hdst | ->]; [discriminate|].
    unfold bind at 1. unfold try_except.
    destruct (sys (os_remove (sectorfile_dir ++ [name])) w) as [[[]|e] w1];
      [apply A|].
    unfold _log at 1. apply A.
  - apply A.
Qed.

(** The theorem above, at a concrete installation. *)
Lemma link_step_counts_witness :
  fst (link_step ["repo"; "SectorFile-MAIN"] ["aurora"; "SectorFiles"] false
         "colombia.isc" 0 (fresh installed_empty unwilling)) = Ok (0 + 1).
Proof.
  apply (link_step_counts (fresh installed_empty unwilling)
           ["repo"; "SectorFile-MAIN"] ["aurora"; "SectorFiles"] false
           "colombia.isc" 0).
  - reflexivity.
  - reflexivity.
  - left. reflexivity.
Defined.

(** C2, as stated, fails: on a host that refuses every call, the three link
    mechanisms and the fallback copy fail for both files, and both are
    counted. *)
Lemma failed_copies_are_counted :
  let r := link_top_level_files_once ["repo"; "SectorFile-MAIN"]
             ["aurora"; "SectorFiles"] false (fresh installed_empty unwilling) in
  fst r = Ok 2
  /\ trace (snd r)
     = [(os_link ["repo"; "SectorFile-MAIN"; "colombia.isc"]
                 ["aurora"; "SectorFiles"; "colombia.isc"], false);
        (os_symlink ["repo"; "SectorFile-MAIN"; "colombia.isc"]
                    ["aurora"; "SectorFiles"; "colombia.isc"], false);
        (mklink_H ["aurora"; "SectorFiles"; "colombia.isc"]
                  ["repo"; "SectorFile-MAIN"; "colombia.isc"], false);
        (shutil_copy2 ["repo"; "SectorFile-MAIN"; "colombia.isc"]
                      ["aurora"; "SectorFiles"; "colombia.isc"], false);
        (os_link ["repo"; "SectorFile-MAIN"; "Colours.CLR"]
                 ["aurora"; "SectorFiles"; "Colours.CLR"], false);
        (os_symlink ["repo"; "SectorFile-MAIN"; "Colours.CLR"]
                    ["aurora"; "SectorFiles"; "Colours.CLR"], false);
        (mklink_H ["aurora"; "SectorFiles"; "Colours.CLR"]
                  ["repo"; "SectorFile-MAIN"; "Colours.CLR"], false);
        (shutil_copy2 ["repo"; "SectorFile-MAIN"; "Colours.CLR"]
                      ["aurora"; "SectorFiles"; "Colours.CLR"], false)]
  /\ fs (snd r) = installed_empty.
Proof. repeat split. Qed.


End Policy.

(* ------------------------------------------------------------------ *)
(** ** More about discovery *)

Module DiscoveryMore.
Import FsFacts DiscoveryFacts.

Lemma distinct_find n c es :
  distinct (names es) = true -> In (n, c) es -> find_entry n es = Some c.
Proof.
  induction es as [|[m c'] r IH]; simpl; intros Hd Hin; [contradiction|].
  apply andb_true_iff in Hd. destruct Hd as [Hm Hr].
  destruct Hin as [[= -> ->] | Hin].
  - now rewrite String.eqb_refl.
  - destruct (String.eqb n m) eqn:E; [|now apply IH].
    apply String.eqb_eq in E. subst m. exfalso.
    apply negb_true_iff in Hm.
    assert (str_in n (names r) = true) as K.
    { apply str_in_true. unfold names. now apply (in_map fst _ (n, c)). }
    congruence.
Qed.

Lemma well_formed_dir es :
  well_formed (Dir es) = true ->
  distinct (names es) = true
  /\ forall n c, In (n, c) es -> well_formed c = true.
Proof.
  simpl. intros H. apply andb_true_iff in H. destruct H as [Hd Hall].
  split; [exact Hd|]. clear Hd.
  induction es as [|[m c'] r IH]; intros n c Hin; [contradiction|].
  apply andb_true_iff in Hall. destruct Hall as [Hc Hr].
  destruct Hin as [[= <- <-] | Hin]; [exact Hc | now apply (IH Hr n c)].
Qed.

Lemma well_formed_lookup p : forall t d,
  well_formed t = true -> lookup t p = Some d -> well_formed d = true.
Proof.
  induction p as [|n p IH]; intros t d Hw Hl; simpl in Hl.
  - now injection Hl as <-.
  - destruct t as [ | es | ]; try discriminate.
    destruct (find_entry n es) as [c|] eqn:E; [|discriminate].
    apply (IH c d); [|exact Hl].
    apply (proj2 (well_formed_dir es Hw) n c). now apply find_entry_in.
Qed.

(** In a well-formed tree every triple of the walk describes the directory
    that its path names. *)
Lemma walk_describes t :
  well_formed t = true ->
  forall p dp dn fn,
    In (dp, dn, fn) (walk_node p t) ->
    exists rest es,
      dp = p ++ rest /\ lookup t rest = Some (Dir es)
      /\ dn = dirnames es /\ fn = filenames es.
Proof.
  induction t as [ | | es IH] using node_rect'; intros Hw p dp dn fn Hin;
    try contradiction.
  rewrite walk_node_dir in Hin. destruct Hin as [[= <- <- <-] | Hin].
  - exists [], es. rewrite app_nil_r. now repeat split.
  - unfold walk_entries in Hin. apply in_flat_map in Hin.
    destruct Hin as [[n c] [Hnc Hin]]. cbn [fst snd] in Hin.
    destruct (well_formed_dir es Hw) as [Hd Hall].
    rewrite Forall_forall in IH.
    destruct (IH (n, c) Hnc (Hall n c Hnc) _ _ _ _ Hin)
      as [rest [es' [-> [Hl [-> ->]]]]].
    exists (n :: rest), es'. repeat split.
    + now rewrite <- app_assoc.
    + simpl. now rewrite (distinct_find n c es Hd Hnc).
Qed.

Lemma first_match_some ws d :
  first_match ws = Some d ->
  exists dn fn, In (d, dn, fn) ws /\ remarkable (d, dn, fn) = true.
Proof.
  induction ws as [|[[dp dn] fn] r IH]; simpl; [discriminate|].
  unfold remarkable. cbn [fst snd].
  destruct (str_in "Include" dn) eqn:E1.
  - intros [= <-]. exists dn, fn. split; [now left | now rewrite E1].
  - destruct (existsb is_isc fn) eqn:E2.
    + intros [= <-]. exists dn, fn. split; [now left | now rewrite E1, E2].
    + intros H. destruct (IH H) as [dn' [fn' [Hin Hr]]].
      exists dn', fn'. split; [now right | exact Hr].
Qed.









(** What the loop over the names returns, and what it logs. *)
Lemma try_names_result root a w ns :
  match fst (try_names root a ns w) with
  | Raise _ => False
  | Ok None =>
      snd (try_names root a ns w) = w
      /\ forall m, In m ns ->
           isdir (fs w) (root ++ [m]) = false
           \/ (a = false /\ looks_like_sectorfile (fs w) (root ++ [m]) = false)
  | Ok (Some cand) =>
      exists n, In n ns /\ cand = root ++ [n]
                /\ isdir (fs w) cand = true
                /\ ((looks_like_sectorfile (fs w) cand = true
                     /\ snd (try_names root a ns w) = w)
                    \/ (looks_like_sectorfile (fs w) cand = false /\ a = true
                        /\ snd (try_names root a ns w)
                           = say (Accepting_folder_by_name cand) w))
  end.
Proof.
  induction ns as [|m ns IH]; simpl.
  - split; [reflexivity | intros m []].
  - unfold bind, ask, ret, _log. cbv beta iota.
    destruct (isdir (fs w) (root ++ [m])) eqn:Ed.
    + fold (looks_like_sectorfile (fs w) (root ++ [m])).
      destruct (looks_like_sectorfile (fs w) (root ++ [m])) eqn:El.
      * cbn [fst snd]. exists m. repeat split; auto.
      * destruct a.
        -- cbn [fst snd]. exists m. repeat split; auto.
        -- destruct (fst (try_names root false ns w)) as [[cand|]|e] eqn:Er;
             [ | | exact IH].
           ++ destruct IH as [n [Hn K]]. exists n. split; [now right | exact K].
           ++ destruct IH as [Hw K]. split; [exact Hw|].
              intros m' [<- | Hm']; [right; now split | now apply K].
    + destruct (fst (try_names root a ns w)) as [[cand|]|e] eqn:Er;
        [ | | exact IH].
      * destruct IH as [n [Hn K]]. exists n. split; [now right | exact K].
      * destruct IH as [Hw K]. split; [exact Hw|].
        intros m' [<- | Hm']; [now left | now apply K].
Qed.

(** The outcomes of discovery, with the step that produced each. *)
Lemma find_outcome root a w :
  let r := find_sectorfile_dir root a w in
  match fst r with
  | Ok sd =>
      (sd = root /\ isdir (fs w) root = true
       /\ looks_like_sectorfile (fs w) root = true /\ snd r = w)
      \/ (exists n, In n conventional_names /\ sd = root ++ [n]
                    /\ isdir (fs w) sd = true
                    /\ ((looks_like_sectorfile (fs w) sd = true /\ snd r = w)
                        \/ (looks_like_sectorfile (fs w) sd = false /\ a = true
                            /\ snd r = say (Accepting_folder_by_name sd) w)))
      \/ (snd r = w
          /\ exists dn fn, In (sd, dn, fn) (walk (fs w) root)
                           /\ remarkable (sd, dn, fn) = true)
  | Raise e =>
      e = FileNotFoundError root /\ snd r = w
      /\ isdir (fs w) root && looks_like_sectorfile (fs w) root = false
      /\ (forall m, In m conventional_names ->
            isdir (fs w) (root ++ [m]) = false
            \/ (a = false
                /\ looks_like_sectorfile (fs w) (root ++ [m]) = false))
      /\ first_match (walk (fs w) root) = None
  end.
Proof.
  cbv zeta. unfold find_sectorfile_dir, bind, ask, ret, raise. cbv beta iota.
  fold (looks_like_sectorfile (fs w) root).
  destruct (isdir (fs w) root && looks_like_sectorfile (fs w) root) eqn:E1.
  { cbn [fst snd]. left. apply andb_true_iff in E1. now repeat split. }
  pose proof (try_names_result root a w conventional_names) as T.
  destruct (try_names root a conventional_names w) as [[[cand|]|e] w1];
    cbn [fst snd] in T |- *; [ | | contradiction].
  - right. left. exact T.
  - destruct T as [-> T].
    destruct (first_match (walk (fs w) root)) as [d|] eqn:E3; cbn [fst snd].
    + right. right. split; [reflexivity|]. now apply first_match_some.
    + now repeat split.
Qed.

End DiscoveryMore.

(* ------------------------------------------------------------------ *)
(** ** More about the file system *)

Module FsMore.
Import FsFacts.

Lemma update_lookup_same p : forall t v t',
  update t p (Some v) = Some t' -> lookup t' p = Some v.
Proof.
  induction p as [|n rest IH]; intros t v t' Hu; [discriminate|].
  destruct t as [ | es | ]; try (destruct rest; discriminate Hu).
  destruct rest as [|n' rest'].
  - rewrite update_last in Hu. injection Hu as <-. simpl.
    now rewrite find_put_same.
  - rewrite update_deep in Hu.
    destruct (find_entry n es) as [c|]; [|discriminate].
    destruct (update c (n' :: rest') (Some v)) as [c'|] eqn:Ec; [|discriminate].
    injection Hu as <-.
    change (lookup (Dir (put_entry n c' es)) (n :: n' :: rest'))
      with (match find_entry n (put_entry n c' es) with
            | Some c0 => lookup c0 (n' :: rest')
            | None => None
            end).
    rewrite find_put_same. eapply IH. exact Ec.
Qed.

Lemma keeps_refl t : keeps t t.
Proof.
  intros q n H. destruct n; [exact H | eexists; exact H | exact H].
Qed.

Lemma keeps_trans t1 t2 t3 : keeps t1 t2 -> keeps t2 t3 -> keeps t1 t3.
Proof.
  intros H1 H2 q n Hq. specialize (H1 q n Hq). destruct n.
  - apply (H2 q _ H1).
  - destruct H1 as [es' H1]. apply (H2 q _ H1).
  - apply (H2 q _ H1).
Qed.

Lemma keeps_dir_entries es es' :
  (forall b c, find_entry b es = Some c ->
               exists c', find_entry b es' = Some c' /\ keeps c c') ->
  keeps (Dir es) (Dir es').
Proof.
  intros H [|b q] n Hq.
  - injection Hq as <-. now exists es'.
  - simpl in Hq |- *. destruct (find_entry b es) as [c|] eqn:E; [|discriminate].
    destruct (H b c E) as [c' [-> K]]. now apply K.
Qed.

(** Writing where nothing was keeps everything. *)
Lemma update_creates_keeps p : forall t v t',
  lookup t p = None -> update t p (Some v) = Some t' -> keeps t t'.
Proof.
  induction p as [|n rest IH]; intros t v t' Hn Hu; [discriminate|].
  destruct t as [ | es | ]; try (destruct rest; discriminate Hu).
  destruct rest as [|n' rest'].
  - rewrite update_last in Hu. injection Hu as <-.
    apply keeps_dir_entries. intros b c Hb. exists c. split; [|exact (keeps_refl _)].
    rewrite find_put_other; [exact Hb|].
    destruct (String.eqb b n) eqn:E; [|reflexivity].
    apply String.eqb_eq in E. subst b. simpl in Hn. now rewrite Hb in Hn.
  - rewrite update_deep in Hu.
    destruct (find_entry n es) as [c|] eqn:Ec; [|discriminate].
    destruct (update c (n' :: rest') (Some v)) as [c'|] eqn:Eu; [|discriminate].
    injection Hu as <-.
    assert (Hc : lookup c (n' :: rest') = None).
    { change (lookup (Dir es) (n :: n' :: rest'))
        with (match find_entry n es with
              | Some c0 => lookup c0 (n' :: rest')
              | None => None
              end) in Hn.
      now rewrite Ec in Hn. }
    apply keeps_dir_entries. intros b c0 Hb.
    destruct (String.eqb b n) eqn:E.
    + apply String.eqb_eq in E. subst b. rewrite Ec in Hb. injection Hb as <-.
      exists c'. split; [apply find_put_same | eapply IH; eassumption].
    + exists c0. split; [|exact (keeps_refl _)]. now rewrite find_put_other.
Qed.

Lemma mkdirs_keeps p : forall t t', mkdirs t p = Some t' -> keeps t t'.
Proof.
  induction p as [|n rest IH]; intros t t' Hm.
  - simpl in Hm. destruct t; try discriminate. injection Hm as <-.
    exact (keeps_refl _).
  - destruct t as [ | es | ]; try discriminate Hm. cbn [mkdirs] in Hm.
    destruct (mkdirs _ rest) as [c'|] eqn:Ec; [|discriminate].
    injection Hm as <-. apply keeps_dir_entries. intros b c0 Hb.
    destruct (String.eqb b n) eqn:E.
    + apply String.eqb_eq in E. subst b. rewrite Hb in Ec.
      exists c'. split; [apply find_put_same | eapply IH; exact Ec].
    + exists c0. split; [|exact (keeps_refl _)]. now rewrite find_put_other.
Qed.

(** The calls that are not destructive keep everything. *)
Lemma effect_keeps t c t' :
  destructive c = false -> effect t c = Some t' -> keeps t t'.
Proof.
  destruct c; simpl; try discriminate; intros _ He.
  - destruct (lookup t src) as [[d| |k tg]|]; try discriminate;
      destruct (lookup t dst) eqn:Ed; try discriminate;
      eapply update_creates_keeps; eassumption.
  - destruct (lookup t dst) eqn:Ed; try discriminate.
    eapply update_creates_keeps; eassumption.
  - destruct (lookup t src) as [[d| |k tg]|]; try discriminate;
      destruct (lookup t dst) eqn:Ed; try discriminate;
      eapply update_creates_keeps; eassumption.
  - destruct (lookup t link) eqn:Ed; try discriminate.
    eapply update_creates_keeps; eassumption.
  - eapply mkdirs_keeps; eassumption.
Qed.

(** A copy to a free destination keeps everything too. *)
Lemma copy_to_free_keeps t src dst t' :
  lookup t dst = None ->
  effect t (shutil_copy2 src dst) = Some t' ->
  keeps t t' /\ lookup t' dst = lookup t src.
Proof.
  simpl. intros Hd He. rewrite Hd in He.
  destruct (lookup t src) as [[d| |k tg]|]; try discriminate.
  split; [eapply update_creates_keeps; eassumption|].
  eapply update_lookup_same; eassumption.
Qed.

(** What a successful link attempt leaves at the destination. *)
Lemma link_effect t c src dst t' :
  In c [os_link src dst; os_symlink src dst; mklink_H dst src] ->
  effect t c = Some t' ->
  lookup t dst = None
  /\ (lookup t' dst = lookup t src
      \/ exists k, lookup t' dst = Some (Link k src)).
Proof.
  intros [<- | [<- | [<- | []]]]; simpl; intros He.
  - destruct (lookup t src) as [[d| |k tg]|]; try discriminate;
      destruct (lookup t dst) eqn:Ed; try discriminate;
      (split; [reflexivity|]); left; eapply update_lookup_same; eassumption.
  - destruct (lookup t dst) eqn:Ed; try discriminate.
    split; [reflexivity|]. right. eexists.
    eapply update_lookup_same; eassumption.
  - destruct (lookup t src) as [[d| |k tg]|]; try discriminate;
      destruct (lookup t dst) eqn:Ed; try discriminate;
      (split; [reflexivity|]); left; eapply update_lookup_same; eassumption.
Qed.

End FsMore.

(* ------------------------------------------------------------------ *)
(** ** More about the link primitive *)

Module CallMore.
Import FsFacts FsMore CallFacts.

(** An entry can be written in any directory. *)
Lemma update_in_dir p : forall t es n v,
  lookup t p = Some (Dir es) ->
  exists t', update t (p ++ [n]) (Some v) = Some t'.
Proof.
  induction p as [|m p IH]; intros t es n v Hl.
  - simpl in Hl. injection Hl as ->. eexists. reflexivity.
  - simpl in Hl. destruct t as [ | es0 | ]; try discriminate.
    destruct (find_entry m es0) as [c|] eqn:E; [|discriminate].
    destruct (IH c es n v Hl) as [c' Hc'].
    exists (Dir (put_entry m c' es0)).
    destruct (p ++ [n]) as [|x r] eqn:Ep; [now destruct p|].
    change ((m :: p) ++ [n]) with (m :: (p ++ [n])). rewrite Ep.
    rewrite update_deep, E, Hc'. reflexivity.
Qed.

(** What the three mechanisms do to the file system: the effect of the one
    that succeeded, or nothing. *)
Lemma link_attempts_effect src dst w :
  let r := link_attempts src dst w in
  host (snd r) = host w /\ shown (snd r) = shown w
  /\ ((fst r = Ok true
       /\ exists c, In c [os_link src dst; os_symlink src dst; mklink_H dst src]
                    /\ effect (fs w) c = Some (fs (snd r)))
      \/ (fst r = Ok false /\ fs (snd r) = fs w)).
Proof.
  cbv zeta.
  unfold link_attempts, bind, _try_hardlink, _try_symlink, _try_mklink_hard.
  destruct (attempt_cases (os_link src dst) w) as [[t [Ht E]] | E]; rewrite E.
  { repeat split. left. split; [reflexivity|].
    exists (os_link src dst). split; [now left | exact Ht]. }
  set (w1 := record (os_link src dst, false) (fs w) w).
  destruct (attempt_cases (os_symlink src dst) w1) as [[t [Ht E1]] | E1];
    rewrite E1.
  { repeat split. left. split; [reflexivity|].
    exists (os_symlink src dst). split; [right; now left | exact Ht]. }
  set (w2 := record (os_symlink src dst, false) (fs w1) w1).
  destruct (attempt_cases (mklink_H dst src) w2) as [[t [Ht E2]] | E2];
    rewrite E2.
  { repeat split. left. split; [reflexivity|].
    exists (mklink_H dst src). split; [right; right; now left | exact Ht]. }
  repeat split. now right.
Qed.

(** With a free destination the clean-up does nothing. *)
Lemma cleanup_free dst w :
  exists_ (fs w) dst = false -> cleanup dst w = (Ok tt, w).
Proof. intros E. unfold cleanup, bind, ask, ret. now rewrite E. Qed.

Lemma create_file_link_free src dst w :
  exists_ (fs w) dst = false ->
  _create_file_link src dst w = link_attempts src dst w.
Proof.
  intros E. rewrite create_file_link_unfold. unfold bind.
  now rewrite (cleanup_free dst w E).
Qed.

(** On a host that lets the hard link through, a file of the source is hard
    linked into a directory where its name is free. *)
Lemma link_attempts_hardlink src d name w es :
  host w (trace w) (os_link src (d ++ [name])) = true ->
  isfile (fs w) src = true ->
  lookup (fs w) d = Some (Dir es) ->
  exists_ (fs w) (d ++ [name]) = false ->
  exists t,
    effect (fs w) (os_link src (d ++ [name])) = Some t
    /\ lookup t (d ++ [name]) = lookup (fs w) src
    /\ link_attempts src (d ++ [name]) w
       = (Ok true,
          say (Hard_link (d ++ [name]) src)
              (record (os_link src (d ++ [name]), true) t w)).
Proof.
  intros Hh Hf Hd Hx.
  assert (Hn : lookup (fs w) (d ++ [name]) = None).
  { unfold exists_, test in Hx. now destruct (lookup (fs w) (d ++ [name])). }
  unfold isfile, test in Hf.
  destruct (lookup (fs w) src) as [nsrc|] eqn:Es; [|discriminate].
  destruct (update_in_dir d (fs w) es name nsrc Hd) as [t Ht].
  assert (He : effect (fs w) (os_link src (d ++ [name])) = Some t).
  { simpl. rewrite Es, Hn. destruct nsrc as [dat| |[] tg]; try discriminate;
      exact Ht. }
  exists t. split; [exact He|]. split.
  - eapply update_lookup_same. exact Ht.
  - unfold link_attempts, _try_hardlink, try_except, bind, sys, ret, _log.
    cbv beta iota. rewrite Hh. cbv beta iota. rewrite He. reflexivity.
Qed.

End CallMore.

(* ------------------------------------------------------------------ *)
(** ** More about the linking policy *)

Module PolicyMore.
Import FsFacts FsMore CallFacts CallMore Confinement.

Lemma link_step_unfold src_main sd force name count w :
  link_step src_main sd force name count w =
  (f <- ask (fun t => isfile t (src_main ++ [name])) ;;
   if negb f then ret count
   else
     if ext_to_link name then
       ex <- ask (fun t => exists_ t (sd ++ [name])) ;;
       if ex then
         if force
         then try_except (sys (os_remove (sd ++ [name])))
                         (fun e => _log (Warn_couldnt_remove (sd ++ [name]) e)) ;;
              attempt_link (src_main ++ [name]) (sd ++ [name]) count
         else _log (Skipping_existing (sd ++ [name])) ;; ret count
       else attempt_link (src_main ++ [name]) (sd ++ [name]) count
     else ret count) w.
Proof. reflexivity. Qed.

Lemma create_file_link_returns src dst w :
  exists ok, fst (_create_file_link src dst w) = Ok ok.
Proof.
  rewrite create_file_link_unfold. unfold bind.
  pose proof (cleanup_cases dst w) as [C _].
  destruct (cleanup dst w) as [r1 w1]. cbn [fst] in C. subst r1.
  destruct (link_attempts_order src dst w1) as [_ [att [_ L]]].
  destruct L as [[-> _] | [[-> _] | [[-> _] | [-> _]]]]; eexists; reflexivity.
Qed.

(** The attempt never raises: it counts the file. *)
Lemma attempt_link_counts src dst count w :
  fst (attempt_link src dst count w) = Ok (count + 1).
Proof.
  unfold attempt_link. unfold bind at 1.
  destruct (create_file_link_returns src dst w) as [ok Hok].
  destruct (_create_file_link src dst w) as [r1 w1]. cbn [fst] in Hok.
  subst r1. destruct ok; cbn [negb]; [reflexivity|].
  unfold bind, try_except, ret, _log.
  destruct (sys_cases (shutil_copy2 src dst) w1) as [[t [_ E]] | E];
    rewrite E; reflexivity.
Qed.

(** The removal that a forced round starts with is allowed to fail. *)
Lemma forced_removal_cases dst w :
  exists (b : bool) (t : node),
    try_except (sys (os_remove dst))
               (fun e => _log (Warn_couldnt_remove dst e)) w
    = (Ok tt,
       if b then record (os_remove dst, true) t w
       else say (Warn_couldnt_remove dst (OSError (os_remove dst)))
                (record (os_remove dst, false) (fs w) w))
    /\ (b = true -> effect (fs w) (os_remove dst) = Some t).
Proof.
  unfold try_except, _log.
  destruct (sys_cases (os_remove dst) w) as [[t [Ht E]] | E]; rewrite E.
  - exists true, t. now split.
  - exists false, (fs w). split; [reflexivity | discriminate].
Qed.

(** No round of the file loop raises. *)
Lemma link_step_returns src_main sd force name count w :
  exists k, fst (link_step src_main sd force name count w) = Ok k.
Proof.
  rewrite link_step_unfold. unfold bind at 1. unfold ask at 1.
  destruct (isfile (fs w) (src_main ++ [name])); cbn [negb];
    [|eexists; reflexivity].
  destruct (ext_to_link name); [|eexists; reflexivity].
  unfold bind at 1. unfold ask at 1.
  destruct (exists_ (fs w) (sd ++ [name])).
  - destruct force; [|eexists; reflexivity].
    unfold bind at 1.
    destruct (forced_removal_cases (sd ++ [name]) w) as [b [t [E _]]].
    rewrite E. eexists. apply attempt_link_counts.
  - eexists. apply attempt_link_counts.
Qed.

Lemma foldM_link_step_returns src_main sd force l : forall count w,
  exists k, fst (foldM (link_step src_main sd force) l count w) = Ok k.
Proof.
  induction l as [|a l IH]; intros count w; simpl; [eexists; reflexivity|].
  unfold bind. destruct (link_step_returns src_main sd force a count w) as [k Hk].
  destruct (link_step src_main sd force a count w) as [r1 w1].
  cbn [fst] in Hk. subst r1. apply IH.
Qed.

Lemma gentle_refl d names w : gentle d names w w.
Proof.
  repeat split; try reflexivity.
  - exact (keeps_refl _).
  - exists []. split; [now rewrite app_nil_r | constructor].
Qed.

Lemma gentle_trans d n1 n2 w1 w2 w3 :
  gentle d n1 w1 w2 -> gentle d n2 w2 w3 -> gentle d (n1 ++ n2) w1 w3.
Proof.
  intros [H1 [S1 [K1 [F1 [new1 [T1 A1]]]]]] [H2 [S2 [K2 [F2 [new2 [T2 A2]]]]]].
  repeat split; try congruence.
  - eapply keeps_trans; eassumption.
  - intros q Hq. rewrite F2, F1; [reflexivity | |];
      intros n Hn; apply Hq, in_or_app; auto.
  - exists (new1 ++ new2). split; [now rewrite T2, T1, app_assoc|].
    apply Forall_app. split; eapply Forall_impl; try eassumption;
      intros ev [Hr [n [Hn Hw]]]; (split; [exact Hr|]); exists n;
      (split; [apply in_or_app; auto | exact Hw]).
Qed.

(** A log line or a progress value changes nothing of this. *)
Lemma gentle_say d names m w : gentle d names w (say m w).
Proof.
  repeat split; try reflexivity.
  - exact (keeps_refl _).
  - exists []. split; [now rewrite app_nil_r | constructor].
Qed.

(** One call to [d/name] that is not a removal and keeps everything. *)
Lemma gentle_record d name c b t w :
  written c = d ++ [name] -> is_removal c = false ->
  keeps (fs w) t ->
  (forall q, diverge (d ++ [name]) q = true -> lookup t q = lookup (fs w) q) ->
  gentle d [name] w (record (c, b) t w).
Proof.
  intros Hw Hr Hk Hf. repeat split; try reflexivity.
  - exact Hk.
  - intros q Hq. apply Hf, Hq. now left.
  - exists [(c, b)]. split; [reflexivity|]. constructor; [|constructor].
    split; [exact Hr|]. exists name. split; [now left | exact Hw].
Qed.

Lemma gentle_failed d name c w :
  written c = d ++ [name] -> is_removal c = false ->
  gentle d [name] w (record (c, false) (fs w) w).
Proof.
  intros Hw Hr. apply gentle_record; auto. exact (keeps_refl _).
Qed.

Lemma gentle_done d name c t w :
  written c = d ++ [name] -> destructive c = false ->
  effect (fs w) c = Some t ->
  gentle d [name] w (record (c, true) t w).
Proof.
  intros Hw Hd He. apply gentle_record; auto.
  - now destruct c.
  - eapply effect_keeps; eassumption.
  - intros q Hq. eapply effect_frame; [exact He | now rewrite Hw].
Qed.

Lemma gentle_one d name w1 w2 w3 :
  gentle d [name] w1 w2 -> gentle d [name] w2 w3 -> gentle d [name] w1 w3.
Proof.
  intros A B. destruct (gentle_trans _ _ _ _ _ _ A B)
    as [H [S [K [F [new [T Al]]]]]].
  split; [exact H|]. split; [exact S|]. split; [exact K|]. split.
  - intros q Hq. apply F. intros n Hn. apply Hq.
    apply in_app_or in Hn. now destruct Hn.
  - exists new. split; [exact T|]. eapply Forall_impl; [|exact Al].
    intros ev [Hr [n [Hn Hw]]]. split; [exact Hr|]. exists n.
    split; [|exact Hw]. apply in_app_or in Hn. now destruct Hn.
Qed.

(** An attempt of one mechanism is gentle. *)
Lemma attempt_gentle d name c w :
  written c = d ++ [name] -> destructive c = false ->
  gentle d [name] w
    (snd (try_except (sys c ;; ret true) (fun _ => ret false) w)).
Proof.
  intros Hw Hd.
  destruct (attempt_cases c w) as [[t [Ht E]] | E]; rewrite E; cbn [snd].
  - now apply gentle_done.
  - apply gentle_failed; [exact Hw | now destruct c].
Qed.

(** The three mechanisms are gentle. *)
Lemma link_attempts_gentle src d name w :
  gentle d [name] w (snd (link_attempts src (d ++ [name]) w)).
Proof.
  unfold link_attempts, bind, _try_hardlink, _try_symlink, _try_mklink_hard.
  pose proof (attempt_gentle d name (os_link src (d ++ [name])) w
                eq_refl eq_refl) as G1.
  destruct (try_except (sys (os_link src (d ++ [name])) ;; ret true) _ w)
    as [[[]|e] w1]; cbn [snd] in *;
    [exact (gentle_one _ _ _ _ _ G1 (gentle_say _ _ _ _)) | | exact G1].
  pose proof (attempt_gentle d name (os_symlink src (d ++ [name])) w1
                eq_refl eq_refl) as G2.
  destruct (try_except (sys (os_symlink src (d ++ [name])) ;; ret true) _ w1)
    as [[[]|e] w2]; cbn [snd] in *;
    [exact (gentle_one _ _ _ _ _ G1
              (gentle_one _ _ _ _ _ G2 (gentle_say _ _ _ _)))
    | | exact (gentle_one _ _ _ _ _ G1 G2)].
  pose proof (attempt_gentle d name (mklink_H (d ++ [name]) src) w2
                eq_refl eq_refl) as G3.
  destruct (try_except (sys (mklink_H (d ++ [name]) src) ;; ret true) _ w2)
    as [[[]|e] w3]; cbn [snd] in *;
    [exact (gentle_one _ _ _ _ _ G1
              (gentle_one _ _ _ _ _ G2
                 (gentle_one _ _ _ _ _ G3 (gentle_say _ _ _ _))))
    | exact (gentle_one _ _ _ _ _ G1 (gentle_one _ _ _ _ _ G2 G3))
    | exact (gentle_one _ _ _ _ _ G1 (gentle_one _ _ _ _ _ G2 G3))].
Qed.

(** With a free destination the attempt, copy included, is gentle. *)
Lemma attempt_link_gentle src d name count w :
  exists_ (fs w) (d ++ [name]) = false ->
  gentle d [name] w (snd (attempt_link src (d ++ [name]) count w)).
Proof.
  intros Hx. unfold attempt_link. unfold bind at 1.
  rewrite (create_file_link_free src (d ++ [name]) w Hx).
  pose proof (link_attempts_gentle src d name w) as G.
  pose proof (link_attempts_effect src (d ++ [name]) w) as [_ [_ Ef]].
  destruct (link_attempts src (d ++ [name]) w) as [[ok|e] w1];
    cbn [fst snd] in *; [|exact G].
  destruct ok; cbn [negb]; [exact G|].
  destruct Ef as [[Ef _] | [_ Ef]]; [discriminate|].
  unfold bind, try_except, ret, _log.
  destruct (sys_cases (shutil_copy2 src (d ++ [name])) w1) as [[t [Ht E]] | E];
    rewrite E; cbn [snd].
  - assert (Hn : lookup (fs w1) (d ++ [name]) = None).
    { rewrite Ef. unfold exists_, test in Hx.
      now destruct (lookup (fs w) (d ++ [name])). }
    destruct (copy_to_free_keeps _ _ _ _ Hn Ht) as [K _].
    apply (gentle_one _ _ _ _ _ G).
    refine (gentle_one _ _ _ _ _ _ (gentle_say _ _ _ _)).
    apply gentle_record; auto.
    intros q Hq. eapply effect_frame; [exact Ht | exact Hq].
  - apply (gentle_one _ _ _ _ _ G).
    refine (gentle_one _ _ _ _ _ _ (gentle_say _ _ _ _)).
    now apply gentle_failed.
Qed.

(** Without [force], every round of the file loop is gentle. *)
Lemma link_step_gentle src_main sd name count w :
  gentle sd [name] w (snd (link_step src_main sd false name count w)).
Proof.
  rewrite link_step_unfold. unfold bind at 1. unfold ask at 1.
  destruct (isfile (fs w) (src_main ++ [name])); cbn [negb];
    [|apply gentle_refl].
  destruct (ext_to_link name); [|apply gentle_refl].
  unfold bind at 1. unfold ask at 1.
  destruct (exists_ (fs w) (sd ++ [name])) eqn:Ex.
  - apply gentle_say.
  - now apply attempt_link_gentle.
Qed.

Lemma gentle_names d n1 n2 w w' :
  incl n1 n2 -> gentle d n1 w w' -> gentle d n2 w w'.
Proof.
  intros Hi [H [S [K [F [new [T Al]]]]]].
  split; [exact H|]. split; [exact S|]. split; [exact K|]. split.
  - intros q Hq. apply F. intros n Hn. apply Hq, Hi, Hn.
  - exists new. split; [exact T|]. eapply Forall_impl; [|exact Al].
    intros ev [Hr [n [Hn Hw]]]. split; [exact Hr|]. exists n.
    split; [apply Hi, Hn | exact Hw].
Qed.

Lemma foldM_link_step_gentle src_main sd l : forall count w,
  gentle sd l w (snd (foldM (link_step src_main sd false) l count w)).
Proof.
  induction l as [|a l IH]; intros count w; simpl; [apply gentle_refl|].
  unfold bind. pose proof (link_step_gentle src_main sd a count w) as G.
  destruct (link_step src_main sd false a count w) as [[k|e] w1];
    cbn [snd] in *.
  - exact (gentle_trans sd [a] l _ _ _ G (IH k w1)).
  - eapply gentle_names; [|exact G]. intros x [<- | []]. now left.
Qed.

(** *** What a run without [force] never does *)

Lemma harmless_ret {A} (a : A) : harmless (ret a).
Proof. apply stays_ret. exact keeps_refl. Qed.

Lemma harmless_raise {A} e : harmless (@raise A e).
Proof. apply stays_raise. exact keeps_refl. Qed.

Lemma harmless_ask {A} (q : node -> A) : harmless (ask q).
Proof. apply stays_ask. exact keeps_refl. Qed.

Lemma harmless_log m : harmless (_log m).
Proof. apply stays_log. exact keeps_refl. Qed.

Lemma harmless_progress b z : harmless (call_progress b z).
Proof. apply stays_progress. exact keeps_refl. Qed.

Lemma harmless_listdir p : harmless (os_listdir p).
Proof. apply stays_listdir. exact keeps_refl. Qed.

Lemma harmless_bind {A B} (m : M A) (k : A -> M B) :
  harmless m -> (forall a, harmless (k a)) -> harmless (bind m k).
Proof. apply stays_bind. exact keeps_trans. Qed.

Lemma harmless_try {A} (m : M A) (h : exn -> M A) :
  harmless m -> (forall e, harmless (h e)) -> harmless (try_except m h).
Proof. apply stays_try. exact keeps_trans. Qed.

Lemma harmless_sys c : destructive c = false -> harmless (sys c).
Proof.
  intros Hc. apply stays_sys; [exact keeps_refl | now destruct c |].
  intros t t'. now apply effect_keeps.
Qed.

Lemma harmless_makedirs p : harmless (makedirs_exist_ok p).
Proof.
  apply stays_makedirs; [exact keeps_refl | reflexivity |].
  intros t t'. now apply effect_keeps.
Qed.

Lemma harmless_junction_step src tdir name created :
  harmless (junction_step src tdir false name created).
Proof.
  unfold junction_step, _make_dir_junction.
  apply harmless_bind; [apply harmless_ask | intros ex].
  apply harmless_bind.
  - destruct ex; [apply harmless_raise | apply harmless_ret].
  - intros _. apply harmless_bind.
    + apply harmless_try; [|intros _; apply harmless_ret].
      apply harmless_bind; [now apply harmless_sys | intros _; apply harmless_ret].
    + intros ok. destruct ok;
        (apply harmless_bind; [apply harmless_log | intros _; apply harmless_ret]).
Qed.

Lemma harmless_create_conew_junctions src tdir :
  harmless (create_conew_junctions src tdir false).
Proof.
  unfold create_conew_junctions.
  apply harmless_bind; [apply harmless_makedirs | intros _].
  apply stays_foldM; [exact keeps_refl | exact keeps_trans |].
  intros name created. apply harmless_junction_step.
Qed.

Lemma gentle_harmless {A} (m : M A) d (names : world -> list string) :
  (forall w, gentle d (names w) w (snd (m w))) -> harmless m.
Proof.
  intros H w. destruct (H w) as [Hh [_ [K [_ [new [T Al]]]]]].
  split; [exact Hh|]. split; [|exact K].
  exists new. split; [exact T|]. eapply Forall_impl; [|exact Al].
  now intros ev [Hr _].
Qed.

Lemma harmless_link_top_level_files_once src_main sd :
  harmless (link_top_level_files_once src_main sd false).
Proof.
  unfold link_top_level_files_once.
  apply harmless_bind; [apply harmless_listdir | intros l].
  apply (gentle_harmless _ sd (fun _ => l)). intros w.
  apply foldM_link_step_gentle.
Qed.

Lemma harmless_execute sd m progress : harmless (execute sd m false progress).
Proof.
  unfold execute.
  apply harmless_bind; [apply harmless_makedirs | intros _].
  apply harmless_bind; [apply harmless_progress | intros _].
  apply harmless_bind; [apply harmless_create_conew_junctions | intros _].
  apply harmless_bind; [apply harmless_link_top_level_files_once | intros linked].
  apply harmless_bind; [apply harmless_log | intros _].
  apply harmless_bind; [apply harmless_progress | intros _].
  apply harmless_bind; [apply harmless_log | intros _].
  apply harmless_ret.
Qed.

End PolicyMore.

(* ------------------------------------------------------------------ *)
(** ** More about [run] *)

Module RunMore.
Import FsFacts FsMore CallFacts CallMore Confinement PolicyMore RunFacts
  AliasFacts.

Lemma silent_ret {A} (a : A) : silent (ret a).
Proof. now intros w. Qed.

Lemma silent_raise {A} e : silent (@raise A e).
Proof. now intros w. Qed.

Lemma silent_ask {A} (q : node -> A) : silent (ask q).
Proof. now intros w. Qed.

Lemma silent_log m : silent (_log m).
Proof. now intros w. Qed.

Lemma silent_sys c : silent (sys c).
Proof.
  intros w. destruct (sys_cases c w) as [[t [_ E]] | E]; now rewrite E.
Qed.

Lemma silent_makedirs p : silent (makedirs_exist_ok p).
Proof.
  intros w. unfold makedirs_exist_ok.
  destruct (isdir (fs w) p); [reflexivity | apply silent_sys].
Qed.

Lemma silent_listdir p : silent (os_listdir p).
Proof. intros w. unfold os_listdir. now destruct (listdir (fs w) p). Qed.

Lemma silent_bind {A B} (m : M A) (k : A -> M B) :
  silent m -> (forall a, silent (k a)) -> silent (bind m k).
Proof.
  intros Hm Hk w. unfold bind. specialize (Hm w).
  destruct (m w) as [[a|e] w1]; cbn [snd] in *; [|exact Hm].
  now rewrite Hk.
Qed.

Lemma silent_try {A} (m : M A) (h : exn -> M A) :
  silent m -> (forall e, silent (h e)) -> silent (try_except m h).
Proof.
  intros Hm Hh w. unfold try_except. specialize (Hm w).
  destruct (m w) as [[a|e] w1]; cbn [snd] in *; [exact Hm|].
  now rewrite Hh.
Qed.

Lemma silent_foldM {A B} (f : A -> B -> M B) (l : list A) :
  (forall a b, silent (f a b)) -> forall b, silent (foldM f l b).
Proof.
  intros Hf. induction l as [|a l IH]; intros b; simpl.
  - apply silent_ret.
  - apply silent_bind; [apply Hf | exact IH].
Qed.

Ltac hush :=
  repeat first
    [ apply silent_ret | apply silent_raise | apply silent_ask
    | apply silent_log | apply silent_sys | apply silent_makedirs
    | apply silent_listdir
    | apply silent_bind; [ | intros ? ]
    | apply silent_try; [ | intros ? ]
    | apply silent_foldM; intros ? ?
    | match goal with
      | |- silent (if ?b then _ else _) => destruct b
      end ].

Lemma silent_create_conew_junctions src tdir force :
  silent (create_conew_junctions src tdir force).
Proof. unfold create_conew_junctions, junction_step. hush. Qed.

Lemma silent_link_top_level_files_once src_main sd force :
  silent (link_top_level_files_once src_main sd force).
Proof. unfold link_top_level_files_once, link_step. hush. Qed.

Lemma bind_cases {A B} (m : M A) (k : A -> M B) w :
  (exists e, fst (m w) = Raise e /\ bind m k w = (Raise e, snd (m w)))
  \/ (exists a, fst (m w) = Ok a /\ bind m k w = k a (snd (m w))).
Proof.
  unfold bind. destruct (m w) as [[a|e] w1]; cbn [fst snd].
  - right. now exists a.
  - left. now exists e.
Qed.

(** How the last stage ends: with 0, the line [Done] and the progress
    values -1 and 100; or with an exception, after at most the value -1. *)
Lemma execute_shape sd m force progress w :
  let r := execute sd m force progress w in
  (fst r = Ok 0%Z
   /\ shown (snd r) = shown w ++ (if progress then [-1; 100]%Z else [])
   /\ last (logged (snd r)) DRY_RUN = Done)
  \/ (exists e, fst r = Raise e
                /\ (shown (snd r) = shown w
                    \/ shown (snd r)
                       = shown w ++ (if progress then [-1]%Z else []))).
Proof.
  cbv zeta. unfold execute.
  destruct (bind_cases (makedirs_exist_ok (sd ++ ["Include"]))
              (fun _ => call_progress progress (-1) ;;
                        create_conew_junctions (m ++ COnew_REL)
                          (sd ++ ["Include"]) force ;;
                        linked <- link_top_level_files_once m sd force ;;
                        _log (Linked_or_copied linked) ;;
                        call_progress progress 100 ;; _log Done ;; ret 0%Z) w)
    as [[e [He E]] | [[] [_ E]]]; rewrite E; clear E.
  { right. exists e. split; [reflexivity|]. left. apply silent_makedirs. }
  pose proof (silent_makedirs (sd ++ ["Include"]) w) as S1.
  set (w1 := snd (makedirs_exist_ok (sd ++ ["Include"]) w)) in *.
  assert (S2 : shown (snd (call_progress progress (-1) w1))
               = shown w ++ (if progress then [-1]%Z else [])).
  { unfold call_progress. destruct progress; cbn [snd shown];
      rewrite S1; [reflexivity | now rewrite app_nil_r]. }
  assert (E2 : call_progress progress (-1) w1
               = (Ok tt, snd (call_progress progress (-1) w1)))
    by (unfold call_progress; now destruct progress).
  rewrite (bind_ok _ _ _ _ _ E2).
  set (w2 := snd (call_progress progress (-1) w1)) in *.
  destruct (bind_cases (create_conew_junctions (m ++ COnew_REL)
                          (sd ++ ["Include"]) force)
              (fun _ => linked <- link_top_level_files_once m sd force ;;
                        _log (Linked_or_copied linked) ;;
                        call_progress progress 100 ;; _log Done ;; ret 0%Z) w2)
    as [[e [He E]] | [created [_ E]]]; rewrite E; clear E.
  { right. exists e. split; [reflexivity|]. right. cbn [snd].
    now rewrite silent_create_conew_junctions. }
  pose proof (silent_create_conew_junctions (m ++ COnew_REL)
                (sd ++ ["Include"]) force w2) as S3.
  set (w3 := snd (create_conew_junctions _ _ force w2)) in *.
  destruct (bind_cases (link_top_level_files_once m sd force)
              (fun linked => _log (Linked_or_copied linked) ;;
                             call_progress progress 100 ;; _log Done ;;
                             ret 0%Z) w3)
    as [[e [He E]] | [linked [_ E]]]; rewrite E; clear E.
  { right. exists e. split; [reflexivity|]. right. cbn [snd].
    now rewrite silent_link_top_level_files_once, S3. }
  pose proof (silent_link_top_level_files_once m sd force w3) as S4.
  set (w4 := snd (link_top_level_files_once m sd force w3)) in *.
  left. unfold bind, _log, call_progress, ret.
  destruct progress; cbn [fst snd shown logged].
  - rewrite S4, S3, S2, <- app_assoc. repeat split. apply last_last.
  - rewrite S4, S3, S2. repeat split. apply last_last.
Qed.

End RunMore.

(* ------------------------------------------------------------------ *)
(** ** More about the two aliases *)

Module JunctionMore.
Import FsFacts FsMore CallFacts CallMore AliasFacts Confinement.

Lemma bind_ask {A B} (q : node -> A) (k : A -> M B) w :
  bind (ask q) k w = k (q (fs w)) w.
Proof. reflexivity. Qed.

Lemma bind_ret {A B} (a : A) (k : A -> M B) w : bind (ret a) k w = k a w.
Proof. reflexivity. Qed.

(** The removal that a forced round of the alias loop starts with: one
    call, on the alias, which is allowed to fail. *)
Lemma forced_alias_removal link w :
  let m := try_except
             (d <- ask (fun t => isdir t link && negb (islink t link)) ;;
              if d then sys (shutil_rmtree link) else sys (os_remove link))
             (fun e => _log (Warn_couldnt_remove_existing_alias link e)) in
  fst (m w) = Ok tt
  /\ host (snd (m w)) = host w
  /\ same_outside link (fs w) (fs (snd (m w)))
  /\ exists c b, trace (snd (m w)) = trace w ++ [(c, b)]
                 /\ is_removal c = true /\ written c = link.
Proof.
  cbv zeta.
  assert (K : forall c, is_removal c = true -> written c = link ->
             let r := match sys c w with
                      | (Ok a, w') => (Ok a, w')
                      | (Raise e, w') =>
                          _log (Warn_couldnt_remove_existing_alias link e) w'
                      end in
             fst r = Ok tt /\ host (snd r) = host w
             /\ same_outside link (fs w) (fs (snd r))
             /\ exists c' b, trace (snd r) = trace w ++ [(c', b)]
                             /\ is_removal c' = true /\ written c' = link).
  { intros c Hc Hw. cbv zeta.
    destruct (sys_cases c w) as [[t [Ht E]] | E]; rewrite E.
    - cbn [fst snd host fs trace record]. split; [reflexivity|].
      split; [reflexivity|]. split.
      + intros q Hq. eapply effect_frame; [exact Ht | now rewrite Hw].
      + exists c, true. now repeat split.
    - cbn [_log fst snd host fs trace record]. split; [reflexivity|].
      split; [reflexivity|]. split.
      + now intros q Hq.
      + exists c, false. now repeat split. }
  unfold try_except, bind, ask. cbv beta iota.
  destruct (isdir (fs w) link && negb (islink (fs w) link)).
  - exact (K (shutil_rmtree link) eq_refl eq_refl).
  - exact (K (os_remove link) eq_refl eq_refl).
Qed.

(** The junction itself: one [mklink /J], which makes the alias a junction
    to the source when it succeeds and changes nothing when it fails. *)
Lemma make_dir_junction_shape link src w :
  exists b : bool,
    fst (_make_dir_junction link src w) = Ok b
    /\ host (snd (_make_dir_junction link src w)) = host w
    /\ logged (snd (_make_dir_junction link src w)) = logged w
    /\ trace (snd (_make_dir_junction link src w))
       = trace w ++ [(mklink_J link src, b)]
    /\ same_outside link (fs w) (fs (snd (_make_dir_junction link src w)))
    /\ (if b
        then lookup (fs (snd (_make_dir_junction link src w))) link
             = Some (Link Junction src)
        else fs (snd (_make_dir_junction link src w)) = fs w).
Proof.
  unfold _make_dir_junction.
  destruct (attempt_cases (mklink_J link src) w) as [[t [Ht E]] | E]; rewrite E.
  - exists true. cbn [fst snd host fs trace logged record].
    split; [reflexivity|]. split; [reflexivity|]. split; [reflexivity|].
    split; [reflexivity|]. split.
    + intros q Hq. eapply effect_frame; [exact Ht | exact Hq].
    + simpl in Ht. destruct (lookup (fs w) link); [discriminate|].
      eapply update_lookup_same. exact Ht.
  - exists false. cbn [fst snd host fs trace logged record].
    split; [reflexivity|]. split; [reflexivity|]. split; [reflexivity|].
    split; [reflexivity|]. split; [|reflexivity]. now intros q Hq.
Qed.

(** One round of the alias loop that does not raise. *)
Lemma junction_step_shape src tdir force name created w :
  force = true \/ exists_ (fs w) (tdir ++ [name]) = false ->
  let link := tdir ++ [name] in
  let r := junction_step src tdir force name created w in
  exists b : bool,
    fst r = Ok (if b then created ++ [link] else created)
    /\ host (snd r) = host w
    /\ same_outside link (fs w) (fs (snd r))
    /\ (b = true -> lookup (fs (snd r)) link = Some (Link Junction src))
    /\ exists pre,
         trace (snd r) = trace w ++ pre ++ [(mklink_J link src, b)]
         /\ Forall (fun ev => is_removal (fst ev) = true
                              /\ written (fst ev) = link) pre.
Proof.
  intros Hpre. cbv zeta. unfold junction_step. rewrite bind_ask.
  assert (K : forall w0 pre,
             host w0 = host w -> same_outside (tdir ++ [name]) (fs w) (fs w0) ->
             trace w0 = trace w ++ pre ->
             Forall (fun ev => is_removal (fst ev) = true
                               /\ written (fst ev) = tdir ++ [name]) pre ->
             let r := (ok <- _make_dir_junction (tdir ++ [name]) src ;;
                       if ok
                       then _log (Directory_junction_created
                                    (tdir ++ [name]) src) ;;
                            ret (created ++ [tdir ++ [name]])
                       else _log (ERROR_creating_junction (tdir ++ [name]) src) ;;
                            ret created) w0 in
             exists b : bool,
               fst r = Ok (if b then created ++ [tdir ++ [name]] else created)
               /\ host (snd r) = host w
               /\ same_outside (tdir ++ [name]) (fs w) (fs (snd r))
               /\ (b = true ->
                   lookup (fs (snd r)) (tdir ++ [name])
                   = Some (Link Junction src))
               /\ exists pre',
                    trace (snd r)
                    = trace w ++ pre' ++ [(mklink_J (tdir ++ [name]) src, b)]
                    /\ Forall (fun ev => is_removal (fst ev) = true
                                         /\ written (fst ev) = tdir ++ [name])
                              pre').
  { intros w0 pre Hh Hs Ht Hp. cbv zeta.
    destruct (make_dir_junction_shape (tdir ++ [name]) src w0)
      as [b [Hr [Hh' [_ [Ht' [Hs' Hl]]]]]].
    destruct (_make_dir_junction (tdir ++ [name]) src w0) as [r1 w1] eqn:E.
    cbn [fst snd] in *. subst r1. rewrite (bind_ok _ _ _ _ _ E). exists b.
    destruct b; unfold bind, _log, ret; cbn [fst snd host fs trace];
      (split; [reflexivity|]); (split; [congruence|]);
      (split; [eapply same_outside_trans; eassumption|]);
      (split; [first [discriminate | intros _; exact Hl]|]);
      exists pre; (split; [|exact Hp]);
      now rewrite Ht', Ht, <- app_assoc. }
  destruct (exists_ (fs w) (tdir ++ [name])) eqn:Ex.
  - destruct Hpre as [-> | Hpre]; [|discriminate].
    destruct (forced_alias_removal (tdir ++ [name]) w)
      as [Hr [Hh [Hs [c [rb [Ht [Hc Hw]]]]]]].
    destruct (try_except _ _ w) as [r1 w1] eqn:E. cbn [fst snd] in *.
    subst r1. rewrite (bind_ok _ _ _ _ _ E).
    apply (K w1 [(c, rb)]); auto.
  - rewrite bind_ret.
    apply (K w []); auto.
    + apply same_outside_refl.
    + now rewrite app_nil_r.
Qed.

End JunctionMore.

(* ------------------------------------------------------------------ *)
(** ** The stages of a successful installation *)

Module InstallFacts.
Import FsFacts FsMore DiscoveryFacts CallFacts CallMore AliasFacts Confinement
  PolicyMore JunctionMore DiscoveryMore RunFacts.

Lemma keeps_file t t' q :
  keeps t t' -> isfile t q = true ->
  lookup t' q = lookup t q /\ isfile t' q = true.
Proof.
  intros K. unfold isfile, test.
  destruct (lookup t q) as [n|] eqn:E; [|discriminate]. intros Hn.
  pose proof (K q n E) as H. destruct n as [d| |k tg]; try discriminate;
    rewrite H; now split.
Qed.

Lemma keeps_dir t t' q es :
  keeps t t' -> lookup t q = Some (Dir es) ->
  exists es', lookup t' q = Some (Dir es').
Proof. intros K E. exact (K q _ E). Qed.

Lemma keeps_junction t t' q src :
  keeps t t' -> lookup t q = Some (Link Junction src) ->
  lookup t' q = Some (Link Junction src).
Proof. intros K E. exact (K q _ E). Qed.

Lemma calm_refl d w : calm d w w.
Proof.
  split; [reflexivity|]. split; [exact (keeps_refl _) | apply same_outside_refl].
Qed.

Lemma calm_trans d w1 w2 w3 : calm d w1 w2 -> calm d w2 w3 -> calm d w1 w3.
Proof.
  intros [H1 [K1 S1]] [H2 [K2 S2]]. split; [congruence|]. split.
  - eapply keeps_trans; eassumption.
  - eapply same_outside_trans; eassumption.
Qed.

Lemma calm_below d x w w' : calm (d ++ x) w w' -> calm d w w'.
Proof.
  intros [H [K S]]. split; [exact H|]. split; [exact K|].
  intros q Hq. apply S. now apply diverge_app_l.
Qed.

Lemma calm_same d w w' : fs w' = fs w -> host w' = host w -> calm d w w'.
Proof.
  intros F H. split; [exact H|]. rewrite F.
  split; [exact (keeps_refl _) | apply same_outside_refl].
Qed.

Lemma calm_say d m w : calm d w (say m w).
Proof. now apply calm_same. Qed.

(** A successful call that is not destructive is calm where it writes. *)
Lemma calm_call c t w :
  destructive c = false -> effect (fs w) c = Some t ->
  calm (written c) w (record (c, true) t w).
Proof.
  intros Hd He. split; [reflexivity|]. split.
  - eapply effect_keeps; eassumption.
  - intros q Hq. eapply effect_frame; eassumption.
Qed.

Lemma absent_lookup t p : exists_ t p = false <-> lookup t p = None.
Proof.
  unfold exists_, test. destruct (lookup t p); split; congruence.
Qed.

(** A missing directory can be made in a directory. *)
Lemma mkdirs_in_dir d : forall t es n,
  lookup t d = Some (Dir es) -> lookup t (d ++ [n]) = None ->
  exists t', mkdirs t (d ++ [n]) = Some t'
             /\ lookup t' (d ++ [n]) = Some (Dir []).
Proof.
  induction d as [|m d IH]; intros t es n Hd Hn.
  - simpl in Hd. injection Hd as ->. simpl in Hn |- *.
    destruct (find_entry n es) eqn:E; [discriminate|].
    eexists. split; [reflexivity|]. simpl. now rewrite find_put_same.
  - simpl in Hd. destruct t as [ | es0 | ]; try discriminate.
    destruct (find_entry m es0) as [c|] eqn:E; [|discriminate].
    assert (Hn' : lookup c (d ++ [n]) = None) by (simpl in Hn; now rewrite E in Hn).
    destruct (IH c es n Hd Hn') as [c' [Hc' Hl']].
    exists (Dir (put_entry m c' es0)). split.
    + simpl. now rewrite E, Hc'.
    + simpl. now rewrite find_put_same.
Qed.

(** Stage A: the target [Include] directory is made, or is there. *)
Lemma makedirs_ready sd w es :
  obliging w ->
  lookup (fs w) sd = Some (Dir es) ->
  lookup (fs w) (sd ++ ["Include"]) = None
  \/ (exists es', lookup (fs w) (sd ++ ["Include"]) = Some (Dir es')) ->
  exists w1,
    makedirs_exist_ok (sd ++ ["Include"]) w = (Ok tt, w1)
    /\ calm (sd ++ ["Include"]) w w1
    /\ (exists es', lookup (fs w1) (sd ++ ["Include"]) = Some (Dir es'))
    /\ (forall x, exists_ (fs w) ((sd ++ ["Include"]) ++ [x]) = false ->
                  exists_ (fs w1) ((sd ++ ["Include"]) ++ [x]) = false)
    /\ trace w1 = trace w ++ [(os_makedirs (sd ++ ["Include"]), true)].
Proof.
  intros Ho Hsd [Hn | [es' He]].
  - destruct (mkdirs_in_dir sd (fs w) es "Include" Hsd Hn) as [t [Hm Hl]].
    exists (record (os_makedirs (sd ++ ["Include"]), true) t w).
    assert (E : makedirs_exist_ok (sd ++ ["Include"]) w
                = (Ok tt, record (os_makedirs (sd ++ ["Include"]), true) t w)).
    { unfold makedirs_exist_ok, isdir, test, sys. rewrite Hn, Ho.
      simpl effect. now rewrite Hm. }
    split; [exact E|]. split; [now apply (calm_call (os_makedirs _))|].
    split; [now exists []|]. split; [|reflexivity].
    intros x _. apply absent_lookup. cbn [fs record].
    rewrite lookup_app, Hl. reflexivity.
  - exists (record (os_makedirs (sd ++ ["Include"]), true) (fs w) w).
    split.
    + apply makedirs_present. unfold isdir, test. now rewrite He.
    + split; [now apply calm_same|]. split; [now exists es'|].
      split; [auto | reflexivity].
Qed.

(** Stage B, one alias: on an obliging host an alias that is free in a
    directory becomes a junction. *)
Lemma junction_step_obliging src tdir name created w es :
  obliging w ->
  lookup (fs w) tdir = Some (Dir es) ->
  exists_ (fs w) (tdir ++ [name]) = false ->
  exists w',
    junction_step src tdir false name created w
    = (Ok (created ++ [tdir ++ [name]]), w')
    /\ calm (tdir ++ [name]) w w'
    /\ lookup (fs w') (tdir ++ [name]) = Some (Link Junction src)
    /\ trace w' = trace w ++ [(mklink_J (tdir ++ [name]) src, true)].
Proof.
  intros Ho Hd Hx. apply absent_lookup in Hx as Hn.
  destruct (update_in_dir tdir (fs w) es name (Link Junction src) Hd)
    as [t Ht].
  assert (He : effect (fs w) (mklink_J (tdir ++ [name]) src) = Some t)
    by (simpl; now rewrite Hn).
  exists (say (Directory_junction_created (tdir ++ [name]) src)
              (record (mklink_J (tdir ++ [name]) src, true) t w)).
  split; [|split; [|split; [|reflexivity]]].
  - unfold junction_step. rewrite bind_ask, Hx, bind_ret.
    unfold _make_dir_junction, try_except, bind, sys, ret, _log.
    cbv beta iota. rewrite Ho. cbv beta iota. rewrite He. reflexivity.
  - apply (calm_call (mklink_J (tdir ++ [name]) src)); auto.
  - cbn [fs say record]. eapply update_lookup_same. exact Ht.
Qed.

(** Stage B: both aliases become junctions. *)
Lemma create_conew_junctions_obliging src tdir w es :
  obliging w ->
  lookup (fs w) tdir = Some (Dir es) ->
  exists_ (fs w) (tdir ++ ["COnew"]) = false ->
  exists_ (fs w) (tdir ++ ["COnew_2"]) = false ->
  exists w',
    create_conew_junctions src tdir false w
    = (Ok [tdir ++ ["COnew"]; tdir ++ ["COnew_2"]], w')
    /\ calm tdir w w'
    /\ lookup (fs w') (tdir ++ ["COnew"]) = Some (Link Junction src)
    /\ lookup (fs w') (tdir ++ ["COnew_2"]) = Some (Link Junction src)
    /\ trace w' = trace w ++ [(os_makedirs tdir, true);
                              (mklink_J (tdir ++ ["COnew"]) src, true);
                              (mklink_J (tdir ++ ["COnew_2"]) src, true)].
Proof.
  intros Ho Hd H1 H2. unfold create_conew_junctions.
  assert (Hi : isdir (fs w) tdir = true)
    by (unfold isdir, test; now rewrite Hd).
  rewrite (bind_ok _ _ _ _ _ (makedirs_present tdir w Hi)).
  set (w1 := record (os_makedirs tdir, true) (fs w) w). cbn [foldM].
  destruct (junction_step_obliging src tdir "COnew" [] w1 es Ho Hd H1)
    as [w2 [E1 [C1 [L1 T1]]]].
  rewrite (bind_ok _ _ _ _ _ E1).
  destruct C1 as [Hh1 [K1 S1]].
  destruct (keeps_dir _ _ _ _ K1 Hd) as [es2 Hd2].
  assert (Ho2 : obliging w2) by (intros tr c; rewrite Hh1; apply Ho).
  assert (H2' : exists_ (fs w2) (tdir ++ ["COnew_2"]) = false).
  { unfold exists_, test. rewrite S1; [exact H2|].
    apply diverge_siblings. discriminate. }
  destruct (junction_step_obliging src tdir "COnew_2"
              ([] ++ [tdir ++ ["COnew"]]) w2 es2 Ho2 Hd2 H2')
    as [w3 [E2 [C2 [L2 T2]]]].
  rewrite (bind_ok _ _ _ _ _ E2). exists w3.
  split; [reflexivity|]. split; [|split; [|split; [exact L2|]]].
  - apply (calm_trans tdir w w2 w3).
    + apply (calm_below tdir ["COnew"]). now split.
    + apply (calm_below tdir ["COnew_2"]). exact C2.
  - destruct C2 as [_ [K2 _]]. eapply keeps_junction; eassumption.
  - rewrite T2, T1. unfold w1. cbn [trace record].
    now rewrite <- !app_assoc.
Qed.

(** Stage C, one file: on an obliging host a recognized file of the source
    whose destination is free is hard linked and counted. *)
Lemma link_step_links src_main sd x count w es :
  obliging w ->
  lookup (fs w) sd = Some (Dir es) ->
  isfile (fs w) (src_main ++ [x]) = true ->
  ext_to_link x = true ->
  exists_ (fs w) (sd ++ [x]) = false ->
  exists w',
    link_step src_main sd false x count w = (Ok (count + 1), w')
    /\ lookup (fs w') (sd ++ [x]) = lookup (fs w) (src_main ++ [x])
    /\ trace w' = trace w ++ [(os_link (src_main ++ [x]) (sd ++ [x]), true)].
Proof.
  intros Ho Hd Hf He Hx.
  destruct (link_attempts_hardlink (src_main ++ [x]) sd x w es
              (Ho _ _) Hf Hd Hx) as [t [_ [Hl E]]].
  exists (say (Hard_link (sd ++ [x]) (src_main ++ [x]))
              (record (os_link (src_main ++ [x]) (sd ++ [x]), true) t w)).
  split; [|split].
  - rewrite link_step_unfold, bind_ask, Hf. cbn [negb]. rewrite He.
    rewrite bind_ask, Hx. unfold attempt_link.
    rewrite (bind_ok _ _ _ _ _
               (eq_trans (create_file_link_free _ _ _ Hx) E)).
    reflexivity.
  - exact Hl.
  - reflexivity.
Qed.

(** Stage C, any entry: on an obliging host the step makes no call, or the
    one hard link of the entry, which succeeds. *)
Lemma link_step_hardlinks src_main sd a count w es :
  obliging w ->
  lookup (fs w) sd = Some (Dir es) ->
  let w' := snd (link_step src_main sd false a count w) in
  trace w' = trace w
  \/ (isfile (fs w) (src_main ++ [a]) = true /\ ext_to_link a = true
      /\ trace w'
         = trace w ++ [(os_link (src_main ++ [a]) (sd ++ [a]), true)]).
Proof.
  intros Ho Hd. cbv zeta.
  destruct (isfile (fs w) (src_main ++ [a])) eqn:Hf.
  - destruct (ext_to_link a) eqn:He.
    + destruct (exists_ (fs w) (sd ++ [a])) eqn:Hx.
      * left. rewrite link_step_unfold, bind_ask, Hf. cbn [negb].
        rewrite He, bind_ask, Hx. reflexivity.
      * right. destruct (link_step_links src_main sd a count w es
                           Ho Hd Hf He Hx) as [w1 [E [_ T]]].
        rewrite E. now repeat split.
    + left. rewrite link_step_unfold, bind_ask, Hf. cbn [negb].
      now rewrite He.
  - left. now rewrite link_step_unfold, bind_ask, Hf.
Qed.

(** Stage C, the calls: on an obliging host every call of the unforced pass
    is a successful hard link of a recognized file of the source. *)
Lemma foldM_link_step_hardlinks src_main sd l : forall count w es,
  obliging w ->
  lookup (fs w) sd = Some (Dir es) ->
  exists links,
    trace (snd (foldM (link_step src_main sd false) l count w))
    = trace w ++ links
    /\ Forall (fun ev => exists n,
                  In n l /\ ext_to_link n = true
                  /\ ev = (os_link (src_main ++ [n]) (sd ++ [n]), true)) links.
Proof.
  induction l as [|a l IH]; intros count w es Ho Hd.
  { exists []. split; [now rewrite app_nil_r | constructor]. }
  cbn [foldM].
  pose proof (link_step_hardlinks src_main sd a count w es Ho Hd) as T.
  cbv zeta in T.
  destruct (link_step_returns src_main sd false a count w) as [k Hk].
  pose proof (link_step_gentle src_main sd a count w) as [Hh [_ [K _]]].
  destruct (link_step src_main sd false a count w) as [r1 w1] eqn:E.
  cbn [fst snd] in *. subst r1. rewrite (bind_ok _ _ _ _ _ E).
  destruct (keeps_dir _ _ _ _ K Hd) as [es1 Hd1].
  assert (Ho1 : obliging w1) by (intros tr c; rewrite Hh; apply Ho).
  destruct (IH k w1 es1 Ho1 Hd1) as [links [Tl Fl]].
  assert (Fl' : Forall (fun ev => exists n,
                          In n (a :: l) /\ ext_to_link n = true
                          /\ ev = (os_link (src_main ++ [n]) (sd ++ [n]), true))
                       links).
  { eapply Forall_impl; [|exact Fl]. intros ev [n [Hn Hev]].
    exists n. split; [now right | exact Hev]. }
  destruct T as [T | [_ [He T]]].
  - exists links. split; [now rewrite Tl, T | exact Fl'].
  - exists ((os_link (src_main ++ [a]) (sd ++ [a]), true) :: links). split.
    + rewrite Tl, T, <- app_assoc. reflexivity.
    + constructor; [|exact Fl']. exists a. split; [now left|].
      now split.
Qed.

(** Stage C: every recognized file of the source with a free destination
    ends up hard linked at its destination. *)
Lemma foldM_link_step_links src_main sd l : forall count w x es,
  In x l ->
  obliging w ->
  lookup (fs w) sd = Some (Dir es) ->
  isfile (fs w) (src_main ++ [x]) = true ->
  ext_to_link x = true ->
  exists_ (fs w) (sd ++ [x]) = false ->
  lookup (fs (snd (foldM (link_step src_main sd false) l count w))) (sd ++ [x])
  = lookup (fs w) (src_main ++ [x]).
Proof.
  induction l as [|a l IH]; intros count w x es Hin Ho Hd Hf He Hx;
    [contradiction|].
  cbn [foldM].
  destruct (String.eqb a x) eqn:Eax.
  - apply String.eqb_eq in Eax. subst a.
    destruct (link_step_links src_main sd x count w es Ho Hd Hf He Hx)
      as [w1 [E [Hl _]]].
    rewrite (bind_ok _ _ _ _ _ E).
    pose proof (foldM_link_step_gentle src_main sd l (count + 1) w1)
      as [_ [_ [K _]]].
    assert (F1 : isfile (fs w1) (sd ++ [x]) = true).
    { unfold isfile, test in *. now rewrite Hl. }
    rewrite (proj1 (keeps_file _ _ _ K F1)). exact Hl.
  - assert (Hne : a <> x) by (intros ->; now rewrite String.eqb_refl in Eax).
    destruct Hin as [-> | Hin]; [contradiction|].
    destruct (link_step_returns src_main sd false a count w) as [k Hk].
    pose proof (link_step_gentle src_main sd a count w) as [Hh [_ [K [Fr _]]]].
    destruct (link_step src_main sd false a count w) as [r1 w1] eqn:E.
    cbn [fst snd] in *. subst r1. rewrite (bind_ok _ _ _ _ _ E).
    destruct (keeps_dir _ _ _ _ K Hd) as [es1 Hd1].
    destruct (keeps_file _ _ _ K Hf) as [Hsame Hf1].
    rewrite <- Hsame. apply (IH k w1 x es1); auto.
    + intros tr c. rewrite Hh. apply Ho.
    + unfold exists_, test. rewrite Fr; [exact Hx|].
      intros n [<- | []]. now apply diverge_siblings.
Qed.

(** Stage C: the hard link of such a file is among the calls of the
    pass. *)
Lemma foldM_link_step_link_made src_main sd l : forall count w x es links,
  In x l ->
  obliging w ->
  lookup (fs w) sd = Some (Dir es) ->
  isfile (fs w) (src_main ++ [x]) = true ->
  ext_to_link x = true ->
  exists_ (fs w) (sd ++ [x]) = false ->
  trace (snd (foldM (link_step src_main sd false) l count w))
  = trace w ++ links ->
  In (os_link (src_main ++ [x]) (sd ++ [x]), true) links.
Proof.
  induction l as [|a l IH]; intros count w x es links Hin Ho Hd Hf He Hx;
    [contradiction|].
  cbn [foldM].
  destruct (String.eqb a x) eqn:Eax.
  - apply String.eqb_eq in Eax. subst a.
    destruct (link_step_links src_main sd x count w es Ho Hd Hf He Hx)
      as [w1 [E [_ T1]]].
    rewrite (bind_ok _ _ _ _ _ E).
    pose proof (foldM_link_step_gentle src_main sd l (count + 1) w1)
      as [_ [_ [_ [_ [new [Tn _]]]]]].
    rewrite Tn, T1, <- app_assoc. intros Ht.
    apply app_inv_head in Ht. subst links. now left.
  - assert (Hne : a <> x) by (intros ->; now rewrite String.eqb_refl in Eax).
    destruct Hin as [-> | Hin]; [contradiction|].
    destruct (link_step_returns src_main sd false a count w) as [k Hk].
    pose proof (link_step_gentle src_main sd a count w)
      as [Hh [_ [K [Fr [new1 [T1 _]]]]]].
    destruct (link_step src_main sd false a count w) as [r1 w1] eqn:E.
    cbn [fst snd] in *. subst r1. rewrite (bind_ok _ _ _ _ _ E).
    destruct (keeps_dir _ _ _ _ K Hd) as [es1 Hd1].
    destruct (keeps_file _ _ _ K Hf) as [Hsame Hf1].
    pose proof (foldM_link_step_gentle src_main sd l k w1)
      as [_ [_ [_ [_ [new [Tn _]]]]]].
    rewrite Tn, T1, <- app_assoc. intros Ht.
    apply app_inv_head in Ht. subst links. apply in_or_app. right.
    apply (IH k w1 x es1 new); auto.
    + intros tr c. rewrite Hh. apply Ho.
    + unfold exists_, test. rewrite Fr; [exact Hx|].
      intros n [<- | []]. now apply diverge_siblings.
Qed.

Lemma lookup_below_dir t p a r n :
  lookup t (p ++ a :: r) = Some n -> exists es, lookup t p = Some (Dir es).
Proof.
  rewrite lookup_app. destruct (lookup t p) as [[ | es | ]|]; simpl;
    try discriminate. intros _. now exists es.
Qed.

Lemma lookup_listed t p x n es :
  lookup t p = Some (Dir es) -> lookup t (p ++ [x]) = Some n ->
  In x (names es).
Proof.
  intros Hp. rewrite lookup_app, Hp. simpl.
  destruct (find_entry x es) as [c|] eqn:E; [|discriminate]. intros _.
  unfold names. apply (in_map fst _ (x, c)). now apply find_entry_in.
Qed.

Lemma isfile_lookup t p : isfile t p = true -> exists n, lookup t p = Some n.
Proof.
  unfold isfile, test. destruct (lookup t p) as [n|]; [|discriminate].
  intros _. now exists n.
Qed.

Lemma isdir_lookup t p : isdir t p = true -> exists n, lookup t p = Some n.
Proof.
  unfold isdir, test. destruct (lookup t p) as [n|]; [|discriminate].
  intros _. now exists n.
Qed.

(** Stage C as a whole. *)
Lemma link_top_level_files_once_obliging src_main sd w es :
  obliging w ->
  lookup (fs w) sd = Some (Dir es) ->
  (exists em, lookup (fs w) src_main = Some (Dir em)) ->
  exists k w' links,
    link_top_level_files_once src_main sd false w = (Ok k, w')
    /\ host w' = host w /\ keeps (fs w) (fs w')
    /\ trace w' = trace w ++ links
    /\ Forall (fun ev => exists n,
                  ext_to_link n = true
                  /\ ev = (os_link (src_main ++ [n]) (sd ++ [n]), true)) links
    /\ forall x, isfile (fs w) (src_main ++ [x]) = true ->
                 ext_to_link x = true ->
                 exists_ (fs w) (sd ++ [x]) = false ->
                 lookup (fs w') (sd ++ [x]) = lookup (fs w) (src_main ++ [x])
                 /\ In (os_link (src_main ++ [x]) (sd ++ [x]), true) links.
Proof.
  intros Ho Hd [em Hm]. unfold link_top_level_files_once.
  assert (El : os_listdir src_main w = (Ok (names em), w)).
  { unfold os_listdir, listdir. now rewrite Hm. }
  rewrite (bind_ok _ _ _ _ _ El).
  destruct (foldM_link_step_returns src_main sd false (names em) 0 w)
    as [k Hk].
  pose proof (foldM_link_step_gentle src_main sd (names em) 0 w)
    as [Hh [_ [K _]]].
  pose proof (foldM_link_step_links src_main sd (names em) 0 w) as L.
  pose proof (foldM_link_step_link_made src_main sd (names em) 0 w) as M.
  destruct (foldM_link_step_hardlinks src_main sd (names em) 0 w es Ho Hd)
    as [links [Tl Fl]].
  destruct (foldM (link_step src_main sd false) (names em) 0 w) as [r1 w1].
  cbn [fst snd] in *. subst r1. exists k, w1, links.
  split; [reflexivity|]. split; [exact Hh|]. split; [exact K|].
  split; [exact Tl|]. split.
  { eapply Forall_impl; [|exact Fl]. intros ev [n [_ Hn]]. now exists n. }
  intros x Hf He Hx. destruct (isfile_lookup _ _ Hf) as [n Hn].
  assert (Hin : In x (names em)) by (eapply lookup_listed; eassumption).
  split.
  - apply (L x es); auto.
  - apply (M x es links); auto.
Qed.

(** The last stage of a run that installs everything. *)
Lemma execute_installs sd m progress w es :
  obliging w ->
  lookup (fs w) sd = Some (Dir es) ->
  isdir (fs w) (m ++ COnew_REL) = true ->
  lookup (fs w) (sd ++ ["Include"]) = None
  \/ (exists es', lookup (fs w) (sd ++ ["Include"]) = Some (Dir es')) ->
  exists_ (fs w) ((sd ++ ["Include"]) ++ ["COnew"]) = false ->
  exists_ (fs w) ((sd ++ ["Include"]) ++ ["COnew_2"]) = false ->
  let r := execute sd m false progress w in
  let tinc := sd ++ ["Include"] in
  fst r = Ok 0%Z
  /\ keeps (fs w) (fs (snd r))
  /\ lookup (fs (snd r)) (tinc ++ ["COnew"])
     = Some (Link Junction (m ++ COnew_REL))
  /\ lookup (fs (snd r)) (tinc ++ ["COnew_2"])
     = Some (Link Junction (m ++ COnew_REL))
  /\ (forall x, isfile (fs w) (m ++ [x]) = true ->
                ext_to_link x = true ->
                exists_ (fs w) (sd ++ [x]) = false ->
                lookup (fs (snd r)) (sd ++ [x]) = lookup (fs w) (m ++ [x]))
  /\ exists links,
       trace (snd r)
       = trace w ++ [(os_makedirs tinc, true); (os_makedirs tinc, true);
                     (mklink_J (tinc ++ ["COnew"]) (m ++ COnew_REL), true);
                     (mklink_J (tinc ++ ["COnew_2"]) (m ++ COnew_REL), true)]
                 ++ links
       /\ Forall (fun ev => exists n,
                     ext_to_link n = true
                     /\ ev = (os_link (m ++ [n]) (sd ++ [n]), true)) links
       /\ forall x, isfile (fs w) (m ++ [x]) = true ->
                    ext_to_link x = true ->
                    exists_ (fs w) (sd ++ [x]) = false ->
                    In (os_link (m ++ [x]) (sd ++ [x]), true) links.
Proof.
  intros Ho Hd Hc Hinc Ha1 Ha2. cbv zeta. unfold execute.
  set (tinc := sd ++ ["Include"]) in *.
  (* stage A *)
  destruct (makedirs_ready sd w es Ho Hd Hinc)
    as [wA [EA [CA [[esA HdA] [HabsA TA]]]]].
  fold tinc in EA, CA, HdA, HabsA, TA.
  rewrite (bind_ok _ _ _ _ _ EA).
  destruct (call_progress_ok progress (-1) wA) as [EP [FP [TP HP]]].
  rewrite (bind_ok _ _ _ _ _ EP).
  set (wP := snd (call_progress progress (-1) wA)) in *.
  assert (CP : calm tinc w wP).
  { apply (calm_trans tinc w wA wP); [exact CA | now apply calm_same]. }
  assert (HoP : obliging wP).
  { intros tr c. destruct CP as [Hh _]. rewrite Hh. apply Ho. }
  (* stage B *)
  assert (HdP : lookup (fs wP) tinc = Some (Dir esA)) by (now rewrite FP).
  assert (Ha1P : exists_ (fs wP) (tinc ++ ["COnew"]) = false)
    by (rewrite FP; now apply HabsA).
  assert (Ha2P : exists_ (fs wP) (tinc ++ ["COnew_2"]) = false)
    by (rewrite FP; now apply HabsA).
  destruct (create_conew_junctions_obliging (m ++ COnew_REL) tinc wP esA
              HoP HdP Ha1P Ha2P) as [wB [EB [CB [L1 [L2 TB]]]]].
  rewrite (bind_ok _ _ _ _ _ EB).
  assert (CwB : calm tinc w wB) by (eapply calm_trans; eassumption).
  destruct CwB as [HhB [KB SB]].
  assert (HoB : obliging wB) by (intros tr c; rewrite HhB; apply Ho).
  (* stage C *)
  destruct (keeps_dir _ _ _ _ KB Hd) as [esB HdB].
  destruct (isdir_lookup _ _ Hc) as [nc Hnc].
  destruct (lookup_below_dir _ _ _ _ _ Hnc) as [em Hm].
  destruct (keeps_dir _ _ _ _ KB Hm) as [emB HmB].
  destruct (link_top_level_files_once_obliging m sd wB esB HoB HdB
              (ex_intro _ emB HmB))
    as [k [wC [links [EC [_ [KC [TC [FC LC]]]]]]]].
  rewrite (bind_ok _ _ _ _ _ EC).
  assert (Fin : forall W,
             (_log (Linked_or_copied k) ;; call_progress progress 100 ;;
              _log Done ;; ret 0%Z) wC = W ->
             fst W = Ok 0%Z /\ fs (snd W) = fs wC
             /\ trace (snd W) = trace wC).
  { intros W <-. unfold bind, _log, call_progress, ret.
    now destruct progress. }
  destruct (Fin _ eq_refl) as [F1 [F2 F3]]. rewrite F1, F2, F3.
  assert (AtB : forall x, isfile (fs w) (m ++ [x]) = true ->
                  ext_to_link x = true ->
                  exists_ (fs w) (sd ++ [x]) = false ->
                  lookup (fs wB) (m ++ [x]) = lookup (fs w) (m ++ [x])
                  /\ isfile (fs wB) (m ++ [x]) = true
                  /\ exists_ (fs wB) (sd ++ [x]) = false).
  { intros x Hf He Hx. destruct (keeps_file _ _ _ KB Hf) as [Hsame HfB].
    split; [exact Hsame|]. split; [exact HfB|].
    unfold exists_, test. rewrite SB; [exact Hx|].
    unfold tinc. apply diverge_siblings. intros <-. discriminate He. }
  split; [reflexivity|].
  split; [eapply keeps_trans; eassumption|].
  split; [eapply keeps_junction; eassumption|].
  split; [eapply keeps_junction; eassumption|].
  split.
  { intros x Hf He Hx. destruct (AtB x Hf He Hx) as [Hsame [HfB HxB]].
    rewrite <- Hsame. now apply LC. }
  exists links. split.
  { rewrite TC, TB, TP, TA, <- !app_assoc. reflexivity. }
  split; [exact FC|].
  intros x Hf He Hx. destruct (AtB x Hf He Hx) as [_ [HfB HxB]].
  now apply LC.
Qed.

Lemma walk_node_under t :
  forall p dp dn fn, In (dp, dn, fn) (walk_node p t) -> under p dp.
Proof.
  induction t as [ | | es IH] using node_rect'; intros p dp dn fn Hin;
    try contradiction.
  rewrite walk_node_dir in Hin. destruct Hin as [[= <- <- <-] | Hin].
  - exists []. now rewrite app_nil_r.
  - unfold walk_entries in Hin. apply in_flat_map in Hin.
    destruct Hin as [[n c] [Hnc Hin]]. cbn [fst snd] in Hin.
    rewrite Forall_forall in IH.
    destruct (IH (n, c) Hnc _ _ _ _ Hin) as [rest ->].
    exists (n :: rest). now rewrite <- app_assoc.
Qed.

Lemma find_under root a w sd :
  fst (find_sectorfile_dir root a w) = Ok sd -> under root sd.
Proof.
  intros Hf. pose proof (find_outcome root a w) as O. cbv zeta in O.
  rewrite Hf in O.
  destruct O as [[-> _] | [[n [_ [-> _]]] | [_ [dn [fn [Hin _]]]]]].
  - exists []. now rewrite app_nil_r.
  - now exists [n].
  - unfold walk in Hin. destruct (lookup (fs w) root) as [d|];
      [|contradiction].
    eapply walk_node_under. exact Hin.
Qed.

Lemma lookup_file_beneath good x c :
  node_isdir c = false -> good x = true ->
  forall rest d, lookup d (rest ++ [x]) = Some c -> file_beneath good d.
Proof.
  intros Hc Hg. induction rest as [|n rest IH]; intros d Hl.
  - destruct d as [ | es | ]; simpl in Hl; try discriminate.
    destruct (find_entry x es) as [c'|] eqn:E; [|discriminate].
    injection Hl as ->. apply (beneath_here _ es x c).
    + now apply find_entry_in.
    + now split.
  - destruct d as [ | es | ]; simpl in Hl; try discriminate.
    destruct (find_entry n es) as [c'|] eqn:E; [|discriminate].
    apply (beneath_below _ es n c').
    + now apply find_entry_in.
    + now apply IH.
Qed.

Lemma under_dir t d p es :
  under d p -> lookup t p = Some (Dir es) ->
  exists ed, lookup t d = Some (Dir ed).
Proof.
  intros [rest ->]. destruct rest as [|a r].
  - rewrite app_nil_r. intros H. now exists es.
  - apply lookup_below_dir.
Qed.

(** A run on a willing system, from discovery to the last link. *)
Lemma run_installs_all (w : world) (aurora repo : path)
      (debug progress : bool) (sd0 m0 : path) (es : entries) :
  obliging w ->
  fst (find_sectorfile_dir (aurora_root_of aurora) true w) = Ok sd0 ->
  lookup (fs w) sd0 = Some (Dir es) ->
  src_main_of (fs w) repo = Some m0 ->
  isdir (fs w) (m0 ++ COnew_REL) = true ->
  lookup (fs w) (sd0 ++ ["Include"]) = None
  \/ (exists es', lookup (fs w) (sd0 ++ ["Include"]) = Some (Dir es')) ->
  exists_ (fs w) ((sd0 ++ ["Include"]) ++ ["COnew"]) = false ->
  exists_ (fs w) ((sd0 ++ ["Include"]) ++ ["COnew_2"]) = false ->
  let r := run aurora repo false false debug progress w in
  fst r = 0%Z
  /\ keeps (fs w) (fs (snd r))
  /\ lookup (fs (snd r)) ((sd0 ++ ["Include"]) ++ ["COnew"])
     = Some (Link Junction (m0 ++ COnew_REL))
  /\ lookup (fs (snd r)) ((sd0 ++ ["Include"]) ++ ["COnew_2"])
     = Some (Link Junction (m0 ++ COnew_REL))
  /\ (forall x, isfile (fs w) (m0 ++ [x]) = true ->
                ext_to_link x = true ->
                exists_ (fs w) (sd0 ++ [x]) = false ->
                lookup (fs (snd r)) (sd0 ++ [x]) = lookup (fs w) (m0 ++ [x]))
  /\ same_outside sd0 (fs w) (fs (snd r))
  /\ host (snd r) = host w
  /\ exists links,
       trace (snd r)
       = trace w
           ++ [(os_makedirs (sd0 ++ ["Include"]), true);
               (os_makedirs (sd0 ++ ["Include"]), true);
               (mklink_J ((sd0 ++ ["Include"]) ++ ["COnew"])
                         (m0 ++ COnew_REL), true);
               (mklink_J ((sd0 ++ ["Include"]) ++ ["COnew_2"])
                         (m0 ++ COnew_REL), true)]
           ++ links
       /\ Forall (fun ev => exists n,
                     ext_to_link n = true
                     /\ ev = (os_link (m0 ++ [n]) (sd0 ++ [n]), true)) links
       /\ forall x, isfile (fs w) (m0 ++ [x]) = true ->
                    ext_to_link x = true ->
                    exists_ (fs w) (sd0 ++ [x]) = false ->
                    In (os_link (m0 ++ [x]) (sd0 ++ [x]), true) links.
Proof.
  intros Ho Hfind Hsd Hmain Hconew Hinc Ha1 Ha2. cbv zeta.
  run_stages aurora repo false false debug progress w;
    try congruence.
  assert (sd0 = sd) by congruence. assert (m0 = m) by congruence. subst sd0 m0.
  assert (Ho3 : obliging w3) by (intros tr c; rewrite H3; apply Ho).
  rewrite <- F3 in Hsd, Hconew, Hinc, Ha1, Ha2.
  pose proof (execute_installs sd m progress w3 es Ho3 Hsd Hconew Hinc Ha1 Ha2)
    as X. cbv zeta in X.
  destruct (confined_execute sd m false progress w3) as [Hh [_ Hr]].
  unfold run. rewrite Hb.
  destruct (execute sd m false progress w3) as [r4 w4]. cbn [fst snd] in *.
  destruct X as [-> [K [J1 [J2 [L T]]]]]. cbn [fst snd].
  rewrite <- F3, <- H3, <- T3.
  repeat (split; [assumption || reflexivity|]). exact T.
Qed.

Lemma src_main_of_under t repo m : src_main_of t repo = Some m -> under repo m.
Proof.
  unfold src_main_of. destruct (_ && _).
  - intros [= <-]. exists []. now rewrite app_nil_r.
  - destruct (isdir _ _); [|discriminate]. intros [= <-].
    now exists ["SectorFile-MAIN"].
Qed.

Lemma src_main_of_same t t' repo :
  (forall q, under repo q -> lookup t' q = lookup t q) ->
  src_main_of t' repo = src_main_of t repo.
Proof.
  intros H. unfold src_main_of, isdir, test.
  rewrite (H repo), (H (repo ++ ["Include"])),
    (H (repo ++ ["SectorFile-MAIN"])); try reflexivity.
  - now exists ["SectorFile-MAIN"].
  - now exists ["Include"].
  - exists []. now rewrite app_nil_r.
Qed.

(** A run that finds an alias in place stops at it. *)
Lemma run_stops_at_alias (w : world) (aurora repo : path)
      (debug progress : bool) (sd0 m0 : path) :
  fst (find_sectorfile_dir (aurora_root_of aurora) true w) = Ok sd0 ->
  src_main_of (fs w) repo = Some m0 ->
  isdir (fs w) (m0 ++ COnew_REL) = true ->
  exists_ (fs w) ((sd0 ++ ["Include"]) ++ ["COnew"]) = true ->
  let r := run aurora repo false false debug progress w in
  fst r = 10%Z
  /\ fs (snd r) = fs w
  /\ last (logged (snd r)) Done
     = Unhandled_error (FileExistsError ((sd0 ++ ["Include"]) ++ ["COnew"])).
Proof.
  intros Hfind Hmain Hconew E1. cbv zeta.
  run_stages aurora repo false false debug progress w;
    try congruence.
  assert (sd0 = sd) by congruence. assert (m0 = m) by congruence. subst sd0 m0.
  unfold run. rewrite Hb. unfold execute. rewrite <- F3.
  set (tinc := sd ++ ["Include"]) in *.
  rewrite <- F3 in E1.
  assert (S1 : makedirs_exist_ok tinc w3
               = (Ok tt, record (os_makedirs tinc, true) (fs w3) w3)).
  { apply makedirs_present. eapply exists_below_isdir. exact E1. }
  set (w4 := record (os_makedirs tinc, true) (fs w3) w3) in *.
  destruct (call_progress_ok progress (-1) w4) as [Ep [Fp [Tp _]]].
  set (w5 := snd (call_progress progress (-1) w4)) in *.
  rewrite (bind_ok _ _ _ _ _ S1), (bind_ok _ _ _ _ _ Ep).
  assert (E5 : exists_ (fs w5) (tinc ++ ["COnew"]) = true)
    by (now rewrite Fp).
  rewrite (bind_raise _ _ _ _ _
             (create_conew_junctions_first_exists (m ++ COnew_REL) tinc w5 E5)).
  cbn [fst snd _log logged trace record fs]. rewrite Fp.
  split; [reflexivity|]. split; [reflexivity|]. apply last_last.
Qed.

End InstallFacts.

(* ------------------------------------------------------------------ *)
(** ** Further properties of discovery *)

Section DiscoveryExtras.
Import FsFacts DiscoveryFacts DiscoveryMore.



(** X2.  Discovery only reads: it makes no mutating call and leaves the
    file system and the progress callback alone.  It logs nothing, except
    for the one line that says that it accepts a folder by its name, which
    is then the folder it returns. *)
Theorem find_sectorfile_dir_reads_only (w : world) (root : path) (a : bool) :
  let r := find_sectorfile_dir root a w in
  fs (snd r) = fs w /\ trace (snd r) = trace w /\ shown (snd r) = shown w
  /\ host (snd r) = host w
  /\ (logged (snd r) = logged w
      \/ exists n, In n conventional_names /\ a = true
                   /\ fst r = Ok (root ++ [n])
                   /\ looks_like_sectorfile (fs w) (root ++ [n]) = false
                   /\ logged (snd r)
                      = logged w ++ [Accepting_folder_by_name (root ++ [n])]).
Proof.
  cbv zeta. pose proof (find_outcome root a w) as O. cbv zeta in O.
  destruct (find_sectorfile_dir root a w) as [[sd|e] w1]; cbn [fst snd] in *.
  - destruct O as [[_ [_ [_ ->]]]
                  | [[n [Hn [-> [_ [[_ ->] | [Hl [-> ->]]]]]]]
                    | [-> _]]];
      repeat split; auto.
    right. exists n. now repeat split.
  - destruct O as [_ [-> _]]. repeat split. now left.
Qed.



(** X4.  Soundness of discovery.  In a file system whose directories have
    distinct entry names, whatever [find_sectorfile_dir] returns lies at or
    below the root and is a directory; it has [Include] in it or an [.isc]
    file beneath it, unless it was accepted by its conventional name. *)
Theorem find_sectorfile_dir_sound
        (w : world) (root sd : path) (a : bool) :
  well_formed (fs w) = true ->
  fst (find_sectorfile_dir root a w) = Ok sd ->
  under root sd
  /\ isdir (fs w) sd = true
  /\ (looks_like_sectorfile (fs w) sd = true
      \/ (a = true /\ exists n, In n conventional_names /\ sd = root ++ [n])).
Proof.
  intros Hw Hf. pose proof (find_outcome root a w) as O. cbv zeta in O.
  rewrite Hf in O.
  destruct O as [[-> [Hd [Hl _]]]
                | [[n [Hn [-> [Hd [[Hl _] | [_ [-> _]]]]]]]
                  | [_ [dn [fn [Hin Hr]]]]]].
  - split; [exists []; now rewrite app_nil_r|]. split; [exact Hd | now left].
  - split; [now exists [n]|]. split; [exact Hd | now left].
  - split; [now exists [n]|]. split; [exact Hd|]. right. split; [reflexivity|].
    now exists n.
  - unfold walk in Hin. destruct (lookup (fs w) root) as [d|] eqn:Ed;
      [|contradiction].
    destruct (walk_describes d (well_formed_lookup _ _ _ Hw Ed) _ _ _ _ Hin)
      as [rest [es [-> [Hl [-> ->]]]]].
    assert (Hsd : lookup (fs w) (root ++ rest) = Some (Dir es))
      by (now rewrite lookup_app, Ed).
    split; [now exists rest|]. split.
    + unfold isdir, test. now rewrite Hsd.
    + left. unfold looks_like_sectorfile, remarkable in *. cbn [fst snd] in Hr.
      apply orb_true_iff in Hr. apply orb_true_iff. destruct Hr as [Hr | Hr].
      * left. apply str_in_true, dirnames_in in Hr.
        destruct Hr as [c [Hc Hdir]].
        pose proof (well_formed_lookup _ _ _ Hw Hsd) as Wd.
        unfold isdir, test. rewrite lookup_app, Hsd. simpl.
        now rewrite (distinct_find _ _ _ (proj1 (well_formed_dir es Wd)) Hc).
      * right. unfold any_isc, walk. rewrite Hsd, walk_node_dir.
        cbn [existsb snd]. now rewrite Hr.
Qed.

(** The theorem above, at a concrete installation. *)
Lemma find_sectorfile_dir_sound_witness :
  under ["aurora"] ["aurora"; "Data"]
  /\ isdir (fs (fresh unconventional willing)) ["aurora"; "Data"] = true
  /\ (looks_like_sectorfile (fs (fresh unconventional willing))
        ["aurora"; "Data"] = true
      \/ (false = true
          /\ exists n, In n conventional_names
                       /\ ["aurora"; "Data"] = ["aurora"] ++ [n])).
Proof.
  apply (find_sectorfile_dir_sound (fresh unconventional willing)
           ["aurora"] ["aurora"; "Data"] false); reflexivity.
Defined.

End DiscoveryExtras.

(* ------------------------------------------------------------------ *)
(** ** Further properties of the link primitive and of the file pass *)

Section LinkExtras.
Import FsFacts FsMore CallFacts CallMore Confinement PolicyMore.

(** X5.  [_create_file_link] to a destination that does not exist.  It
    makes link attempts only, never a copy or a removal.  When it returns
    [True], the last call it made is the one attempt that succeeded, and
    that call made the destination: [os.link] or [mklink /H], and the
    destination is then the very node of the source, or [os.symlink], and
    it is then a symbolic link that points to the source.  When it returns
    [False], every attempt was refused and the file system is as before.
    Either way nothing that was there is removed or altered, and nothing
    changes away from the destination. *)
Theorem create_file_link_on_free_destination (src dst : path) (w : world) :
  exists_ (fs w) dst = false ->
  let r := _create_file_link src dst w in
  let mechanisms := [os_link src dst; os_symlink src dst; mklink_H dst src] in
  keeps (fs w) (fs (snd r))
  /\ same_outside dst (fs w) (fs (snd r))
  /\ exists refused,
       Forall (fun ev => In (fst ev) mechanisms /\ snd ev = false) refused
       /\ ((fst r = Ok true
            /\ exists c,
                 In c mechanisms
                 /\ trace (snd r) = trace w ++ refused ++ [(c, true)]
                 /\ effect (fs w) c = Some (fs (snd r))
                 /\ exists_ (fs (snd r)) dst = true
                 /\ (c = os_symlink src dst ->
                     exists k, lookup (fs (snd r)) dst = Some (Link k src))
                 /\ (c <> os_symlink src dst ->
                     lookup (fs (snd r)) dst = lookup (fs w) src))
           \/ (fst r = Ok false
               /\ trace (snd r) = trace w ++ refused
               /\ fs (snd r) = fs w)).
Proof.
  intros Hx. cbv zeta. rewrite (create_file_link_free src dst w Hx).
  assert (Hn : lookup (fs w) dst = None).
  { unfold exists_, test in Hx. now destruct (lookup (fs w) dst). }
  assert (S : forall c t',
             In c [os_link src dst; os_symlink src dst; mklink_H dst src] ->
             effect (fs w) c = Some t' ->
             keeps (fs w) t' /\ same_outside dst (fs w) t'
             /\ exists_ t' dst = true
             /\ (c = os_symlink src dst ->
                 exists k, lookup t' dst = Some (Link k src))
             /\ (c <> os_symlink src dst -> lookup t' dst = lookup (fs w) src)).
  { intros c t' Hc He.
    assert (Hd : destructive c = false)
      by (destruct Hc as [<- | [<- | [<- | []]]]; reflexivity).
    assert (Hw : written c = dst)
      by (destruct Hc as [<- | [<- | [<- | []]]]; reflexivity).
    split; [eapply effect_keeps; eassumption|]. split.
    { intros q Hq. eapply effect_frame; [exact He | now rewrite Hw]. }
    assert (L : (c = os_symlink src dst ->
                 exists k, lookup t' dst = Some (Link k src))
                /\ (c <> os_symlink src dst ->
                    lookup t' dst = lookup (fs w) src)
                /\ exists v, lookup t' dst = Some v).
    { destruct Hc as [<- | [<- | [<- | []]]]; simpl in He; rewrite Hn in He.
      - destruct (lookup (fs w) src) as [[d| |k tg]|]; try discriminate He;
          (split; [discriminate|]);
          (split; [intros _ | eexists]); eapply update_lookup_same; exact He.
      - split; [intros _; eexists; eapply update_lookup_same; exact He|].
        split; [intros N; now contradiction N|].
        eexists. eapply update_lookup_same; exact He.
      - destruct (lookup (fs w) src) as [[d| |k tg]|]; try discriminate He;
          (split; [discriminate|]);
          (split; [intros _ | eexists]); eapply update_lookup_same; exact He. }
    destruct L as [L1 [L2 [v Hv]]].
    split; [unfold exists_, test; now rewrite Hv|]. split; assumption. }
  pose proof (link_attempts_granted src dst w) as L. cbv zeta in L.
  destruct L as [attempts [Ha Hcases]].
  destruct Hcases as [[Hr [-> G1]] | [[Hr [-> [_ G2]]]
                     | [[Hr [-> [_ [_ G3]]]] | [Hr [-> [_ [_ [_ Hf]]]]]]]].
  - destruct (S _ _ (or_introl eq_refl) (granted_effect _ _ _ _ _ G1))
      as [K [F [E [L1 L2]]]].
    split; [exact K|]. split; [exact F|]. exists []. split; [constructor|].
    left. split; [exact Hr|]. exists (os_link src dst).
    split; [now left|]. split; [exact Ha|].
    split; [exact (granted_effect _ _ _ _ _ G1)|]. now repeat split.
  - destruct (S _ _ (or_intror (or_introl eq_refl))
                (granted_effect _ _ _ _ _ G2)) as [K [F [E [L1 L2]]]].
    split; [exact K|]. split; [exact F|].
    exists [(os_link src dst, false)]. split.
    { repeat (apply Forall_cons; [split; [cbn; tauto | reflexivity]|]).
      apply Forall_nil. }
    left. split; [exact Hr|]. exists (os_symlink src dst).
    split; [right; now left|]. split; [exact Ha|].
    split; [exact (granted_effect _ _ _ _ _ G2)|]. now repeat split.
  - destruct (S _ _ (or_intror (or_intror (or_introl eq_refl)))
                (granted_effect _ _ _ _ _ G3)) as [K [F [E [L1 L2]]]].
    split; [exact K|]. split; [exact F|].
    exists [(os_link src dst, false); (os_symlink src dst, false)]. split.
    { repeat (apply Forall_cons; [split; [cbn; tauto | reflexivity]|]).
      apply Forall_nil. }
    left. split; [exact Hr|]. exists (mklink_H dst src).
    split; [right; right; now left|]. split; [exact Ha|].
    split; [exact (granted_effect _ _ _ _ _ G3)|]. now repeat split.
  - rewrite Hf. split; [exact (keeps_refl _)|].
    split; [apply same_outside_refl|].
    exists [(os_link src dst, false); (os_symlink src dst, false);
            (mklink_H dst src, false)]. split.
    { repeat (apply Forall_cons; [split; [cbn; tauto | reflexivity]|]).
      apply Forall_nil. }
    right. now repeat split.
Qed.

(** The theorem above, at a concrete installation. *)
Lemma create_file_link_on_free_destination_witness :
  let w := fresh installed_empty willing in
  let src := ["repo"; "SectorFile-MAIN"; "colombia.isc"] in
  let dst := ["aurora"; "SectorFiles"; "colombia.isc"] in
  let r := _create_file_link src dst w in
  let mechanisms := [os_link src dst; os_symlink src dst; mklink_H dst src] in
  keeps (fs w) (fs (snd r))
  /\ same_outside dst (fs w) (fs (snd r))
  /\ exists refused,
       Forall (fun ev => In (fst ev) mechanisms /\ snd ev = false) refused
       /\ ((fst r = Ok true
            /\ exists c,
                 In c mechanisms
                 /\ trace (snd r) = trace w ++ refused ++ [(c, true)]
                 /\ effect (fs w) c = Some (fs (snd r))
                 /\ exists_ (fs (snd r)) dst = true
                 /\ (c = os_symlink src dst ->
                     exists k, lookup (fs (snd r)) dst = Some (Link k src))
                 /\ (c <> os_symlink src dst ->
                     lookup (fs (snd r)) dst = lookup (fs w) src))
           \/ (fst r = Ok false
               /\ trace (snd r) = trace w ++ refused
               /\ fs (snd r) = fs w)).
Proof.
  apply (create_file_link_on_free_destination
           ["repo"; "SectorFile-MAIN"; "colombia.isc"]
           ["aurora"; "SectorFiles"; "colombia.isc"]
           (fresh installed_empty willing)).
  reflexivity.
Defined.

(** X7.  The file pass raises only when the source main folder cannot be
    listed, and then it has done nothing; a file that can be neither linked
    nor copied never makes it raise. *)
Theorem link_top_level_files_once_raises_iff
        (src_main sd : path) (force : bool) (w : world) :
  let r := link_top_level_files_once src_main sd force w in
  (forall e, fst r = Raise e ->
             e = NotADirectoryError src_main /\ snd r = w)
  /\ (fst r = Raise (NotADirectoryError src_main) <->
      listdir (fs w) src_main = None).
Proof.
  cbv zeta. unfold link_top_level_files_once, bind, os_listdir.
  destruct (listdir (fs w) src_main) as [l|] eqn:El.
  - destruct (foldM_link_step_returns src_main sd force l 0 w) as [k Hk].
    destruct (foldM _ l 0 w) as [r1 w1]. cbn [fst snd] in *. subst r1.
    split; [discriminate|]. split; discriminate.
  - cbn [fst snd]. split; [now intros e [= <-] | now split].
Qed.

(** X8.  The file pass writes only at destinations named after an entry of
    the source main folder that has a recognized extension: every mutating
    call it makes, forced or not, targets such a path. *)
Theorem link_top_level_files_once_writes_listed
        (src_main sd : path) (force : bool) (w : world) (l : list string) :
  listdir (fs w) src_main = Some l ->
  exists new,
    trace (snd (link_top_level_files_once src_main sd force w))
    = trace w ++ new
    /\ Forall (fun ev => writes_listed sd l (fst ev)) new.
Proof.
  intros Hl.
  assert (Rr : forall t : node, True) by (intros; exact I).
  assert (Rt : forall t1 t2 t3 : node, True -> True -> True)
    by (intros; exact I).
  assert (S : forall a, In a l ->
            forall b, stays (writes_listed sd l) (fun _ _ => True)
                            (link_step src_main sd force a b)).
  { intros a Ha b. unfold link_step.
    apply stays_bind; [exact Rt | now apply stays_ask | intros f].
    destruct (negb f); [now apply stays_ret|].
    destruct (ext_to_link a) eqn:Ea; [|now apply stays_ret].
    assert (W : forall c, written c = sd ++ [a] -> writes_listed sd l c)
      by (intros c Hc; exists a; now repeat split).
    assert (Sy : forall c, written c = sd ++ [a] ->
                   stays (writes_listed sd l) (fun _ _ => True) (sys c)).
    { intros c Hc. apply stays_sys; [exact Rr | now apply W | auto]. }
    assert (At : stays (writes_listed sd l) (fun _ _ => True)
                   (attempt_link (src_main ++ [a]) (sd ++ [a]) b)).
    { unfold attempt_link, _create_file_link, _try_hardlink, _try_symlink,
        _try_mklink_hard.
      repeat first
        [ apply stays_ret; exact Rr
        | apply stays_log; exact Rr
        | apply stays_ask; exact Rr
        | apply Sy; reflexivity
        | apply stays_bind; [exact Rt | | intros ?]
        | apply stays_try; [exact Rt | | intros ?]
        | match goal with
          | |- stays _ _ (if ?x then _ else _) => destruct x
          end ]. }
    apply stays_bind; [exact Rt | now apply stays_ask | intros ex].
    destruct ex; [|exact At]. destruct force.
    - apply stays_bind; [exact Rt | | intros _; exact At].
      apply stays_try; [exact Rt | now apply Sy |].
      intros e. now apply stays_log.
    - apply stays_bind; [exact Rt | now apply stays_log |].
      intros _. now apply stays_ret. }
  assert (F : forall l', incl l' l ->
            forall b, stays (writes_listed sd l) (fun _ _ => True)
                            (foldM (link_step src_main sd force) l' b)).
  { induction l' as [|a l' IH]; intros Hi b; simpl.
    - now apply stays_ret.
    - apply stays_bind; [exact Rt | apply S, Hi; now left |].
      intros b'. apply IH. intros x Hx. apply Hi. now right. }
  unfold link_top_level_files_once, bind, os_listdir. rewrite Hl.
  destruct (F l (incl_refl l) 0 w) as [_ [H _]]. exact H.
Qed.

(** The theorem above, at a concrete installation. *)
Lemma link_top_level_files_once_writes_listed_witness :
  let w := fresh installed_empty unwilling in
  exists new,
    trace (snd (link_top_level_files_once ["repo"; "SectorFile-MAIN"]
                  ["aurora"; "SectorFiles"] true w))
    = trace w ++ new
    /\ Forall (fun ev =>
                 writes_listed ["aurora"; "SectorFiles"]
                   ["Include"; "colombia.isc"; "Colours.CLR"; "README.md"]
                   (fst ev)) new.
Proof.
  apply (link_top_level_files_once_writes_listed
           ["repo"; "SectorFile-MAIN"] ["aurora"; "SectorFiles"] true
           (fresh installed_empty unwilling)).
  reflexivity.
Defined.

(** X9.  Without [force], a pass in which every recognized file of the
    source already has its destination (a file, a directory, or a link
    whose target exists: a dangling link does not count) makes no call at
    all, leaves the file system as it is and returns 0. *)
Theorem link_top_level_files_once_all_present
        (src_main sd : path) (w : world) (l : list string) :
  listdir (fs w) src_main = Some l ->
  (forall n, In n l -> isfile (fs w) (src_main ++ [n]) = true ->
             ext_to_link n = true -> alive (fs w) (sd ++ [n]) = true) ->
  let r := link_top_level_files_once src_main sd false w in
  fst r = Ok 0 /\ fs (snd r) = fs w /\ trace (snd r) = trace w.
Proof.
  intros Hl Hall. cbv zeta.
  unfold link_top_level_files_once, bind, os_listdir. rewrite Hl.
  assert (St : forall a w', fs w' = fs w -> In a l ->
             exists w'', link_step src_main sd false a 0 w' = (Ok 0, w'')
                         /\ fs w'' = fs w /\ trace w'' = trace w').
  { intros a w' Hw Ha. rewrite link_step_unfold.
    unfold bind, ask, ret, _log. cbv beta iota. rewrite Hw.
    destruct (isfile (fs w) (src_main ++ [a])) eqn:Ef; cbn [negb];
      [|now exists w'].
    destruct (ext_to_link a) eqn:Ea; [|now exists w'].
    cbv beta iota. rewrite Hw, (alive_exists _ _ (Hall a Ha Ef Ea)). eexists.
    split; [reflexivity|]. now split. }
  assert (F : forall l' w', fs w' = fs w -> incl l' l ->
            fst (foldM (link_step src_main sd false) l' 0 w') = Ok 0
            /\ fs (snd (foldM (link_step src_main sd false) l' 0 w')) = fs w
            /\ trace (snd (foldM (link_step src_main sd false) l' 0 w'))
               = trace w').
  { induction l' as [|a l' IH]; intros w' Hw Hi; simpl; [now repeat split|].
    assert (Hi' : incl l' l) by (intros x Hx; apply Hi; now right).
    destruct (St a w' Hw (Hi a (or_introl eq_refl))) as [w'' [E [Hf Ht]]].
    unfold bind. rewrite E, <- Ht. now apply IH. }
  apply (F l w eq_refl (incl_refl l)).
Qed.

(** The theorem above, at a concrete installation. *)
Lemma link_top_level_files_once_all_present_witness :
  let w := fresh files_in_place willing in
  let r := link_top_level_files_once ["repo"; "SectorFile-MAIN"]
             ["aurora"; "SectorFiles"] false w in
  fst r = Ok 0 /\ fs (snd r) = fs w /\ trace (snd r) = trace w.
Proof.
  apply (link_top_level_files_once_all_present
           ["repo"; "SectorFile-MAIN"] ["aurora"; "SectorFiles"]
           (fresh files_in_place willing)
           ["Include"; "colombia.isc"; "Colours.CLR"; "README.md"]).
  - reflexivity.
  - intros n [<- | [<- | [<- | [<- | []]]]] Hf He;
      try discriminate Hf; try discriminate He; reflexivity.
Defined.

End LinkExtras.

(* ------------------------------------------------------------------ *)
(** ** Further properties of [run] *)

Section RunExtras.
Import FsFacts FsMore DiscoveryFacts CallFacts Confinement PolicyMore RunFacts
  RunMore.

(** X10.  A run without [force] is not destructive: it calls neither
    [os.remove] nor [shutil.rmtree], every file and link that was in the
    file system is still there, unchanged, and every directory is still a
    directory. *)
Theorem run_without_force_keeps_everything
        (aurora repo : path) (dry_run debug progress : bool) (w : world) :
  let r := run aurora repo false dry_run debug progress w in
  keeps (fs w) (fs (snd r))
  /\ exists new,
       trace (snd r) = trace w ++ new
       /\ Forall (fun ev => is_removal (fst ev) = false) new.
Proof.
  cbv zeta.
  assert (Q : fs (snd (run aurora repo false dry_run debug progress w)) = fs w ->
              trace (snd (run aurora repo false dry_run debug progress w))
              = trace w ->
              keeps (fs w) (fs (snd (run aurora repo false dry_run debug
                                         progress w)))
              /\ exists new,
                   trace (snd (run aurora repo false dry_run debug progress w))
                   = trace w ++ new
                   /\ Forall (fun ev => is_removal (fst ev) = false) new).
  { intros F T. rewrite F. split; [exact (keeps_refl _)|].
    exists []. rewrite app_nil_r. split; [exact T | constructor]. }
  run_stages aurora repo false dry_run debug progress w;
    try (apply Q; assumption).
  unfold run. rewrite Hb.
  destruct (harmless_execute sd m progress w3) as [_ [[new [Ht Hn]] Hk]].
  rewrite F3 in Hk. rewrite T3 in Ht.
  destruct (execute sd m false progress w3) as [[code|e] w4];
    cbn [snd fs trace _log] in *; (split; [exact Hk | now exists new]).
Qed.

(** X11.  The last line logged tells the outcome: [Done] after a real run
    that returns 0, the announcement of the file linking after a dry run
    that returns 0, the missing repository for 2, the missing shared
    directory for 3, and the unhandled error for 10. *)
Theorem run_logs_its_outcome
        (aurora repo : path) (force dry_run debug progress : bool) (w : world) :
  let r := run aurora repo force dry_run debug progress w in
  let final := last (logged (snd r)) DRY_RUN in
  (fst r = 0%Z ->
   if dry_run then exists m sd, final = Would_link m sd else final = Done)
  /\ (fst r = 2%Z -> final = ERROR_repository_not_found repo)
  /\ (fst r = 3%Z -> exists p, final = ERROR_expected_source p)
  /\ (fst r = 10%Z -> exists e, final = Unhandled_error e).
Proof.
  cbv zeta.
  pose proof (run_body_cases aurora repo force dry_run debug progress w) as C.
  cbv zeta in C. unfold run.
  destruct (find_sectorfile_dir _ true _) as [[sd|e] w1]; cbn [fst snd] in C.
  2: { rewrite C. cbn [fst snd _log logged]. rewrite last_last.
       repeat split; try discriminate. intros _. now exists e. }
  destruct (src_main_of (fs w) repo) as [m|].
  2: { rewrite C. cbn [fst snd say logged]. rewrite last_last.
       repeat split; try discriminate. }
  destruct (isdir (fs w) (m ++ COnew_REL)).
  2: { rewrite C. cbn [fst snd say logged]. rewrite last_last.
       repeat split; try discriminate. intros _. eexists. reflexivity. }
  destruct dry_run.
  { rewrite C. cbn [fst snd say logged]. rewrite last_last.
    repeat split; try discriminate. intros _. now exists m, sd. }
  rewrite C.
  destruct (execute_shape sd m force progress
              (say (Target_include_dir (sd ++ ["Include"]))
                   (say (Sectorfile_root sd) w1)))
    as [[Hr [_ Hl]] | [e [Hr _]]];
    destruct (execute sd m force progress _) as [r4 w4];
    cbn [fst snd] in *; subst r4; cbn [fst snd].
  - rewrite Hl. repeat split; try discriminate.
  - cbn [fst snd _log logged]. rewrite last_last.
    repeat split; try discriminate. intros _. now exists e.
Qed.

(** X12.  The progress callback.  A run passes it nothing, or -1, or -1
    and then 100; it passes both exactly when a callback is given, the run
    is not a dry run and the code is 0. *)
Theorem run_progress_values
        (aurora repo : path) (force dry_run debug progress : bool) (w : world) :
  let r := run aurora repo force dry_run debug progress w in
  exists calls,
    shown (snd r) = shown w ++ calls
    /\ (calls = [] \/ calls = [-1]%Z \/ calls = [-1; 100]%Z)
    /\ (calls = [-1; 100]%Z <->
        progress = true /\ dry_run = false /\ fst r = 0%Z).
Proof.
  cbv zeta.
  pose proof (run_body_cases aurora repo force dry_run debug progress w) as C.
  cbv zeta in C.
  pose proof (find_reads (aurora_root_of aurora) true
                (say (Detecting_under (aurora_root_of aurora)) w))
    as [_ [_ [_ S]]].
  change (shown (say (Detecting_under (aurora_root_of aurora)) w))
    with (shown w) in S.
  assert (N : forall code : Z, code <> 0%Z \/ dry_run = true ->
            ([] = [-1; 100]%Z <->
             progress = true /\ dry_run = false /\ code = 0%Z)).
  { intros code H. split; [discriminate|]. intros [_ [Hd Hc]].
    destruct H; congruence. }
  unfold run.
  destruct (find_sectorfile_dir _ true _) as [[sd|e] w1]; cbn [fst snd] in *.
  2: { rewrite C. exists []. cbn [fst snd _log shown]. rewrite app_nil_r.
       split; [exact S|]. split; [now left|]. apply N. now left. }
  destruct (src_main_of (fs w) repo) as [m|].
  2: { rewrite C. exists []. cbn [fst snd say shown]. rewrite app_nil_r.
       split; [exact S|]. split; [now left|]. apply N. now left. }
  destruct (isdir (fs w) (m ++ COnew_REL)).
  2: { rewrite C. exists []. cbn [fst snd say shown]. rewrite app_nil_r.
       split; [exact S|]. split; [now left|]. apply N. now left. }
  destruct dry_run.
  { rewrite C. exists []. cbn [fst snd say shown]. rewrite app_nil_r.
    split; [exact S|]. split; [now left|]. apply N. now right. }
  rewrite C.
  destruct (execute_shape sd m force progress
              (say (Target_include_dir (sd ++ ["Include"]))
                   (say (Sectorfile_root sd) w1)))
    as [[Hr [Hs _]] | [e [Hr Hs]]];
    destruct (execute sd m force progress _) as [r4 w4];
    cbn [fst snd say shown _log] in *; subst r4; cbn [fst snd shown _log].
  - rewrite S in Hs. destruct progress.
    + exists [-1; 100]%Z. split; [exact Hs|]. split; [now right; right|].
      now split.
    + exists []. split; [exact Hs|]. split; [now left|].
      split; [discriminate | now intros [? _]].
  - rewrite S in Hs. destruct Hs as [Hs | Hs].
    + exists []. rewrite app_nil_r. split; [exact Hs|]. split; [now left|].
      split; [discriminate | now intros [_ [_ ?]]].
    + destruct progress.
      * exists [-1]%Z. split; [exact Hs|]. split; [right; now left|].
        split; [discriminate | now intros [_ [_ ?]]].
      * exists []. split; [exact Hs|]. split; [now left|].
        split; [discriminate | now intros [? _]].
Qed.

End RunExtras.

(* ------------------------------------------------------------------ *)
(** ** Further properties of the directory links *)

Section JunctionExtras.
Import FsFacts FsMore CallFacts CallMore AliasFacts Confinement JunctionMore.

(** X6.  When the target [Include] directory exists and either [force] is
    set or neither alias exists, [create_conew_junctions] does not raise.
    It attempts [mklink /J] for both aliases, the second also when the first
    failed; it returns the aliases whose junction was made, in order, and
    each of them is then a junction to the source directory. *)
Theorem create_conew_junctions_attempts_both
        (src tdir : path) (force : bool) (w : world) :
  isdir (fs w) tdir = true ->
  force = true
  \/ (exists_ (fs w) (tdir ++ ["COnew"]) = false
      /\ exists_ (fs w) (tdir ++ ["COnew_2"]) = false) ->
  let r := create_conew_junctions src tdir force w in
  exists (b1 b2 : bool) (new : list event),
    fst r = Ok ((if b1 then [tdir ++ ["COnew"]] else [])
                ++ (if b2 then [tdir ++ ["COnew_2"]] else []))
    /\ trace (snd r) = trace w ++ new
    /\ In (mklink_J (tdir ++ ["COnew"]) src, b1) new
    /\ In (mklink_J (tdir ++ ["COnew_2"]) src, b2) new
    /\ (b1 = true ->
        lookup (fs (snd r)) (tdir ++ ["COnew"]) = Some (Link Junction src))
    /\ (b2 = true ->
        lookup (fs (snd r)) (tdir ++ ["COnew_2"]) = Some (Link Junction src)).
Proof.
  intros Hdir Hpre. cbv zeta. unfold create_conew_junctions.
  rewrite (bind_ok _ _ _ _ _ (makedirs_present tdir w Hdir)).
  set (w1 := record (os_makedirs tdir, true) (fs w) w).
  cbn [foldM].
  assert (P1 : force = true \/ exists_ (fs w1) (tdir ++ ["COnew"]) = false)
    by (destruct Hpre as [H | [H _]]; [now left | now right]).
  destruct (junction_step_shape src tdir force "COnew" [] w1 P1)
    as [b1 [Hr1 [_ [Hs1 [Hl1 [pre1 [Ht1 _]]]]]]].
  destruct (junction_step src tdir force "COnew" [] w1) as [r1 w2] eqn:E1.
  cbn [fst snd] in *. subst r1. rewrite (bind_ok _ _ _ _ _ E1).
  assert (P2 : force = true \/ exists_ (fs w2) (tdir ++ ["COnew_2"]) = false).
  { destruct Hpre as [H | [_ H]]; [now left | right].
    unfold exists_, test. rewrite Hs1; [exact H|].
    apply diverge_siblings. discriminate. }
  destruct (junction_step_shape src tdir force "COnew_2"
              (if b1 then [] ++ [tdir ++ ["COnew"]] else []) w2 P2)
    as [b2 [Hr2 [_ [Hs2 [Hl2 [pre2 [Ht2 _]]]]]]].
  destruct (junction_step src tdir force "COnew_2" _ w2) as [r2 w3] eqn:E2.
  cbn [fst snd] in *. subst r2. rewrite (bind_ok _ _ _ _ _ E2).
  cbn [fst snd ret].
  exists b1, b2,
    ([(os_makedirs tdir, true)] ++ pre1
     ++ [(mklink_J (tdir ++ ["COnew"]) src, b1)] ++ pre2
     ++ [(mklink_J (tdir ++ ["COnew_2"]) src, b2)]).
  split; [now destruct b1, b2|]. split.
  { rewrite Ht2, Ht1. unfold w1. cbn [trace record].
    now rewrite <- !app_assoc. }
  split; [apply in_or_app; right; apply in_or_app; right; now left|].
  split.
  { apply in_or_app. right. apply in_or_app. right. apply in_cons.
    apply in_or_app. right. now left. }
  split; [|exact Hl2].
  intros Hb. rewrite Hs2; [now apply Hl1|].
  apply diverge_siblings. discriminate.
Qed.

(** The theorem above, at a concrete installation. *)
Lemma create_conew_junctions_attempts_both_witness :
  let w := fresh first_alias_present willing in
  let tdir := ["aurora"; "SectorFiles"; "Include"] in
  let src := ["repo"; "SectorFile-MAIN"; "Include"; "COnew"] in
  let r := create_conew_junctions src tdir true w in
  exists (b1 b2 : bool) (new : list event),
    fst r = Ok ((if b1 then [tdir ++ ["COnew"]] else [])
                ++ (if b2 then [tdir ++ ["COnew_2"]] else []))
    /\ trace (snd r) = trace w ++ new
    /\ In (mklink_J (tdir ++ ["COnew"]) src, b1) new
    /\ In (mklink_J (tdir ++ ["COnew_2"]) src, b2) new
    /\ (b1 = true ->
        lookup (fs (snd r)) (tdir ++ ["COnew"]) = Some (Link Junction src))
    /\ (b2 = true ->
        lookup (fs (snd r)) (tdir ++ ["COnew_2"]) = Some (Link Junction src)).
Proof.
  apply (create_conew_junctions_attempts_both
           ["repo"; "SectorFile-MAIN"; "Include"; "COnew"]
           ["aurora"; "SectorFiles"; "Include"] true
           (fresh first_alias_present willing)).
  - reflexivity.
  - left. reflexivity.
Defined.

End JunctionExtras.

(* ------------------------------------------------------------------ *)
(** ** A run that installs, and what follows it *)

Section InstallExtras.
Import FsFacts FsMore DiscoveryFacts CallFacts CallMore AliasFacts Confinement
  PolicyMore JunctionMore DiscoveryMore RunFacts InstallFacts.





(** X15.  Discovery after an installation.  After a complete unforced
    installation on a system where no call fails, when the sectorfile
    directory was the root itself or the run linked a file whose name ends
    in [.isc], discovery from the same root returns the root: an
    installation made into a folder below the root is not found again once
    it holds an [.isc] file. *)
Theorem discovery_after_install_returns_root
        (w : world) (aurora repo : path) (debug progress a : bool)
        (sd0 m0 : path) (es : entries) :
  obliging w ->
  fst (find_sectorfile_dir (aurora_root_of aurora) true w) = Ok sd0 ->
  lookup (fs w) sd0 = Some (Dir es) ->
  src_main_of (fs w) repo = Some m0 ->
  isdir (fs w) (m0 ++ COnew_REL) = true ->
  lookup (fs w) (sd0 ++ ["Include"]) = None
  \/ (exists es', lookup (fs w) (sd0 ++ ["Include"]) = Some (Dir es')) ->
  exists_ (fs w) ((sd0 ++ ["Include"]) ++ ["COnew"]) = false ->
  exists_ (fs w) ((sd0 ++ ["Include"]) ++ ["COnew_2"]) = false ->
  sd0 = aurora_root_of aurora
  \/ (exists x, isfile (fs w) (m0 ++ [x]) = true
                /\ ext_to_link x = true /\ is_isc x = true
                /\ exists_ (fs w) (sd0 ++ [x]) = false) ->
  let r := run aurora repo false false debug progress w in
  fst (find_sectorfile_dir (aurora_root_of aurora) a (snd r))
  = Ok (aurora_root_of aurora).
Proof.
  intros Ho Hfind Hsd Hmain Hconew Hinc Ha1 Ha2 Hcase.
  destruct (run_installs_all w aurora repo debug progress sd0 m0 es
              Ho Hfind Hsd Hmain Hconew Hinc Ha1 Ha2)
    as [_ [K [J1 [_ [L _]]]]].
  cbv zeta. set (w1 := snd (run aurora repo false false debug progress w)) in *.
  set (root := aurora_root_of aurora) in *.
  pose proof (find_under root true w sd0 Hfind) as U.
  destruct (under_dir _ _ _ _ U Hsd) as [ed Hroot].
  destruct (keeps_dir _ _ _ _ K Hroot) as [ed' Hroot'].
  assert (Hd : isdir (fs w1) root = true)
    by (unfold isdir, test; now rewrite Hroot').
  enough (H : isdir (fs w1) (root ++ ["Include"]) || any_isc (fs w1) root = true)
    by (now rewrite (find_step1 root a w1 Hd H)).
  destruct Hcase as [-> | [x [Hf [He [Hi Hx]]]]].
  - destruct (lookup_below_dir _ _ _ _ _ J1) as [ei Hinc'].
    unfold isdir at 1, test. now rewrite Hinc'.
  - apply orb_true_iff. right. apply (any_isc_true _ _ _ Hroot').
    specialize (L x Hf He Hx). destruct U as [rest ->].
    unfold isfile, test in Hf.
    destruct (lookup (fs w) (m0 ++ [x])) as [n|]; [|discriminate].
    rewrite <- app_assoc, lookup_app, Hroot' in L.
    apply (lookup_file_beneath is_isc x n) with (rest := rest);
      [now destruct n as [ | | []] | exact Hi | exact L].
Qed.

(** The theorem above, at a concrete installation. *)
Lemma discovery_after_install_returns_root_witness :
  let r := run ["aurora"] ["repo"] false false false true
             (fresh installed_empty willing) in
  fst (find_sectorfile_dir (aurora_root_of ["aurora"]) true (snd r))
  = Ok (aurora_root_of ["aurora"]).
Proof.
  apply (discovery_after_install_returns_root
           (fresh installed_empty willing) ["aurora"] ["repo"]
           false true true ["aurora"; "SectorFiles"]
           ["repo"; "SectorFile-MAIN"] [("Include", Dir [])]).
  - intros tr c. reflexivity.
  - reflexivity.
  - reflexivity.
  - reflexivity.
  - reflexivity.
  - right. exists []. reflexivity.
  - reflexivity.
  - reflexivity.
  - right. exists "colombia.isc". repeat split; reflexivity.
Defined.

(** X16.  An unforced run is not repeatable.  After a complete unforced
    installation on a system where no call fails, from a repository that
    parts ways with the sectorfile directory, a second unforced run that
    discovers the same directory finds the alias [COnew] in place:
    [FileExistsError] leaves its body, the file system stays as the first
    run left it and the code is 10. *)
Theorem second_unforced_run_stops
        (w : world) (aurora repo : path) (debug progress : bool)
        (sd0 m0 : path) (es : entries) :
  obliging w ->
  fst (find_sectorfile_dir (aurora_root_of aurora) true w) = Ok sd0 ->
  lookup (fs w) sd0 = Some (Dir es) ->
  src_main_of (fs w) repo = Some m0 ->
  isdir (fs w) (m0 ++ COnew_REL) = true ->
  lookup (fs w) (sd0 ++ ["Include"]) = None
  \/ (exists es', lookup (fs w) (sd0 ++ ["Include"]) = Some (Dir es')) ->
  exists_ (fs w) ((sd0 ++ ["Include"]) ++ ["COnew"]) = false ->
  exists_ (fs w) ((sd0 ++ ["Include"]) ++ ["COnew_2"]) = false ->
  diverge sd0 repo = true ->
  let r1 := run aurora repo false false debug progress w in
  fst (find_sectorfile_dir (aurora_root_of aurora) true (snd r1)) = Ok sd0 ->
  let r2 := run aurora repo false false debug progress (snd r1) in
  fst r1 = 0%Z
  /\ fst r2 = 10%Z
  /\ fs (snd r2) = fs (snd r1)
  /\ last (logged (snd r2)) Done
     = Unhandled_error (FileExistsError ((sd0 ++ ["Include"]) ++ ["COnew"])).
Proof.
  intros Ho Hfind Hsd Hmain Hconew Hinc Ha1 Ha2 Hdiv.
  destruct (run_installs_all w aurora repo debug progress sd0 m0 es
              Ho Hfind Hsd Hmain Hconew Hinc Ha1 Ha2)
    as [R0 [_ [J1 [_ [_ [S _]]]]]].
  cbv zeta. set (w1 := snd (run aurora repo false false debug progress w)) in *.
  intros Hfind1. split; [exact R0|].
  assert (Same : forall q, under repo q -> lookup (fs w1) q = lookup (fs w) q)
    by (intros q [rest ->]; apply S; now apply diverge_app_r).
  apply (run_stops_at_alias w1 aurora repo debug progress sd0 m0).
  - exact Hfind1.
  - now rewrite (src_main_of_same _ _ _ Same).
  - unfold isdir, test. rewrite Same; [exact Hconew|].
    destruct (src_main_of_under _ _ _ Hmain) as [rest ->].
    exists (rest ++ COnew_REL). now rewrite app_assoc.
  - unfold exists_, test. now rewrite J1.
Qed.

(** The theorem above, at a concrete installation. *)
Lemma second_unforced_run_stops_witness :
  let w := fresh installed_empty willing in
  let sd0 := ["aurora"; "SectorFiles"] in
  let r1 := run sd0 ["repo"] false false false true w in
  let r2 := run sd0 ["repo"] false false false true (snd r1) in
  fst r1 = 0%Z
  /\ fst r2 = 10%Z
  /\ fs (snd r2) = fs (snd r1)
  /\ last (logged (snd r2)) Done
     = Unhandled_error (FileExistsError ((sd0 ++ ["Include"]) ++ ["COnew"])).
Proof.
  apply (second_unforced_run_stops
           (fresh installed_empty willing) ["aurora"; "SectorFiles"] ["repo"]
           false true ["aurora"; "SectorFiles"]
           ["repo"; "SectorFile-MAIN"] [("Include", Dir [])]).
  - intros tr c. reflexivity.
  - reflexivity.
  - reflexivity.
  - reflexivity.
  - reflexivity.
  - right. exists []. reflexivity.
  - reflexivity.
  - reflexivity.
  - reflexivity.
  - vm_compute. reflexivity.
Defined.

End InstallExtras.
